(** * Submission-integrity protocol of the python client

    A shallow embedding of [python-client/submit_example.py]: the content
    hasher [sha256_file], the canonical payload serialization inside
    [sign_payload], the packaging step [build_repro_package] and the
    pipeline [submit_example], together with the parts of the Python
    standard library they call ([hashlib.sha256], [json.dumps]). *)

From Stdlib Require Import Ascii String.
From Stdlib Require Import ZArith List Lia Permutation Sorted Bool.
From Stdlib.Strings Require Import Byte.
From Stdlib Require DecimalString DecimalFacts DecimalPos DecimalN DecimalZ.
From Equations Require Import Equations.
Import ListNotations.
Local Open Scope Z_scope.

(* ===================================================================== *)
(** * Part I. Definitions                                                  *)
(* ===================================================================== *)

(** ** hashlib.sha256 (FIPS 180-4), 32-bit words as [Z] with explicit wrap *)

Module Sha256.

Definition wrap32 (x : Z) : Z := x mod 2 ^ 32.
Definition add32 (x y : Z) : Z := wrap32 (x + y).
Definition ROTR (n x : Z) : Z :=
  Z.lor (Z.shiftr x n) (wrap32 (Z.shiftl x (32 - n))).
Definition SHR (n x : Z) : Z := Z.shiftr x n.
Definition not32 (x : Z) : Z := Z.lxor x 0xffffffff.

Definition Ch (x y z : Z) : Z := Z.lxor (Z.land x y) (Z.land (not32 x) z).
Definition Maj (x y z : Z) : Z :=
  Z.lxor (Z.lxor (Z.land x y) (Z.land x z)) (Z.land y z).
Definition bigS0 (x : Z) : Z := Z.lxor (Z.lxor (ROTR 2 x) (ROTR 13 x)) (ROTR 22 x).
Definition bigS1 (x : Z) : Z := Z.lxor (Z.lxor (ROTR 6 x) (ROTR 11 x)) (ROTR 25 x).
Definition smallS0 (x : Z) : Z := Z.lxor (Z.lxor (ROTR 7 x) (ROTR 18 x)) (SHR 3 x).
Definition smallS1 (x : Z) : Z := Z.lxor (Z.lxor (ROTR 17 x) (ROTR 19 x)) (SHR 10 x).

(** The round constants, four rounds to a line. *)
Definition K256 : list Z :=
  (0x428a2f98 :: 0x71374491 :: 0xb5c0fbcf :: 0xe9b5dba5 :: nil)
  ++ (0x3956c25b :: 0x59f111f1 :: 0x923f82a4 :: 0xab1c5ed5 :: nil)
  ++ (0xd807aa98 :: 0x12835b01 :: 0x243185be :: 0x550c7dc3 :: nil)
  ++ (0x72be5d74 :: 0x80deb1fe :: 0x9bdc06a7 :: 0xc19bf174 :: nil)
  ++ (0xe49b69c1 :: 0xefbe4786 :: 0x0fc19dc6 :: 0x240ca1cc :: nil)
  ++ (0x2de92c6f :: 0x4a7484aa :: 0x5cb0a9dc :: 0x76f988da :: nil)
  ++ (0x983e5152 :: 0xa831c66d :: 0xb00327c8 :: 0xbf597fc7 :: nil)
  ++ (0xc6e00bf3 :: 0xd5a79147 :: 0x06ca6351 :: 0x14292967 :: nil)
  ++ (0x27b70a85 :: 0x2e1b2138 :: 0x4d2c6dfc :: 0x53380d13 :: nil)
  ++ (0x650a7354 :: 0x766a0abb :: 0x81c2c92e :: 0x92722c85 :: nil)
  ++ (0xa2bfe8a1 :: 0xa81a664b :: 0xc24b8b70 :: 0xc76c51a3 :: nil)
  ++ (0xd192e819 :: 0xd6990624 :: 0xf40e3585 :: 0x106aa070 :: nil)
  ++ (0x19a4c116 :: 0x1e376c08 :: 0x2748774c :: 0x34b0bcb5 :: nil)
  ++ (0x391c0cb3 :: 0x4ed8aa4a :: 0x5b9cca4f :: 0x682e6ff3 :: nil)
  ++ (0x748f82ee :: 0x78a5636f :: 0x84c87814 :: 0x8cc70208 :: nil)
  ++ (0x90befffa :: 0xa4506ceb :: 0xbef9a3f7 :: 0xc67178f2 :: nil).

(** The eight working registers a..h, also the chaining value. *)
Record regs : Type := Regs {
  ra : Z; rb : Z; rc : Z; rd : Z; re : Z; rf : Z; rg : Z; rh : Z }.

Definition init_regs : regs :=
  Regs 0x6a09e667 0xbb67ae85 0x3c6ef372 0xa54ff53a
       0x510e527f 0x9b05688c 0x1f83d9ab 0x5be0cd19.

Definition byteZ (b : byte) : Z := Z.of_N (Byte.to_N b).

Definition Zbyte (z : Z) : byte :=
  match Byte.of_N (Z.to_N (z mod 256)) with
  | Some b => b
  | None => x00
  end.

(** Big-endian decoding of the sixteen words of one 64-byte block. *)
Fixpoint be_words (bs : list byte) : list Z :=
  match bs with
  | b0 :: b1 :: b2 :: b3 :: rest =>
      (byteZ b0 * 16777216 + byteZ b1 * 65536 + byteZ b2 * 256 + byteZ b3)
        :: be_words rest
  | _ => []
  end.

Definition word_bytes (w : Z) : list byte :=
  [ Zbyte (Z.shiftr w 24); Zbyte (Z.shiftr w 16); Zbyte (Z.shiftr w 8); Zbyte w ].

(** One step of the message schedule on a sliding window of sixteen words:
    W[t] = s1(W[t-2]) + W[t-7] + s0(W[t-15]) + W[t-16]. *)
Definition next_w (win : list Z) : Z :=
  add32 (add32 (smallS1 (nth 14 win 0)) (nth 9 win 0))
        (add32 (smallS0 (nth 1 win 0)) (nth 0 win 0)).

Definition round (r : regs) (k w : Z) : regs :=
  let t1 := add32 (add32 (add32 (add32 (rh r) (bigS1 (re r)))
                                 (Ch (re r) (rf r) (rg r))) k) w in
  let t2 := add32 (bigS0 (ra r)) (Maj (ra r) (rb r) (rc r)) in
  Regs (add32 t1 t2) (ra r) (rb r) (rc r) (add32 (rd r) t1) (re r) (rf r) (rg r).

Fixpoint rounds (ks : list Z) (win : list Z) (r : regs) : regs :=
  match ks with
  | [] => r
  | k :: ks' =>
      rounds ks' (tl win ++ [next_w win]) (round r k (hd 0 win))
  end.

Definition add_regs (x y : regs) : regs :=
  Regs (add32 (ra x) (ra y)) (add32 (rb x) (rb y))
       (add32 (rc x) (rc y)) (add32 (rd x) (rd y))
       (add32 (re x) (re y)) (add32 (rf x) (rf y))
       (add32 (rg x) (rg y)) (add32 (rh x) (rh y)).

(** The compression function on one 64-byte block. *)
Definition compress (h : regs) (block : list byte) : regs :=
  add_regs h (rounds K256 (be_words block) h).

(** Absorb every complete 64-byte block of [data], [n] bounding their
    number; what is left (fewer than 64 bytes) is returned. *)
Fixpoint absorb_n (n : nat) (h : regs) (data : list byte) : regs * list byte :=
  match n with
  | O => (h, data)
  | S n' => absorb_n n' (compress h (firstn 64 data)) (skipn 64 data)
  end.

Definition absorb (h : regs) (data : list byte) : regs * list byte :=
  absorb_n (Nat.div (length data) 64) h data.

(** Padding for a message of [len] bytes: 0x80, zeros up to 56 mod 64,
    then the bit length as a 64-bit big-endian integer. *)
Definition be64 (n : Z) : list byte :=
  [ Zbyte (Z.shiftr n 56); Zbyte (Z.shiftr n 48); Zbyte (Z.shiftr n 40);
    Zbyte (Z.shiftr n 32); Zbyte (Z.shiftr n 24); Zbyte (Z.shiftr n 16);
    Zbyte (Z.shiftr n 8); Zbyte n ].

Definition padding (len : nat) : list byte :=
  x80 :: repeat x00 (Nat.modulo (119 - Nat.modulo len 64) 64)
      ++ be64 (8 * Z.of_nat len).

Definition regs_bytes (r : regs) : list byte :=
  word_bytes (ra r) ++ word_bytes (rb r) ++ word_bytes (rc r) ++ word_bytes (rd r)
  ++ word_bytes (re r) ++ word_bytes (rf r) ++ word_bytes (rg r) ++ word_bytes (rh r).

(** SHA-256 of a whole message in one step, as in FIPS 180-4: pad, split
    into blocks, fold the compression function. *)
Definition sha256 (msg : list byte) : list byte :=
  regs_bytes (fst (absorb init_regs (msg ++ padding (length msg)))).

(** The incremental hash object [hashlib.sha256()]: chaining value, the
    pending bytes of an incomplete block, and the byte count so far. *)
Record hasher : Type := Hasher {
  h_state : regs;
  h_buf : list byte;
  h_total : nat }.

Definition new : hasher := Hasher init_regs [] 0.

Definition update (h : hasher) (data : list byte) : hasher :=
  let '(st, rest) := absorb (h_state h) (h_buf h ++ data) in
  Hasher st rest (h_total h + length data).

Definition digest (h : hasher) : list byte :=
  regs_bytes (fst (absorb (h_state h) (h_buf h ++ padding (h_total h)))).

Definition hex_digit (n : Z) : ascii :=
  nth (Z.to_nat (Z.land n 15))
      ["0";"1";"2";"3";"4";"5";"6";"7";"8";"9";"a";"b";"c";"d";"e";"f"]%char
      "0"%char.

Definition hex_byte (b : byte) : list ascii :=
  [ hex_digit (Z.shiftr (byteZ b) 4); hex_digit (byteZ b) ].

Definition hex (bs : list byte) : string :=
  string_of_list_ascii (flat_map hex_byte bs).

Definition hexdigest (h : hasher) : string := hex (digest h).

End Sha256.

(** ** Binary files and the loop of [sha256_file] *)

(** A file opened with mode "rb": the bytes not yet consumed. [fh.read(n)]
    on a buffered binary file returns the next [n] bytes, fewer only when
    the end of the file is reached, and the empty bytes object at the end. *)
Definition file_handle : Type := list byte.

Definition fh_read (n : nat) (fh : file_handle) : list byte * file_handle :=
  (firstn n fh, skipn n fh).

Definition chunk_size : nat := Z.to_nat 8192.

Definition inspect {A : Type} (a : A) : { b : A | a = b } := exist _ a eq_refl.

Lemma fh_read_shorter (n : nat) (fh : file_handle) (b : byte) (chunk : list byte) :
  (0 < n)%nat -> fst (fh_read n fh) = b :: chunk ->
  (length (snd (fh_read n fh)) < length fh)%nat.
Proof.
  unfold fh_read. simpl. intros Hn H.
  destruct fh as [|x fh]; [rewrite firstn_nil in H; discriminate|].
  rewrite length_skipn. cbn [length]. lia.
Qed.

Lemma chunk_size_pos : (0 < chunk_size)%nat.
Proof. unfold chunk_size. change 0%nat with (Z.to_nat 0). apply Z2Nat.inj_lt; lia. Qed.

#[local] Opaque fh_read chunk_size.

(** The loop of [sha256_file]:
    [while True: chunk = fh.read(8192); if not chunk: break; h.update(chunk)]. *)
Equations? read_loop (h : Sha256.hasher) (fh : file_handle) : Sha256.hasher
  by wf (length fh) lt :=
  read_loop h fh with inspect (fst (fh_read chunk_size fh)) := {
    | exist _ [] _ := h;
    | exist _ (b :: chunk) e :=
        read_loop (Sha256.update h (b :: chunk)) (snd (fh_read chunk_size fh)) }.
Proof.
  eapply fh_read_shorter; [apply chunk_size_pos | exact e].
Qed.

#[local] Transparent fh_read chunk_size.

(** The body of [sha256_file] once the file is open: a fresh hash object,
    the loop, [h.hexdigest()]. *)
Definition sha256_of_stream (fh : file_handle) : string :=
  Sha256.hexdigest (read_loop Sha256.new fh).

(** Lowercase hexadecimal digits: '0'..'9' and 'a'..'f'. *)
Definition is_lower_hex (c : ascii) : bool :=
  let n := N_of_ascii c in
  (((48 <=? n) && (n <=? 57)) || ((97 <=? n) && (n <=? 102)))%N.

Definition bytes_of_string (s : string) : list byte := list_byte_of_string s.

(** ** Python values *)

(** A [str] is a sequence of Unicode code points. *)
Definition pystr : Type := list Z.

Definition str_of (s : string) : pystr :=
  map (fun c => Z.of_N (N_of_ascii c)) (list_ascii_of_string s).

Definition chars (s : string) : list ascii := list_ascii_of_string s.

(** A [float] is an IEEE 754 binary64 number: not-a-number, an infinity, or
    the finite value (-1)^neg * m * 2^e with 0 <= m < 2^53 and
    -1074 <= e <= 971, normalised so that m < 2^52 only when e = -1074. *)
Inductive pyfloat : Type :=
| FNan
| FInf (neg : bool)
| FFin (neg : bool) (m e : Z).

(** The values that reach [json.dumps] here. Dictionaries keep their
    insertion order and have [str] keys, as the payload and the
    hyperparameters do; [PObject] stands for an object of any other type
    (a set, bytes, a class instance), which the encoder rejects. *)
#[warnings="-register-all"]
Inductive pyval : Type :=
| PNone
| PBool (b : bool)
| PInt (z : Z)
| PFloat (f : pyfloat)
| PStr (s : pystr)
| PList (l : list pyval)
| PTuple (l : list pyval)
| PDict (d : list (pystr * pyval))
| PObject (type_name : string).

(** ** float: literals and [repr] *)

Module Float.

(** Nearest integer to p/q (q > 0), ties to even. *)
Definition round_half_even (p q : Z) : Z :=
  let fl := p / q in
  let r := p mod q in
  if 2 * r <? q then fl
  else if q <? 2 * r then fl + 1
  else if Z.even fl then fl else fl + 1.

(** The fraction p/q divided by 2^e, as a fraction. *)
Definition scale2 (p q e : Z) : Z * Z :=
  if 0 <=? e then (p, q * 2 ^ e) else (p * 2 ^ (- e), q).

(** The fraction p/q divided by 10^k, as a fraction. *)
Definition scale10 (p q k : Z) : Z * Z :=
  if 0 <=? k then (p, q * 10 ^ k) else (p * 10 ^ (- k), q).

(** The exponent E with 2^52 <= (p/q) / 2^E < 2^53, for p, q > 0, from
    the bit lengths of p and q and one comparison. *)
Definition binary_exponent (p q : Z) : Z :=
  let e0 := Z.log2 p - Z.log2 q - 52 in
  let '(p0, q0) := scale2 p q e0 in
  if p0 <? 2 ^ 52 * q0 then e0 - 1 else e0.

(** Correctly rounded (round-half-even) binary64 value of p/q, p >= 0, q > 0. *)
Definition of_ratio (neg : bool) (p q : Z) : pyfloat :=
  if p <=? 0 then FFin neg 0 (-1074) else
  let e := Z.max (binary_exponent p q) (-1074) in
  let '(p1, q1) := scale2 p q e in
  let m := round_half_even p1 q1 in
  let '(m', e') := if m =? 2 ^ 53 then (2 ^ 52, e + 1) else (m, e) in
  if 971 <? e' then FInf neg else FFin neg m' e'.

(** The value of a decimal literal with digits [d] and exponent [k], that
    is d * 10^k: what [float("...")] and a float literal in the source
    evaluate to. *)
Definition of_decimal (neg : bool) (d k : Z) : pyfloat :=
  let '(p, q) := scale10 d 1 (- k) in of_ratio neg p q.

Definition eqb (x y : pyfloat) : bool :=
  match x, y with
  | FInf a, FInf b => Bool.eqb a b
  | FFin a m e, FFin b m' e' => Bool.eqb a b && (m =? m') && (e =? e')
  | _, _ => false
  end.

(** [decimal_exponent_from fuel D p q]: the least D' >= D with
    p/q < 10^D', looking at [fuel] values. *)
Fixpoint decimal_exponent_from (fuel : nat) (D p q : Z) : Z :=
  match fuel with
  | O => D
  | S fuel' =>
      let '(p', q') := scale10 p q D in
      if p' <? q' then D else decimal_exponent_from fuel' (D + 1) p q
  end.

(** The D with 10^(D-1) <= p/q < 10^D, for p, q > 0. *)
Definition decimal_exponent (p q : Z) : Z :=
  decimal_exponent_from 8 ((Z.log2 p - Z.log2 q) * 1233 / 4096 - 2) p q.

(** Decimal digits of a natural number, most significant first. *)
Definition digits_of (n : Z) : list ascii :=
  chars (DecimalString.NilZero.string_of_uint (N.to_uint (Z.to_N n))).

Fixpoint strip_zeros_rev (l : list ascii) : list ascii :=
  match l with
  | "0"%char :: l' => strip_zeros_rev l'
  | _ => l
  end.

Definition strip_trailing_zeros (l : list ascii) : list ascii :=
  rev (strip_zeros_rev (rev l)).

(** The two [n]-digit decimals c * 10^k around m * 2^e (as the fraction
    p/q), the one nearer to it first (on a tie the even one). *)
Definition candidates (p q : Z) (D : Z) (n : Z) : list Z * Z :=
  let k := D - n in
  let '(p', q') := scale10 p q k in
  let lo := p' / q' in
  let r := p' mod q' in
  let cs :=
    if r =? 0 then [lo]
    else if 2 * r <? q' then [lo; lo + 1]
    else if q' <? 2 * r then [lo + 1; lo]
    else if Z.even lo then [lo; lo + 1] else [lo + 1; lo] in
  (cs, k).

Definition reads_back (m e : Z) (k : Z) (c : Z) : bool :=
  eqb (of_decimal false c k) (FFin false m e).

(** Shortest decimal that reads back as m * 2^e, trying 1, 2, ... digits.
    [fuel] bounds the number of lengths tried and makes the recursion
    structural; the search ends at the latest when the decimal expansion
    of m * 2^e is complete, and in practice within 17 digits. *)
Fixpoint shortest_from (fuel : nat) (n : Z) (m e p q D : Z) : Z * Z :=
  let '(cs, k) := candidates p q D n in
  match find (reads_back m e k) cs with
  | Some c => (c, k)
  | None =>
      match fuel with
      | O => (hd 0 cs, k)
      | S fuel' => shortest_from fuel' (n + 1) m e p q D
      end
  end.

(** More lengths than the longest expansion of a binary64 has digits. *)
Definition max_digits : nat := 1400.

(** The digits and the position of the decimal point that the shortest
    round-trip conversion ([_Py_dg_dtoa] in mode 0, which [repr] uses)
    gives for the positive finite m * 2^e: the value is 0.d1d2...dn * 10^decpt. *)
Definition shortest_digits (m e : Z) : list ascii * Z :=
  if m <=? 0 then (["0"%char], 1) else
  let '(p, q) := scale2 m 1 (- e) in
  let D := decimal_exponent p q in
  let '(c, k) := shortest_from max_digits 1 m e p q D in
  let ds := digits_of c in
  (strip_trailing_zeros ds, k + Z.of_nat (length ds)).

(** The exponent field of [repr]: a sign and at least two digits. *)
Definition exponent_text (x : Z) : list ascii :=
  (if x <? 0 then "-"%char else "+"%char)
    :: (if Z.abs x <? 10 then ["0"%char] else []) ++ digits_of (Z.abs x).

(** [repr] of a positive finite float from its shortest digits: scientific
    notation when decpt <= -4 or decpt > 16, positional otherwise, with
    ".0" appended to a value without fractional part. *)
Definition format_repr (ds : list ascii) (decpt : Z) : list ascii :=
  if (decpt <=? -4) || (16 <? decpt) then
    match ds with
    | [] => []
    | d :: [] => d :: "e"%char :: exponent_text (decpt - 1)
    | d :: rest => d :: "."%char :: rest ++ "e"%char :: exponent_text (decpt - 1)
    end
  else if decpt <=? 0 then
    chars "0." ++ repeat "0"%char (Z.to_nat (- decpt)) ++ ds
  else if Z.of_nat (length ds) <=? decpt then
    ds ++ repeat "0"%char (Z.to_nat decpt - length ds) ++ chars ".0"
  else
    firstn (Z.to_nat decpt) ds ++ "."%char :: skipn (Z.to_nat decpt) ds.

Definition sign_text (neg : bool) : list ascii :=
  if neg then ["-"%char] else [].

(** [float.__repr__]. *)
Definition repr (f : pyfloat) : list ascii :=
  match f with
  | FNan => chars "nan"
  | FInf neg => sign_text neg ++ chars "inf"
  | FFin neg m e =>
      let '(ds, decpt) := shortest_digits m e in
      sign_text neg ++ format_repr ds decpt
  end.

(** Position of the decimal point of the shortest digits of a finite float. *)
Definition decpt (f : pyfloat) : Z :=
  match f with
  | FFin _ m e => snd (shortest_digits m e)
  | _ => 0
  end.

(** [float(text)] for the texts [repr] produces: an optional sign, digits
    with an optional fraction, an optional exponent; the value is the
    correctly rounded one. *)
Definition digit_val (c : ascii) : Z := Z.of_N (N_of_ascii c) - 48.

Definition is_digit (c : ascii) : bool :=
  let n := N_of_ascii c in ((48 <=? n) && (n <=? 57))%N.

Fixpoint span_digits (l : list ascii) : list ascii * list ascii :=
  match l with
  | c :: l' =>
      if is_digit c then let '(ds, rest) := span_digits l' in (c :: ds, rest)
      else ([], l)
  | [] => ([], [])
  end.

Definition digits_value (ds : list ascii) : Z :=
  fold_left (fun acc c => acc * 10 + digit_val c) ds 0.

Definition split_sign (t : list ascii) : bool * list ascii :=
  match t with
  | "-"%char :: t' => (true, t')
  | "+"%char :: t' => (false, t')
  | _ => (false, t)
  end.

Definition of_text (t : list ascii) : option pyfloat :=
  let '(neg, t1) := split_sign t in
  let '(ip, t2) := span_digits t1 in
  let '(fp, t3) :=
    match t2 with
    | "."%char :: t' => span_digits t'
    | _ => ([], t2)
    end in
  let mant := digits_value (ip ++ fp) in
  let scale := - Z.of_nat (length fp) in
  match ip ++ fp, t3 with
  | [], _ => None
  | _ :: _, [] => Some (of_decimal neg mant scale)
  | _ :: _, "e"%char :: t4 =>
      let '(eneg, t5) := split_sign t4 in
      match span_digits t5 with
      | (d :: ds, []) =>
          let x := digits_value (d :: ds) in
          Some (of_decimal neg mant ((if eneg then - x else x) + scale))
      | _ => None
      end
  | _, _ => None
  end.

(** The finite floats that are binary64 values: 0 <= m < 2^53 and
    -1074 <= e <= 971, with m < 2^52 only at the least exponent. *)
Definition valid (f : pyfloat) : bool :=
  match f with
  | FFin _ m e =>
      (0 <=? m) && (m <? 2 ^ 53) && (-1074 <=? e) && (e <=? 971)
      && ((2 ^ 52 <=? m) || (e =? -1074))
  | _ => true
  end.

(** [float(repr(f)) == f] for a finite [f]; it holds for every binary64
    (see [repr_reads_back]). *)
Definition reads_back_from_repr (f : pyfloat) : bool :=
  match f with
  | FFin _ _ _ =>
      match of_text (repr f) with
      | Some g => eqb g f
      | None => false
      end
  | _ => true
  end.

End Float.

(** ** json.dumps *)

Module Json.

Definition hexd (n : Z) : ascii := Sha256.hex_digit n.

(** ['{0:04x}'.format(n)] for 0 <= n < 65536, its only use here. *)
Definition hex4 (n : Z) : list ascii :=
  [ hexd (Z.shiftr n 12); hexd (Z.shiftr n 8); hexd (Z.shiftr n 4); hexd n ].

Definition ascii_of_Z (c : Z) : ascii := ascii_of_N (Z.to_N c).

(** The double quote character, code 34. *)
Definition quote : ascii :=
  Ascii false true false false false true false false.

(** Writes expected JSON text with ' standing for the double quote. *)
Definition dq (s : string) : string :=
  string_of_list_ascii
    (map (fun c => if Ascii.eqb c "'"%char then quote else c)
         (list_ascii_of_string s)).

(** One character under [ensure_ascii=True] ([py_encode_basestring_ascii]):
    the short escapes of ESCAPE_DCT, printable ASCII unchanged, any other
    code point as \uXXXX, above the basic plane as a surrogate pair. *)
Definition esc_char (c : Z) : list ascii :=
  if c =? 34 then ["\"%char; quote]
  else if c =? 92 then chars "\\"
  else if c =? 10 then chars "\n"
  else if c =? 13 then chars "\r"
  else if c =? 9 then chars "\t"
  else if c =? 8 then chars "\b"
  else if c =? 12 then chars "\f"
  else if (32 <=? c) && (c <=? 126) then [ascii_of_Z c]
  else if c <? 65536 then chars "\u" ++ hex4 c
  else
    let n := c - 65536 in
    let s1 := Z.lor 55296 (Z.land (Z.shiftr n 10) 1023) in
    let s2 := Z.lor 56320 (Z.land n 1023) in
    chars "\u" ++ hex4 s1 ++ chars "\u" ++ hex4 s2.

Definition encode_str (s : pystr) : list ascii :=
  quote :: flat_map esc_char s ++ [quote].

(** [int.__repr__]: decimal, with a minus sign for negative numbers. *)
Definition int_repr (z : Z) : list ascii :=
  chars (DecimalString.NilZero.string_of_int (Z.to_int z)).

(** [floatstr] of the encoder with [allow_nan=True]. *)
Definition floatstr (f : pyfloat) : list ascii :=
  match f with
  | FNan => chars "NaN"
  | FInf false => chars "Infinity"
  | FInf true => chars "-Infinity"
  | FFin _ _ _ => Float.repr f
  end.

(** Comparison of [str] keys, code point by code point. *)
Fixpoint str_leb (a b : pystr) : bool :=
  match a, b with
  | [], _ => true
  | _ :: _, [] => false
  | x :: a', y :: b' =>
      if x <? y then true else if y <? x then false else str_leb a' b'
  end.

(** [sorted] on the items of a dict: a stable sort by key. *)
Fixpoint insert_item {V : Type} (kv : pystr * V) (l : list (pystr * V)) :
  list (pystr * V) :=
  match l with
  | [] => [kv]
  | x :: r =>
      if str_leb (fst kv) (fst x) then kv :: l else x :: insert_item kv r
  end.

Definition sort_items {V : Type} (l : list (pystr * V)) : list (pystr * V) :=
  fold_right insert_item [] l.

(** [sep.join(parts)]. *)
Definition join (sep : list ascii) (parts : list (list ascii)) : list ascii :=
  match parts with
  | [] => []
  | p :: ps => p ++ flat_map (fun q => sep ++ q) ps
  end.

(** All the results, or [None] when one of them is an error. *)
Fixpoint all_some {A : Type} (l : list (option A)) : option (list A) :=
  match l with
  | [] => Some []
  | None :: _ => None
  | Some a :: l' =>
      match all_some l' with
      | Some r => Some (a :: r)
      | None => None
      end
  end.

Section Encoder.

Variable sort_keys : bool.
Variables item_separator key_separator : list ascii.

Definition encode_item (kv : pystr * list ascii) : list ascii :=
  encode_str (fst kv) ++ key_separator ++ snd kv.

(** The encoder; [None] is the TypeError "Object of type ... is not JSON
    serializable". The values of a dict are encoded where they stand and
    the encoded items are then put in key order: [sorted] compares the
    items by key (the keys of a dict are distinct), so this is the order
    in which the encoder emits them. *)
Fixpoint encode (v : pyval) : option (list ascii) :=
  match v with
  | PNone => Some (chars "null")
  | PBool true => Some (chars "true")
  | PBool false => Some (chars "false")
  | PInt z => Some (int_repr z)
  | PFloat f => Some (floatstr f)
  | PStr s => Some (encode_str s)
  | PList l | PTuple l =>
      match all_some (map encode l) with
      | Some parts => Some ("["%char :: join item_separator parts ++ ["]"%char])
      | None => None
      end
  | PDict d =>
      match all_some (map (fun kv =>
               match encode (snd kv) with
               | Some t => Some (fst kv, t)
               | None => None
               end) d) with
      | Some items =>
          let items' := if sort_keys then sort_items items else items in
          Some ("{"%char :: join item_separator (map encode_item items')
                  ++ ["}"%char])
      | None => None
      end
  | PObject _ => None
  end.

End Encoder.

(** [json.dumps(obj, sort_keys=True, separators=(',', ':'))]. *)
Definition dumps_canonical (v : pyval) : option string :=
  option_map string_of_list_ascii (encode true (chars ",") (chars ":") v).

(** [json.dumps(obj)]: insertion order, separators (', ', ': '). *)
Definition dumps (v : pyval) : option string :=
  option_map string_of_list_ascii (encode false (chars ", ") (chars ": ") v).

End Json.

(** [str.encode()] of text that is ASCII only, as [json.dumps] output is. *)
Definition encode_utf8 (s : string) : list byte := list_byte_of_string s.

(** ** The Claim and its payload *)

Record claim : Type := Claim {
  task_id : pystr;
  miner_id : Z;
  performance : pyfloat;
  artifact_hash : pystr;
  hyperparameters : list (pystr * pyval);
  timestamp : Z;
  nonce : Z }.

(** The [payload] dict literal of [submit_example], keys in source order. *)
Definition payload_of (c : claim) : pyval :=
  PDict [ (str_of "task_id", PStr (task_id c));
          (str_of "miner_id", PInt (miner_id c));
          (str_of "performance", PFloat (performance c));
          (str_of "artifact_hash", PStr (artifact_hash c));
          (str_of "hyperparameters", PDict (hyperparameters c));
          (str_of "timestamp", PInt (timestamp c));
          (str_of "nonce", PInt (nonce c)) ].

(** The message that [sign_payload] signs:
    [json.dumps(payload, sort_keys=True, separators=(',', ':')).encode()]. *)
Definition canonical_bytes (payload : pyval) : option (list byte) :=
  option_map encode_utf8 (Json.dumps_canonical payload).

(** The [payload] part of the multipart request: [json.dumps(payload)]. *)
Definition wire_payload (payload : pyval) : option (list byte) :=
  option_map encode_utf8 (Json.dumps payload).

Section Signer.

(** Ed25519 signing of PyNaCl, [sk.sign(msg).signature]: 64 bytes from
    the key and the message. *)
Variable ed25519_sign : list byte -> list byte -> list byte.

Definition sign_payload (sk : list byte) (payload : pyval) : option string :=
  match canonical_bytes payload with
  | Some msg => Some (Sha256.hex (ed25519_sign sk msg))
  | None => None
  end.

End Signer.

(** The hyperparameters literal of [submit_example]:
    [{"layers":[128,64], "activation":"relu", "lr":0.001}]. *)
Definition example_hyper : list (pystr * pyval) :=
  [ (str_of "layers", PList [PInt 128; PInt 64]);
    (str_of "activation", PStr (str_of "relu"));
    (str_of "lr", PFloat (Float.of_decimal false 1 (-3))) ].


(** ** Files, the network and the pipeline of [submit_example] *)

Module Os.

(** The files of the working directory, path to content, in creation order. *)
Definition fs : Type := list (string * list byte).

Fixpoint fs_read (path : string) (files : fs) : option (list byte) :=
  match files with
  | [] => None
  | (p, content) :: rest =>
      if String.eqb p path then Some content else fs_read path rest
  end.

Fixpoint fs_write (path : string) (content : list byte) (files : fs) : fs :=
  match files with
  | [] => [(path, content)]
  | (p, c) :: rest =>
      if String.eqb p path then (p, content) :: rest
      else (p, c) :: fs_write path content rest
  end.

Fixpoint has_slash (s : string) : bool :=
  match s with
  | EmptyString => false
  | String c s' => Ascii.eqb c "/"%char || has_slash s'
  end.

(** The name of [path] inside the directory [dir], if it lies directly in it. *)
Definition child_name (dir path : string) : option string :=
  let pre := (dir ++ "/")%string in
  if String.prefix pre path then
    let name := String.substring (String.length pre)
                  (String.length path - String.length pre) path in
    if has_slash name then None else Some name
  else None.

(** [os.listdir(dir)]; the order is the file system's, here creation order. *)
Fixpoint listdir (dir : string) (files : fs) : list string :=
  match files with
  | [] => []
  | (p, _) :: rest =>
      match child_name dir p with
      | Some name => name :: listdir dir rest
      | None => listdir dir rest
      end
  end.

(** [os.path.join(dir, name)]. *)
Definition path_join (dir name : string) : string := (dir ++ "/" ++ name)%string.

End Os.

(** One multipart POST, the three parts of [files] in [submit_example]. *)
Record request : Type := Request {
  req_url : string;
  req_payload : string;
  req_signature : string;
  req_artifact_name : string;
  req_artifact : list byte }.

Record world : Type := World {
  files : Os.fs;
  posts : list request }.

Inductive exn : Type :=
| TypeError (msg : string)
| FileNotFoundError (path : string).

(** A step of the script: it changes the world and returns a value or
    raises an exception. *)
Definition M (A : Type) : Type := world -> (exn + A) * world.

Definition ret {A : Type} (a : A) : M A := fun w => (inr a, w).
Definition raise {A : Type} (e : exn) : M A := fun w => (inl e, w).
Definition bind {A B : Type} (c : M A) (k : A -> M B) : M B :=
  fun w =>
    match c w with
    | (inr a, w') => k a w'
    | (inl e, w') => (inl e, w')
    end.

Notation "x <- c ;; k" := (bind c (fun x => k))
  (at level 61, c at next level, right associativity).
Notation "c ;;; k" := (bind c (fun _ => k))
  (at level 61, right associativity).

(** [open(path, "w")], a write and the close of the [with] block. *)
Definition write_file (path : string) (content : list byte) : M unit :=
  fun w => (inr tt, World (Os.fs_write path content (files w)) (posts w)).

(** [open(path, "rb")]: the handle on the content, or FileNotFoundError. *)
Definition open_rb (path : string) : M file_handle :=
  fun w =>
    match Os.fs_read path (files w) with
    | Some content => (inr content, w)
    | None => (inl (FileNotFoundError path), w)
    end.

(** [sha256_file(path)]: FileNotFoundError when the file cannot be opened,
    else the hex digest of its content. *)
Definition sha256_file (path : string) : M string :=
  fh <- open_rb path ;;
  ret (sha256_of_stream fh).

(** A value is serializable when no [PObject] occurs in it. *)
Fixpoint serializable (v : pyval) : bool :=
  match v with
  | PList l | PTuple l => forallb serializable l
  | PDict d => forallb (fun kv => serializable (snd kv)) d
  | PObject _ => false
  | _ => true
  end.

(** [with open(path, "w") as fh: json.dump(obj, fh)]. When the encoder
    raises, the file has been created; what was written before the error is
    not modelled, the file is left empty. *)
Definition json_dump_to (obj : pyval) (path : string) : M unit :=
  match Json.dumps obj with
  | Some text => write_file path (encode_utf8 text)
  | None =>
      write_file path [] ;;;
      raise (TypeError "Object is not JSON serializable")
  end.

(** [os.system("cp src dst")]: the exit status of the shell command, 0 when
    the copy was made; it never raises. *)
Definition os_system_cp (src dst : string) : M Z :=
  fun w =>
    match Os.fs_read src (files w) with
    | Some content =>
        (inr 0, World (Os.fs_write dst content (files w)) (posts w))
    | None => (inr 256, w)
    end.

Definition requests_post (r : request) : M unit :=
  fun w => (inr tt, World (files w) (posts w ++ [r])).

(** [int.from_bytes(bs, "big")]. *)
Definition int_from_bytes_big (bs : list byte) : Z :=
  fold_left (fun acc b => acc * 256 + Sha256.byteZ b) bs 0.

Section Pipeline.

(** The bytes [zipfile.ZipFile] writes for the given members. *)
Variable zip_archive : list (string * list byte) -> list byte.
Variable ed25519_sign : list byte -> list byte -> list byte.
(** The signing key loaded when the module is imported. *)
Variable sk : list byte.

Definition tmpdir : string := "pkgtmp".

(** The members read back for the archive: every name of [os.listdir]. *)
Fixpoint read_members (dir : string) (names : list string) : M (list (string * list byte)) :=
  match names with
  | [] => ret []
  | name :: rest =>
      content <- open_rb (Os.path_join dir name) ;;
      others <- read_members dir rest ;;
      ret ((name, content) :: others)
  end.

Definition build_repro_package (hyperparams : pyval) (out_path : string) : M unit :=
  json_dump_to hyperparams (Os.path_join tmpdir "hyperparameters.json") ;;;
  _status <- os_system_cp "python-client/train.py" (Os.path_join tmpdir "train.py") ;;
  names <- (fun w => (inr (Os.listdir tmpdir (files w)), w)) ;;
  members <- read_members tmpdir names ;;
  write_file out_path (zip_archive members).

Definition sign_payload_step (payload : pyval) : M string :=
  match sign_payload ed25519_sign sk payload with
  | Some sig => ret sig
  | None => raise (TypeError "Object is not JSON serializable")
  end.

Definition json_dumps_step (payload : pyval) : M string :=
  match Json.dumps payload with
  | Some text => ret text
  | None => raise (TypeError "Object is not JSON serializable")
  end.

(** [submit_example] with the hyperparameters, the clock reading
    [int(time.time())] and the bytes of [os.urandom(8)] made explicit. *)
Definition submit_example_with (hyper : list (pystr * pyval))
           (now : Z) (random8 : list byte) : M unit :=
  let artifact := "repro.zip"%string in
  build_repro_package (PDict hyper) artifact ;;;
  art_hash <- sha256_file artifact ;;
  let payload := payload_of
    (Claim (str_of "task-prod-001") 1 (Float.of_decimal false 92 (-2))
           (str_of art_hash) hyper now (int_from_bytes_big random8)) in
  signature <- sign_payload_step payload ;;
  text <- json_dumps_step payload ;;
  art <- open_rb artifact ;;
  requests_post (Request "http://localhost:8080/submit" text signature
                         "repro.zip" art).

Definition submit_example : Z -> list byte -> M unit :=
  submit_example_with example_hyper.

End Pipeline.


(** A working directory whose file "repro.zip" holds the bytes of "hello". *)
Definition hello_world : world :=
  World [ ("repro.zip"%string, bytes_of_string "hello") ] [].

(** A checkout in which the key file is present and
    [python-client/train.py] is not. *)
Definition world_without_train : world :=
  World [ ("python-client/miner1_sk.hex"%string,
           bytes_of_string "9d61b19deffd5a60ba844af492ec2cc44449c5697b326919703bac031cae7f60") ]
        [].

Definition example_hyper_text : string :=
  Json.dq "{'layers': [128, 64], 'activation': 'relu', 'lr': 0.001}".

(** The Claim of the end-to-end scenario: the digest of "hello", task "t1",
    miner 1, a fixed timestamp and nonce. *)
Definition example_claim : claim :=
  Claim (str_of "t1") 1 (Float.of_decimal false 92 (-2))
        (str_of "2cf24dba5fb0a30e26e83b2ac5b9e29e1b161e5c1fa7425e73043362938b9824")
        example_hyper 1700000000 7.

(** ** The same mapping under another insertion order *)

(** [reordered v v']: [v'] is [v] with the items of some of its dicts, at
    any depth, inserted in another order. The keys of a dict are distinct. *)
#[warnings="-register-all"]
Inductive reordered : pyval -> pyval -> Prop :=
| reordered_same (v : pyval) : reordered v v
| reordered_list (l l' : list pyval) :
    Forall2 reordered l l' -> reordered (PList l) (PList l')
| reordered_tuple (l l' : list pyval) :
    Forall2 reordered l l' -> reordered (PTuple l) (PTuple l')
| reordered_dict (d d0 d' : list (pystr * pyval)) :
    NoDup (map fst d) ->
    Forall2 (fun kv kv' => fst kv = fst kv' /\ reordered (snd kv) (snd kv')) d d0 ->
    Permutation d0 d' ->
    reordered (PDict d) (PDict d').

(** The payload of [example_claim] built with its keys, and those of its
    hyperparameters, inserted in the opposite order. *)
Definition example_items_reordered : list (pystr * pyval) :=
  [ (str_of "task_id", PStr (task_id example_claim));
    (str_of "miner_id", PInt (miner_id example_claim));
    (str_of "performance", PFloat (performance example_claim));
    (str_of "artifact_hash", PStr (artifact_hash example_claim));
    (str_of "hyperparameters", PDict (rev example_hyper));
    (str_of "timestamp", PInt (timestamp example_claim));
    (str_of "nonce", PInt (nonce example_claim)) ].

Definition example_payload_reordered : pyval :=
  PDict (rev example_items_reordered).

(** ** Shapes of number text *)

Definition is_digit : ascii -> bool := Float.is_digit.

(** Positional notation: digits, a leading minus sign and the point. *)
Definition positional_char (c : ascii) : bool :=
  is_digit c || Ascii.eqb c "-" || Ascii.eqb c ".".

(** Scientific notation adds the exponent marker and the exponent sign. *)
Definition scientific_char (c : ascii) : bool :=
  positional_char c || Ascii.eqb c "e" || Ascii.eqb c "+".

Definition positional (t : list ascii) : bool := forallb positional_char t.

(** [1e-4 <= m * 2^e < 1e16], decided on the exact value p/q of the float. *)
Definition in_positional_range (m e : Z) : bool :=
  let '(p, q) := Float.scale2 m 1 (- e) in
  (q <=? p * 10 ^ 4) && (p <? 10 ^ 16 * q).

(** p/q < 10^D. *)
Definition below_pow10 (p q D : Z) : Prop :=
  fst (Float.scale10 p q D) < snd (Float.scale10 p q D).

(** [10^a <= 2^b] and [2^b <= 10^a], for exponents of either sign. *)
Definition pow10_le_pow2 (a b : Z) : bool :=
  10 ^ Z.max a 0 * 2 ^ Z.max (- b) 0 <=? 2 ^ Z.max b 0 * 10 ^ Z.max (- a) 0.

Definition pow2_le_pow10 (b a : Z) : bool :=
  2 ^ Z.max b 0 * 10 ^ Z.max (- a) 0 <=? 10 ^ Z.max a 0 * 2 ^ Z.max (- b) 0.

(** The first guess of [decimal_exponent], for a value between 2^L and
    2^(L+1). *)
Definition first_exponent (L : Z) : Z := L * 1233 / 4096 - 2.

(** For the eight L of block j, from 8j to 8j+7: the power of ten below
    the first guess is at most half the least value, and the eighth
    exponent from the first guess is above every value. *)
Definition block_ok (j : Z) : bool :=
  pow10_le_pow2 (first_exponent (8 * j + 7) - 1) (8 * j - 1)
  && pow2_le_pow10 (8 * j + 8) (first_exponent (8 * j) + 8).

(** Decimal digits in normal form: a single 0, or digits
    that do not start with 0. *)
Definition no_leading_zero (ds : list ascii) : Prop :=
  ds = ["0"%char] \/ exists d rest, ds = d :: rest /\ d <> "0"%char.

(** [example_claim] with the claimed performance 0.00001. *)
Definition tiny_performance_claim : claim :=
  Claim (task_id example_claim) (miner_id example_claim)
        (Float.of_decimal false 1 (-5))
        (artifact_hash example_claim) (hyperparameters example_claim)
        (timestamp example_claim) (nonce example_claim).

(** ** Values on which the serialization is compared *)

(** Surrogate code points U+D800..U+DFFF. *)
Definition is_surrogate (c : Z) : bool := (55296 <=? c) && (c <=? 57343).

(** A [str] of Unicode scalar values: code points in range, no surrogates. *)
Definition scalar_str (s : pystr) : bool :=
  forallb (fun c => (0 <=? c) && (c <? 1114112) && negb (is_surrogate c)) s.

Fixpoint str_eqb (a b : pystr) : bool :=
  match a, b with
  | [], [] => true
  | x :: a', y :: b' => (x =? y) && str_eqb a' b'
  | _, _ => false
  end.

Fixpoint distinct (keys : list pystr) : bool :=
  match keys with
  | [] => true
  | k :: rest => negb (existsb (str_eqb k) rest) && distinct rest
  end.

(** The values of the JSON data model: strings of scalar values, floats
    that are binary64 values, lists and dicts with distinct keys; no
    tuples and no foreign objects. *)
Fixpoint plain (v : pyval) : bool :=
  match v with
  | PNone | PBool _ | PInt _ => true
  | PFloat f => Float.valid f
  | PStr s => scalar_str s
  | PList l => forallb plain l
  | PDict d =>
      distinct (map fst d)
      && forallb (fun kv => scalar_str (fst kv) && plain (snd kv)) d
  | PTuple _ | PObject _ => false
  end.

(** Two Claims with the same value in every field; the hyperparameters are
    compared as mappings, whatever the insertion order. *)
Definition same_claim (c c' : claim) : Prop :=
  task_id c = task_id c' /\
  miner_id c = miner_id c' /\
  performance c = performance c' /\
  artifact_hash c = artifact_hash c' /\
  reordered (PDict (hyperparameters c)) (PDict (hyperparameters c')) /\
  timestamp c = timestamp c' /\
  nonce c = nonce c'.

(** What may follow a value in JSON text: nothing, or one of , ] and the
    closing brace. *)
Definition closing_char (c : ascii) : bool :=
  Ascii.eqb c "," || Ascii.eqb c "]" || Ascii.eqb c "}".

Definition closing (r : list ascii) : Prop :=
  match r with
  | [] => True
  | c :: _ => closing_char c = true
  end.

(** The characters of an int: digits and the minus sign. *)
Definition int_char (c : ascii) : bool := is_digit c || Ascii.eqb c "-".

Definition not_closing (c : ascii) : bool := negb (closing_char c).

(** Two pairs of Claims that differ in one field: the task id written with
    the two surrogate code points U+D83D U+DE00 or with the code point
    U+1F600 they encode, and the layer sizes given as a tuple or as a list. *)
Definition claim_with_task (task : pystr) : claim :=
  Claim task (miner_id example_claim) (performance example_claim)
        (artifact_hash example_claim) (hyperparameters example_claim)
        (timestamp example_claim) (nonce example_claim).

Definition claim_with_layers (layers : pyval) : claim :=
  Claim (task_id example_claim) (miner_id example_claim) (performance example_claim)
        (artifact_hash example_claim)
        [ (str_of "layers", layers);
          (str_of "activation", PStr (str_of "relu"));
          (str_of "lr", PFloat (Float.of_decimal false 1 (-3))) ]
        (timestamp example_claim) (nonce example_claim).

(** [example_claim] with another nonce. *)
Definition claim_with_nonce (n : Z) : claim :=
  Claim (task_id example_claim) (miner_id example_claim) (performance example_claim)
        (artifact_hash example_claim) (hyperparameters example_claim)
        (timestamp example_claim) n.

(** ** Predicates used to state the properties *)

(** [represents M h]: the hash object [h] has been fed exactly the bytes [M]. *)
Definition represents (M : list byte) (h : Sha256.hasher) : Prop :=
  Sha256.h_state h = fst (Sha256.absorb Sha256.init_regs M) /\
  Sha256.h_buf h = snd (Sha256.absorb Sha256.init_regs M) /\
  Sha256.h_total h = length M.

(** The order in which [sorted] puts two items. *)
Definition key_le {V : Type} (x y : pystr * V) : Prop :=
  Json.str_leb (fst x) (fst y) = true.

(** [r] does not go on with a [P]-character. *)
Definition stops (P : ascii -> bool) (r : list ascii) : Prop :=
  match r with
  | [] => True
  | c :: _ => P c = false
  end.

(** A Unicode scalar value. *)
Definition scalar (c : Z) : Prop :=
  0 <= c < 1114112 /\ ~ (55296 <= c <= 57343).

(** [in_binade p q E]: 2^52 <= (p/q) / 2^E < 2^53. *)
Definition in_binade (p q E : Z) : Prop :=
  2 ^ 52 * snd (Float.scale2 p q E) <= fst (Float.scale2 p q E)
  /\ fst (Float.scale2 p q E) < 2 ^ 53 * snd (Float.scale2 p q E).

(** m * 2^e is a binary64 value. *)
Definition valid_fin (m e : Z) : Prop :=
  0 <= m < 2 ^ 53 /\ -1074 <= e <= 971 /\ (m < 2 ^ 52 -> e = -1074).

(** The two-character escapes of ESCAPE_DCT. *)
Definition short_escapes : list (Z * ascii) :=
  [ (34, Json.quote); (92, "\"%char); (10, "n"%char); (13, "r"%char);
    (9, "t"%char); (8, "b"%char); (12, "f"%char) ].

(** The first character of the text of a value tells its kind. *)
Definition lead (v : pyval) (c : ascii) : Prop :=
  match v with
  | PNone => c = "n"%char
  | PBool true => c = "t"%char
  | PBool false => c = "f"%char
  | PInt _ => int_char c = true
  | PFloat _ => int_char c = true \/ c = "N"%char \/ c = "I"%char
  | PStr _ => c = Json.quote
  | PList _ | PTuple _ => c = "["%char
  | PDict _ => c = "{"%char
  | PObject _ => False
  end.

Definition kind (v : pyval) : nat :=
  match v with
  | PNone => 0
  | PBool _ => 1
  | PInt _ | PFloat _ => 2
  | PStr _ => 3
  | PList _ | PTuple _ => 4
  | PDict _ => 5
  | PObject _ => 6
  end.

(** The canonical text of [v], followed by something that may follow a
    value, determines [v] (up to the insertion order of its dicts) and
    what follows. *)
Definition text_determines (v : pyval) : Prop :=
  forall (v' : pyval) (r r' t t' : list ascii),
    plain v' = true -> closing r -> closing r' ->
    Json.encode true (chars ",") (chars ":") v = Some t ->
    Json.encode true (chars ",") (chars ":") v' = Some t' ->
    t ++ r = t' ++ r' -> reordered v v' /\ r = r'.

Definition same_item (kv kv' : pystr * pyval) : Prop :=
  fst kv = fst kv' /\ reordered (snd kv) (snd kv').

Definition item_ok (kv : pystr * pyval) : bool :=
  scalar_str (fst kv) && plain (snd kv).

(** ** Definitions used by the further properties *)

(** [path] is a directory of the working directory: some file lies under it. *)
Definition is_dir (path : string) (fs : Os.fs) : bool :=
  existsb (fun pc => String.prefix (path ++ "/") (fst pc)) fs.

(** The script can create its files: [pkgtmp] is not a regular file, so
    that [os.makedirs(tmpdir, exist_ok=True)] returns, and none of the
    three paths it writes is a directory. *)
Definition layout_ok (w : world) : bool :=
  match Os.fs_read "pkgtmp" (files w) with Some _ => false | None => true end
  && negb (is_dir "pkgtmp/hyperparameters.json" (files w))
  && negb (is_dir "pkgtmp/train.py" (files w))
  && negb (is_dir "repro.zip" (files w)).

(** The three paths [submit_example] writes. *)
Definition written_paths : list string :=
  [ "pkgtmp/hyperparameters.json"; "pkgtmp/train.py"; "repro.zip" ]%string.

(** A checkout with the template, a file left in [pkgtmp] by an earlier
    run and an unrelated file. *)
Definition world_with_leftover : world :=
  World [ ("python-client/train.py"%string, bytes_of_string "import json");
          ("pkgtmp/old_weights.bin"%string, bytes_of_string "stale");
          ("notes.txt"%string, bytes_of_string "keep") ]
        [].

(** Printable ASCII, from the space to the tilde: the characters
    [ensure_ascii] lets through. *)
Definition printable (c : ascii) : bool :=
  let n := N_of_ascii c in ((32 <=? n) && (n <=? 126))%N.

(** ** json.loads *)

(** The decoder that [json.load] runs on the text of a file: the scanner
    of [_json] ([scan_once], [_parse_object], [_parse_array],
    [_match_number], [scanstring]) with its defaults ([strict=True], no
    hooks), on the code points of the text. [None] is the ValueError the
    decoder raises: a JSONDecodeError, or the refusal of [int] to convert
    more than 4300 digits. The interpreter's limit on the nesting depth is
    not modelled. *)
Module Decoder.

(** IS_WHITESPACE: space, tab, line feed, carriage return. *)
Definition is_ws (c : Z) : bool :=
  (c =? 32) || (c =? 9) || (c =? 10) || (c =? 13).

Fixpoint skip_ws (s : pystr) : pystr :=
  match s with
  | c :: r => if is_ws c then skip_ws r else s
  | [] => []
  end.

Definition is_digit (c : Z) : bool := (48 <=? c) && (c <=? 57).

Fixpoint span_digits (s : pystr) : pystr * pystr :=
  match s with
  | c :: r =>
      if is_digit c then let '(ds, rest) := span_digits r in (c :: ds, rest)
      else ([], s)
  | [] => ([], [])
  end.

Definition digits_value (ds : pystr) : Z :=
  fold_left (fun acc c => acc * 10 + (c - 48)) ds 0.

(** One hexadecimal digit of a \uXXXX escape, in either case. *)
Definition hex_val (c : Z) : option Z :=
  if (48 <=? c) && (c <=? 57) then Some (c - 48)
  else if (97 <=? c) && (c <=? 102) then Some (c - 87)
  else if (65 <=? c) && (c <=? 70) then Some (c - 55)
  else None.

Definition hex4_val (a b c d : Z) : option Z :=
  match hex_val a, hex_val b, hex_val c, hex_val d with
  | Some x, Some y, Some z, Some w => Some (((x * 16 + y) * 16 + z) * 16 + w)
  | _, _, _, _ => None
  end.

(** The character of a two-character escape (BACKSLASH). *)
Definition unescape (c : Z) : option Z :=
  if c =? 34 then Some 34
  else if c =? 92 then Some 92
  else if c =? 47 then Some 47
  else if c =? 98 then Some 8
  else if c =? 102 then Some 12
  else if c =? 110 then Some 10
  else if c =? 114 then Some 13
  else if c =? 116 then Some 9
  else None.

Definition is_high_surrogate (c : Z) : bool := (55296 <=? c) && (c <=? 56319).
Definition is_low_surrogate (c : Z) : bool := (56320 <=? c) && (c <=? 57343).

Definition join_surrogates (hi lo : Z) : Z :=
  65536 + Z.lor (Z.shiftl (hi - 55296) 10) (lo - 56320).

(** [scanstring] from behind the opening quote: the string and the text
    behind the closing quote. A control character, an unknown escape, a
    bad \uXXXX and the end of the text inside the string are errors. A
    high surrogate escape followed by a low surrogate escape is one code
    point; the scanner looks for the pair only when at least seven
    characters are left. *)
Fixpoint scanstring (s : pystr) : option (pystr * pystr) :=
  match s with
  | [] => None
  | c :: r =>
      if c =? 34 then Some ([], r)
      else if c =? 92 then
        match r with
        | [] => None
        | e :: r1 =>
            if e =? 117 then
              match r1 with
              | h1 :: h2 :: h3 :: h4 :: r2 =>
                  match hex4_val h1 h2 h3 h4 with
                  | None => None
                  | Some u =>
                      match r2 with
                      | b :: u' :: g1 :: g2 :: g3 :: g4 :: r3 =>
                          if is_high_surrogate u && (b =? 92) && (u' =? 117)
                             && negb (match r3 with [] => true | _ => false end)
                          then
                            match hex4_val g1 g2 g3 g4 with
                            | None => None
                            | Some u2 =>
                                if is_low_surrogate u2 then
                                  match scanstring r3 with
                                  | Some (str, rest) =>
                                      Some (join_surrogates u u2 :: str, rest)
                                  | None => None
                                  end
                                else
                                  match scanstring r2 with
                                  | Some (str, rest) => Some (u :: str, rest)
                                  | None => None
                                  end
                            end
                          else
                            match scanstring r2 with
                            | Some (str, rest) => Some (u :: str, rest)
                            | None => None
                            end
                      | _ =>
                          match scanstring r2 with
                          | Some (str, rest) => Some (u :: str, rest)
                          | None => None
                          end
                      end
                  end
              | _ => None
              end
            else
              match unescape e with
              | Some x =>
                  match scanstring r1 with
                  | Some (str, rest) => Some (x :: str, rest)
                  | None => None
                  end
              | None => None
              end
        end
      else if c <? 32 then None
      else
        match scanstring r with
        | Some (str, rest) => Some (c :: str, rest)
        | None => None
        end
  end.

(** The exponent of a number, when the text goes on with one: [e] or
    [E], a sign that is not the last character, and at least one digit. *)
Definition match_exponent (s : pystr) : option (Z * pystr) :=
  match s with
  | e :: (c :: r1) as r =>
      if (e =? 101) || (e =? 69) then
        let '(neg, r2) :=
          match r1 with
          | _ :: _ => if c =? 45 then (true, r1)
                      else if c =? 43 then (false, r1) else (false, r)
          | [] => (false, r)
          end in
        match span_digits r2 with
        | (d :: ds, rest) =>
            let x := digits_value (d :: ds) in
            Some (if neg then - x else x, rest)
        | ([], _) => None
        end
      else None
  | _ => None
  end.

(** The largest number of digits [int] converts (sys.int_info). *)
Definition int_max_str_digits : Z := 4300.

(** The number whose integer digits [ip] have been read, with the text
    [r2] behind them: a fraction when a point and a digit follow, then an
    exponent. With a fraction or an exponent the number is a [float], the
    correctly rounded value of the text; else it is an [int]. *)
Definition number_of (neg : bool) (ip r2 : pystr) : option (pyval * pystr) :=
  let '(fp, r3) :=
    match r2 with
    | p :: d1 :: r' =>
        if (p =? 46) && is_digit d1 then
          let '(ds, rest) := span_digits r' in (d1 :: ds, rest)
        else ([], r2)
    | _ => ([], r2)
    end in
  match fp, match_exponent r3 with
  | [], None =>
      if int_max_str_digits <? Z.of_nat (length ip) then None
      else
        let n := digits_value ip in
        Some (PInt (if neg then - n else n), r3)
  | _, None =>
      Some (PFloat (Float.of_decimal neg (digits_value (ip ++ fp))
                      (- Z.of_nat (length fp))), r3)
  | _, Some (x, r4) =>
      Some (PFloat (Float.of_decimal neg (digits_value (ip ++ fp))
                      (x - Z.of_nat (length fp))), r4)
  end.

(** [_match_number]: an optional minus sign, then the integer digits: a
    single 0, or a digit from 1 to 9 and the digits behind it. *)
Definition match_number (s : pystr) : option (pyval * pystr) :=
  let '(neg, s1) :=
    match s with
    | c :: r => if c =? 45 then (true, r) else (false, s)
    | [] => (false, s)
    end in
  match s1 with
  | [] => None
  | d :: r1 =>
      if (49 <=? d) && (d <=? 57) then
        let '(ds, r2) := span_digits r1 in number_of neg (d :: ds) r2
      else if d =? 48 then number_of neg [d] r1
      else None
  end.

(** [s] starts with the characters of [word]. *)
Fixpoint starts_with (word : list Z) (s : pystr) : option pystr :=
  match word, s with
  | [], _ => Some s
  | w :: word', c :: r => if c =? w then starts_with word' r else None
  | _ :: _, [] => None
  end.

(** [PyDict_SetItem]: a new key goes to the end, a key that is there
    keeps its place and takes the new value. *)
Fixpoint dict_set (k : pystr) (v : pyval) (d : list (pystr * pyval)) :
  list (pystr * pyval) :=
  match d with
  | [] => [(k, v)]
  | (k', v') :: rest =>
      if str_eqb k' k then (k', v) :: rest else (k', v') :: dict_set k v rest
  end.

(** [scan_once] at the start of [s], with [_parse_array] and
    [_parse_object] from behind the bracket and the white space that
    follows it; [fuel] bounds the calls, and twice the length of the text
    is enough of it. *)
Fixpoint scan_once (fuel : nat) (s : pystr) {struct fuel} : option (pyval * pystr) :=
  match fuel with
  | O => None
  | S fuel' =>
      match s with
      | [] => None
      | c :: r =>
          if c =? 34 then
            match scanstring r with
            | Some (str, rest) => Some (PStr str, rest)
            | None => None
            end
          else if c =? 123 then
            match skip_ws r with
            | c' :: r' =>
                if c' =? 125 then Some (PDict [], r')
                else parse_object fuel' (c' :: r') []
            | [] => None
            end
          else if c =? 91 then
            match skip_ws r with
            | c' :: r' =>
                if c' =? 93 then Some (PList [], r')
                else parse_array fuel' (c' :: r') []
            | [] => None
            end
          else
            let number := match_number s in
            if c =? 110 then
              match starts_with [117; 108; 108] r with
              | Some rest => Some (PNone, rest)
              | None => number
              end
            else if c =? 116 then
              match starts_with [114; 117; 101] r with
              | Some rest => Some (PBool true, rest)
              | None => number
              end
            else if c =? 102 then
              match starts_with [97; 108; 115; 101] r with
              | Some rest => Some (PBool false, rest)
              | None => number
              end
            else if c =? 78 then
              match starts_with [97; 78] r with
              | Some rest => Some (PFloat FNan, rest)
              | None => number
              end
            else if c =? 73 then
              match starts_with [110; 102; 105; 110; 105; 116; 121] r with
              | Some rest => Some (PFloat (FInf false), rest)
              | None => number
              end
            else if c =? 45 then
              match starts_with [73; 110; 102; 105; 110; 105; 116; 121] r with
              | Some rest => Some (PFloat (FInf true), rest)
              | None => number
              end
            else number
      end
  end

with parse_array (fuel : nat) (s : pystr) (acc : list pyval) {struct fuel} :
  option (pyval * pystr) :=
  match fuel with
  | O => None
  | S fuel' =>
      match scan_once fuel' s with
      | None => None
      | Some (v, r) =>
          match skip_ws r with
          | c :: r' =>
              if c =? 93 then Some (PList (rev (v :: acc)), r')
              else if c =? 44 then parse_array fuel' (skip_ws r') (v :: acc)
              else None
          | [] => None
          end
      end
  end

with parse_object (fuel : nat) (s : pystr) (acc : list (pystr * pyval)) {struct fuel} :
  option (pyval * pystr) :=
  match fuel with
  | O => None
  | S fuel' =>
      match s with
      | q :: r0 =>
          if q =? 34 then
            match scanstring r0 with
            | None => None
            | Some (key, r1) =>
                match skip_ws r1 with
                | colon :: r2 =>
                    if colon =? 58 then
                      match scan_once fuel' (skip_ws r2) with
                      | None => None
                      | Some (v, r3) =>
                          let acc' := dict_set key v acc in
                          match skip_ws r3 with
                          | c :: r4 =>
                              if c =? 125 then Some (PDict acc', r4)
                              else if c =? 44 then parse_object fuel' (skip_ws r4) acc'
                              else None
                          | [] => None
                          end
                      end
                    else None
                | [] => None
                end
            end
          else None
      | [] => None
      end
  end.

(** [json.loads(s)] for a [str]: a text that starts with the byte order
    mark is refused, white space around the value is skipped, anything
    else behind the value is an error ("Extra data"). *)
Definition loads (s : pystr) : option pyval :=
  match s with
  | c :: _ => if c =? 65279 then None else
      match scan_once (2 * length s + 2) (skip_ws s) with
      | Some (v, r) =>
          match skip_ws r with
          | [] => Some v
          | _ :: _ => None
          end
      | None => None
      end
  | [] => None
  end.

End Decoder.

(** The code points of a text of one-byte characters. *)
Definition codes (t : list ascii) : pystr :=
  map (fun c => Z.of_N (N_of_ascii c)) t.

(** What follows a value in the text of the encoder, as code points:
    nothing, a comma, or a closing bracket or brace. *)
Definition closing_codes (r : pystr) : Prop :=
  match r with
  | [] => True
  | c :: _ => c = 44 \/ c = 93 \/ c = 125
  end.

(** The numbers above which [int] and [str] refuse to convert: those of
    more than 4300 digits. *)
Definition int_text_limit : Z := 10 ^ Decoder.int_max_str_digits.

(** Every [int] of the value has at most 4300 digits, the most that
    [int] and [str] convert. *)
Fixpoint ints_convertible (v : pyval) : bool :=
  match v with
  | PInt z => Z.abs z <? int_text_limit
  | PList l | PTuple l => forallb ints_convertible l
  | PDict d => forallb (fun kv => ints_convertible (snd kv)) d
  | _ => true
  end.

(** The value the decoder builds from the text of [v]: a tuple comes back
    as a list, and with [sort_keys] the items of every dict come back in
    the order of their keys. *)
Fixpoint decoded (sort_keys : bool) (v : pyval) : pyval :=
  match v with
  | PList l | PTuple l => PList (map (decoded sort_keys) l)
  | PDict d =>
      let items := map (fun kv => (fst kv, decoded sort_keys (snd kv))) d in
      PDict (if sort_keys then Json.sort_items items else items)
  | _ => v
  end.

(** White space as the decoder skips it. *)
Definition blank (t : list ascii) : bool :=
  forallb (fun c => Decoder.is_ws (Z.of_N (N_of_ascii c))) t.

(** The first character of a value is no white space and closes nothing. *)
Definition opens (c : Z) : Prop :=
  Decoder.is_ws c = false /\ c <> 93 /\ c <> 125 /\ c <> 44 /\ c <> 58.

(** ** float arithmetic and the format of the score *)

(** The operations of [train.py] on [float]: IEEE 754 binary64 with
    round-half-even, computed on the exact values. *)
Module FloatArith.

(** The exact value of a finite float, as a signed fraction. *)
Definition ratio_of (neg : bool) (m e : Z) : Z * Z :=
  let s := if neg then - m else m in
  if 0 <=? e then (s * 2 ^ e, 1) else (s, 2 ^ (- e)).

Definition is_neg (f : pyfloat) : bool :=
  match f with
  | FNan => false
  | FInf neg => neg
  | FFin neg _ _ => neg
  end.

Definition opp (f : pyfloat) : pyfloat :=
  match f with
  | FNan => FNan
  | FInf neg => FInf (negb neg)
  | FFin neg m e => FFin (negb neg) m e
  end.

(** [x + y]. An exact zero sum is -0.0 only when both terms are negative. *)
Definition add (x y : pyfloat) : pyfloat :=
  match x, y with
  | FNan, _ | _, FNan => FNan
  | FInf a, FInf b => if Bool.eqb a b then FInf a else FNan
  | FInf a, FFin _ _ _ => FInf a
  | FFin _ _ _, FInf b => FInf b
  | FFin a m1 e1, FFin b m2 e2 =>
      let '(p1, q1) := ratio_of a m1 e1 in
      let '(p2, q2) := ratio_of b m2 e2 in
      let p := p1 * q2 + p2 * q1 in
      if p =? 0 then FFin (a && b) 0 (-1074)
      else Float.of_ratio (p <? 0) (Z.abs p) (q1 * q2)
  end.

(** [x - y]. *)
Definition sub (x y : pyfloat) : pyfloat := add x (opp y).

(** [x * y]. *)
Definition mul (x y : pyfloat) : pyfloat :=
  match x, y with
  | FNan, _ | _, FNan => FNan
  | FInf a, FInf b => FInf (xorb a b)
  | FInf a, FFin b m _ | FFin b m _, FInf a =>
      if m =? 0 then FNan else FInf (xorb a b)
  | FFin a m1 e1, FFin b m2 e2 =>
      if (m1 =? 0) || (m2 =? 0) then FFin (xorb a b) 0 (-1074)
      else
        let '(p, q) := Float.scale2 (m1 * m2) 1 (- (e1 + e2)) in
        Float.of_ratio (xorb a b) p q
  end.

(** The [float] nearest to an [int]; [None] is the OverflowError "int too
    large to convert to float". *)
Definition of_int (z : Z) : option pyfloat :=
  if z =? 0 then Some (FFin false 0 (-1074))
  else
    match Float.of_ratio (z <? 0) (Z.abs z) 1 with
    | FInf _ => None
    | f => Some f
    end.

(** [format(x, ".5f")]: the value rounded half-even to five decimals, in
    positional notation whatever its size. *)
Definition format_5f (f : pyfloat) : list ascii :=
  match f with
  | FNan => chars "nan"
  | FInf neg => Float.sign_text neg ++ chars "inf"
  | FFin neg m e =>
      let '(p, q) := Float.scale2 m 1 (- e) in
      let n := Float.round_half_even (p * 100000) q in
      let frac := Float.digits_of (n mod 100000) in
      Float.sign_text neg ++ Float.digits_of (n / 100000)
        ++ "."%char :: repeat "0"%char (5 - length frac) ++ frac
  end.

End FloatArith.

(** ** train.py *)

Module Train.

(** The exceptions that leave [train]: the file is not text in the
    encoding of the locale, [json.load] refuses the text, [hyperparams] is
    no dict and has no [get], [print] cannot encode the hyperparameters,
    [lr] is no number, or it is an [int] too large for a [float]. *)
Inductive error : Type :=
| UnicodeDecodeError
| ValueError
| UnicodeEncodeError
| AttributeError
| TypeError
| OverflowError.

(** [d.get(key, default)]. *)
Fixpoint dict_get (key : pystr) (d : list (pystr * pyval)) (default : pyval) : pyval :=
  match d with
  | [] => default
  | (k, v) :: rest => if str_eqb k key then v else dict_get key rest default
  end.

(** The operand of an operation with a [float]: a float, or an [int] or
    [bool] converted to one; any other type is a TypeError. *)
Definition to_float (v : pyval) : error + pyfloat :=
  match v with
  | PFloat f => inr f
  | PInt z =>
      match FloatArith.of_int z with
      | Some f => inr f
      | None => inl OverflowError
      end
  | PBool b => inr (if b then FFin false 4503599627370496 (-52)
                    else FFin false 0 (-1074))
  | _ => inl TypeError
  end.

(** The literals 0.9 and 0.001, and the [int] 10 as the [float] it is
    converted to. *)
Definition lit_0_9 : pyfloat := Float.of_decimal false 9 (-1).
Definition lit_0_001 : pyfloat := Float.of_decimal false 1 (-3).
Definition ten : pyfloat := FFin false 5629499534213120 (-49).

(** [0.9 + (lr - 0.001) * 10]. *)
Definition performance_of (lr : pyval) : error + pyfloat :=
  match to_float lr with
  | inl e => inl e
  | inr x =>
      inr (FloatArith.add lit_0_9
             (FloatArith.mul (FloatArith.sub x lit_0_001) ten))
  end.

Definition score_begin : string := "---PERFORMANCE_SCORE---".
Definition score_end : string := "---END_PERFORMANCE_SCORE---".

Section Script.

(** What [f.read()] returns for the bytes of a file opened in text mode,
    [None] when they do not decode. *)
Variable read_text : list byte -> option pystr.
(** The text [print] writes for [{hyperparams}], [None] when the standard
    output cannot encode it. *)
Variable show : pyval -> option string.

(** [train()] in a directory with the files [fs]: the exception that
    leaves it, if any, and the lines printed. [time.sleep] prints and
    changes nothing. *)
Definition train (fs : Os.fs) : option error * list string :=
  let started := ["[TRAIN_TEMPLATE] Starting training..."%string] in
  match Os.fs_read "hyperparameters.json" fs with
  | None =>
      (None,
       started ++ ["[TRAIN_TEMPLATE] Error: hyperparameters.json not found!"%string])
  | Some content =>
      match read_text content with
      | None => (Some UnicodeDecodeError, started)
      | Some text =>
          match Decoder.loads text with
          | None => (Some ValueError, started)
          | Some hyperparams =>
              match show hyperparams with
              | None => (Some UnicodeEncodeError, started)
              | Some shown =>
                  let loaded :=
                    started ++ [("[TRAIN_TEMPLATE] Loaded hyperparameters: " ++ shown)%string] in
                  match hyperparams with
                  | PDict d =>
                      match performance_of (dict_get (str_of "lr") d
                                              (PFloat (FFin false 0 (-1074)))) with
                      | inl e => (Some e, loaded)
                      | inr performance =>
                          (None,
                           loaded ++
                           [ "[TRAIN_TEMPLATE] Training finished."%string;
                             score_begin;
                             string_of_list_ascii (FloatArith.format_5f performance);
                             score_end ])
                      end
                  | _ => (Some AttributeError, loaded)
                  end
              end
          end
      end
  end.

End Script.

End Train.

(** A directory that holds the [hyperparameters.json] of the package
    built for the example hyperparameters. *)
Definition unpacked_example : Os.fs :=
  [ ("hyperparameters.json"%string, encode_utf8 example_hyper_text) ].

(** Bytes read as Latin-1 text, one code point for each byte. *)
Definition read_latin1 (content : list byte) : option pystr :=
  Some (map Sha256.byteZ content).

(* ===================================================================== *)
(** * Part II. Theorems                                                    *)
(* ===================================================================== *)

(** ** Content hasher *)

Section HasherRefinement.

Import Sha256.

Lemma absorb_n_plus (j k : nat) (h : regs) (d : list byte) :
  absorb_n (j + k) h d = absorb_n k (fst (absorb_n j h d)) (snd (absorb_n j h d)).
Proof.
  revert h d. induction j as [|j IH]; intros h d; cbn [absorb_n Nat.add]; [reflexivity|].
  apply IH.
Qed.

Lemma absorb_n_app (k : nat) (h : regs) (A B : list byte) :
  (64 * k <= length A)%nat ->
  absorb_n k h (A ++ B) = (fst (absorb_n k h A), snd (absorb_n k h A) ++ B).
Proof.
  revert h A. induction k as [|k IH]; intros h A Hlen; cbn [absorb_n]; [reflexivity|].
  rewrite firstn_app, skipn_app.
  replace (64 - length A)%nat with 0%nat by lia.
  rewrite firstn_O, app_nil_r, skipn_O.
  apply IH. rewrite length_skipn. lia.
Qed.

Lemma absorb_n_length (k : nat) (h : regs) (d : list byte) :
  length (snd (absorb_n k h d)) = (length d - 64 * k)%nat.
Proof.
  revert h d. induction k as [|k IH]; intros h d; cbn [absorb_n snd]; [lia|].
  rewrite IH, length_skipn. lia.
Qed.

(** Absorbing [A ++ B] is absorbing [A], then what [A] left over followed
    by [B]: the chaining value does not depend on where the input is cut. *)
Lemma absorb_app (h : regs) (A B : list byte) :
  absorb h (A ++ B) = absorb (fst (absorb h A)) (snd (absorb h A) ++ B).
Proof.
  unfold absorb.
  set (qa := Nat.div (length A) 64).
  assert (Hqa : (64 * qa <= length A)%nat)
    by (apply Nat.Div0.mul_div_le).
  assert (Hrem : length (snd (absorb_n qa h A)) = Nat.modulo (length A) 64).
  { rewrite absorb_n_length. pose proof (Nat.div_mod_eq (length A) 64).
    fold qa in H. lia. }
  rewrite !length_app, Hrem.
  replace (Nat.div (length A + length B) 64)
    with (qa + Nat.div (Nat.modulo (length A) 64 + length B) 64)%nat.
  - rewrite absorb_n_plus, absorb_n_app by exact Hqa. reflexivity.
  - pose proof (Nat.div_mod_eq (length A) 64) as E. fold qa in E.
    rewrite E at 2.
    rewrite <- Nat.add_assoc, Nat.mul_comm, Nat.div_add_l by lia.
    reflexivity.
Qed.

Lemma represents_new : represents [] new.
Proof. repeat split. Qed.

Lemma represents_update (M d : list byte) (h : hasher) :
  represents M h -> represents (M ++ d) (update h d).
Proof.
  intros (Hs & Hb & Ht). unfold update.
  rewrite Hs, Hb, <- absorb_app.
  destruct (absorb init_regs (M ++ d)) as [st rest] eqn:E.
  unfold represents. cbn [h_state h_buf h_total fst snd].
  rewrite Ht, length_app, E. repeat split.
Qed.

Lemma represents_digest (M : list byte) (h : hasher) :
  represents M h -> digest h = sha256 M.
Proof.
  intros (Hs & Hb & Ht). unfold digest, sha256.
  rewrite Hs, Hb, Ht, <- absorb_app. reflexivity.
Qed.

Lemma represents_fold (chunks : list (list byte)) (M : list byte) (h : hasher) :
  represents M h -> represents (M ++ concat chunks) (fold_left update chunks h).
Proof.
  revert M h. induction chunks as [|c cs IH]; intros M h Hr; simpl.
  - rewrite app_nil_r. exact Hr.
  - rewrite app_assoc. apply IH, represents_update, Hr.
Qed.

Lemma fh_read_concat (n : nat) (fh : file_handle) :
  fst (fh_read n fh) ++ snd (fh_read n fh) = fh.
Proof. apply firstn_skipn. Qed.

Lemma fh_read_eof (n : nat) (fh : file_handle) :
  (0 < n)%nat -> fst (fh_read n fh) = [] -> fh = [].
Proof.
  intros Hn H. destruct fh as [|x fh]; [reflexivity|].
  destruct n; [lia|discriminate].
Qed.

Lemma represents_read_loop (fh : file_handle) (M : list byte) (h : hasher) :
  represents M h -> represents (M ++ fh) (read_loop h fh).
Proof.
  revert M. funelim (read_loop h fh); intros M Hr; clear Heqcall.
  - rewrite (fh_read_eof _ _ chunk_size_pos e), app_nil_r. exact Hr.
  - rewrite <- (fh_read_concat chunk_size fh) at 1.
    rewrite app_assoc, e. apply H. apply represents_update, Hr.
Qed.

Lemma sha256_of_stream_spec (content : list byte) :
    sha256_of_stream content = hex (sha256 content).
Proof.
    unfold sha256_of_stream, hexdigest.
    rewrite (represents_digest content); [reflexivity|].
    apply (represents_read_loop content []), represents_new.
Qed.

End HasherRefinement.

Lemma sha256_file_run (path : string) (w : world) (content : list byte) :
  Os.fs_read path (files w) = Some content ->
  sha256_file path w = (inr (sha256_of_stream content), w).
Proof. intros H. unfold sha256_file, bind, open_rb, ret. rewrite H. reflexivity. Qed.

Example sha256_abc :
  Sha256.hex (Sha256.sha256 (bytes_of_string "abc")) =
  "ba7816bf8f01cfea414140de5dae2223b00361a396177a9cb410ff61f20015ad"%string.
Proof. vm_compute. reflexivity. Qed.

(** C4. The digest that [sha256_file] computes by reading 8192-byte chunks
    is the SHA-256 digest of the whole content hashed in one step, and
    feeding the same bytes to the hash object cut into chunks in any other
    way gives that same digest. *)
Theorem sha256_file_chunking_independent :
  forall (path : string) (w : world) (content : list byte),
    Os.fs_read path (files w) = Some content ->
    sha256_file path w = (inr (Sha256.hex (Sha256.sha256 content)), w) /\
    forall chunks : list (list byte),
      concat chunks = content ->
      Sha256.hexdigest (fold_left Sha256.update chunks Sha256.new)
      = Sha256.hex (Sha256.sha256 content).
Proof.
  intros path w content H. split.
  - rewrite (sha256_file_run path w content H), sha256_of_stream_spec. reflexivity.
  - intros chunks <-. unfold Sha256.hexdigest.
    rewrite (represents_digest (concat chunks)); [reflexivity|].
    apply (represents_fold chunks []), represents_new.
Qed.

Lemma sha256_file_chunking_independent_witness :
  Os.fs_read "repro.zip" (files hello_world) = Some (bytes_of_string "hello") /\
  sha256_file "repro.zip" hello_world
  = (inr (Sha256.hex (Sha256.sha256 (bytes_of_string "hello"))), hello_world) /\
  forall chunks : list (list byte),
    concat chunks = bytes_of_string "hello" ->
    Sha256.hexdigest (fold_left Sha256.update chunks Sha256.new)
    = Sha256.hex (Sha256.sha256 (bytes_of_string "hello")).
Proof.
  split; [reflexivity|].
  apply (sha256_file_chunking_independent "repro.zip" hello_world). reflexivity.
Defined.

(** C5. [sha256_file] on a file holding the five bytes of "hello". *)
Theorem sha256_file_hello :
  forall (path : string) (w : world),
    Os.fs_read path (files w) = Some (bytes_of_string "hello") ->
    sha256_file path w
    = (inr "2cf24dba5fb0a30e26e83b2ac5b9e29e1b161e5c1fa7425e73043362938b9824"%string, w).
Proof.
  intros path w H. rewrite (sha256_file_run path w _ H).
  assert (E : sha256_of_stream (bytes_of_string "hello")
              = "2cf24dba5fb0a30e26e83b2ac5b9e29e1b161e5c1fa7425e73043362938b9824"%string)
    by (vm_compute; reflexivity).
  rewrite E. reflexivity.
Qed.

Lemma sha256_file_hello_witness :
  Os.fs_read "repro.zip" (files hello_world) = Some (bytes_of_string "hello") /\
  sha256_file "repro.zip" hello_world
  = (inr "2cf24dba5fb0a30e26e83b2ac5b9e29e1b161e5c1fa7425e73043362938b9824"%string,
     hello_world).
Proof.
  split; [reflexivity|].
  apply (sha256_file_hello "repro.zip" hello_world). reflexivity.
Defined.

Lemma hex_digit_lower (n : Z) : is_lower_hex (Sha256.hex_digit n) = true.
Proof.
  unfold Sha256.hex_digit.
  assert (Hb : (Z.to_nat (Z.land n 15) < 16)%nat).
  { change 15 with (Z.ones 4). rewrite Z.land_ones by lia.
    pose proof (Z.mod_pos_bound n (2 ^ 4) ltac:(lia)). lia. }
  revert Hb. generalize (Z.to_nat (Z.land n 15)). intros k Hk.
  do 16 (destruct k as [|k]; [reflexivity|]). lia.
Qed.

Lemma length_string_of_list_ascii (l : list ascii) :
  String.length (string_of_list_ascii l) = length l.
Proof. induction l as [|c l IH]; simpl; congruence. Qed.

Lemma hex_lower (bs : list byte) :
  Forall (fun c => is_lower_hex c = true) (list_ascii_of_string (Sha256.hex bs)).
Proof.
  unfold Sha256.hex. rewrite list_ascii_of_string_of_list_ascii.
  induction bs as [|b bs IH]; simpl; [constructor|].
  repeat constructor; try apply hex_digit_lower. exact IH.
Qed.

Lemma hex_length (bs : list byte) :
  String.length (Sha256.hex bs) = (2 * length bs)%nat.
Proof.
  unfold Sha256.hex. rewrite length_string_of_list_ascii.
  induction bs as [|b bs IH]; simpl in *; lia.
Qed.

(** C9. The value [sha256_file] returns, which [submit_example] stores as
    [artifact_hash], is 64 characters long and every character is a
    lowercase hexadecimal digit. *)
Theorem sha256_file_hex64 :
  forall (path : string) (w w' : world) (art_hash : string),
    sha256_file path w = (inr art_hash, w') ->
    String.length art_hash = 64%nat /\
    Forall (fun c => is_lower_hex c = true) (list_ascii_of_string art_hash).
Proof.
  intros path w w' art_hash. unfold sha256_file, bind, open_rb, ret.
  destruct (Os.fs_read path (files w)) as [content|]; [|discriminate].
  intros [= <- _]. unfold sha256_of_stream, Sha256.hexdigest. split.
  - rewrite hex_length. reflexivity.
  - apply hex_lower.
Qed.

Lemma sha256_file_hex64_witness :
  exists art_hash : string,
    sha256_file "repro.zip" hello_world = (inr art_hash, hello_world) /\
    String.length art_hash = 64%nat /\
    Forall (fun c => is_lower_hex c = true) (list_ascii_of_string art_hash).
Proof.
  exists (sha256_of_stream (bytes_of_string "hello")).
  split; [reflexivity|].
  apply (sha256_file_hex64 "repro.zip" hello_world hello_world). reflexivity.
Defined.

(** ** Structural induction on Python values *)

Lemma pyval_nested_ind (P : pyval -> Prop) :
  P PNone ->
  (forall b, P (PBool b)) ->
  (forall z, P (PInt z)) ->
  (forall f, P (PFloat f)) ->
  (forall s, P (PStr s)) ->
  (forall l, Forall P l -> P (PList l)) ->
  (forall l, Forall P l -> P (PTuple l)) ->
  (forall d, Forall (fun kv => P (snd kv)) d -> P (PDict d)) ->
  (forall n, P (PObject n)) ->
  forall v, P v.
Proof.
  intros HN HB HI HF HS HL HT HD HO.
  fix IH 1. intros v. destruct v as [|b|z|f|s|l|l|d|n].
  - exact HN.
  - apply HB.
  - apply HI.
  - apply HF.
  - apply HS.
  - apply HL. induction l as [|x l IHl]; constructor; [apply IH | exact IHl].
  - apply HT. induction l as [|x l IHl]; constructor; [apply IH | exact IHl].
  - apply HD. induction d as [|[k x] d IHd]; constructor; [apply IH | exact IHd].
  - apply HO.
Qed.

(** ** The encoder raises exactly on values that are not serializable *)

Section EncoderTotality.

Variable sort_keys : bool.
Variables isep ksep : list ascii.

Lemma all_some_is_some {A : Type} (l : list (option A)) :
  (exists r, Json.all_some l = Some r) <-> Forall (fun o => exists a, o = Some a) l.
Proof.
  induction l as [|o l IH]; simpl.
  - split; [constructor | eauto].
  - destruct o as [a|].
    + split.
      * intros [r Hr]. destruct (Json.all_some l) as [r'|]; [|discriminate].
        constructor; [eauto | apply IH; eauto].
      * intros H. inversion H as [|? ? _ Hl]; subst.
        apply IH in Hl. destruct Hl as [r' ->]. eauto.
    + split; [intros [r Hr]; discriminate|].
      intros H. inversion H as [|? ? [a Ha] _]. discriminate.
Qed.

Lemma encode_is_some (v : pyval) :
  (exists t, Json.encode sort_keys isep ksep v = Some t) <-> serializable v = true.
Proof.
  induction v as [|b|z|f|s|l IH|l IH|d IH|n] using pyval_nested_ind;
    try solve [cbn; split; [reflexivity | eauto]].
  - destruct b; cbn; split; eauto.
  - cbn [Json.encode serializable].
    transitivity (exists r, Json.all_some (map (Json.encode sort_keys isep ksep) l) = Some r).
    { destruct (Json.all_some _); split; intros [x Hx]; eauto; discriminate. }
    rewrite all_some_is_some, forallb_forall, Forall_map, !Forall_forall.
    rewrite Forall_forall in IH.
    split; intros H x Hx; apply (IH x Hx), H, Hx.
  - cbn [Json.encode serializable].
    transitivity (exists r, Json.all_some (map (Json.encode sort_keys isep ksep) l) = Some r).
    { destruct (Json.all_some _); split; intros [x Hx]; eauto; discriminate. }
    rewrite all_some_is_some, forallb_forall, Forall_map, !Forall_forall.
    rewrite Forall_forall in IH.
    split; intros H x Hx; apply (IH x Hx), H, Hx.
  - cbn [Json.encode serializable].
    match goal with |- (exists t, match Json.all_some ?m with _ => _ end = _) <-> _ =>
      transitivity (exists r, Json.all_some m = Some r) end.
    { destruct (Json.all_some _); split; intros [x Hx]; eauto; discriminate. }
    rewrite all_some_is_some, forallb_forall, Forall_map, !Forall_forall.
    rewrite Forall_forall in IH.
    split; intros H x Hx.
    + apply (IH x Hx). destruct (H x Hx) as [a Ha].
      destruct (Json.encode sort_keys isep ksep (snd x)); [eauto | discriminate].
    + destruct (proj2 (IH x Hx) (H x Hx)) as [t Ht]. rewrite Ht. eauto.
  - cbn. split; [intros [t Ht]|]; discriminate.
Qed.

Lemma encode_not_serializable (v : pyval) :
  serializable v = false -> Json.encode sort_keys isep ksep v = None.
Proof.
  intros H. destruct (Json.encode sort_keys isep ksep v) as [t|] eqn:E; [|reflexivity].
  assert (serializable v = true) by (apply encode_is_some; eauto). congruence.
Qed.

Lemma encode_serializable (v : pyval) :
  serializable v = true -> exists t, Json.encode sort_keys isep ksep v = Some t.
Proof. apply encode_is_some. Qed.

End EncoderTotality.

(** ** The pipeline *)

Lemma dumps_example_hyper :
  Json.dumps (PDict example_hyper) = Some example_hyper_text.
Proof. vm_compute. reflexivity. Qed.

Lemma serializable_payload (c : claim) :
  serializable (payload_of c) = serializable (PDict (hyperparameters c)).
Proof. cbn. rewrite andb_true_r. reflexivity. Qed.

Lemma canonical_bytes_serializable (v : pyval) :
  serializable v = true -> exists m, canonical_bytes v = Some m.
Proof.
  intros H. unfold canonical_bytes, Json.dumps_canonical.
  destruct (encode_serializable true (chars ",") (chars ":") v H) as [t ->].
  cbn. eauto.
Qed.

Lemma dumps_serializable (v : pyval) :
  serializable v = true -> exists t, Json.dumps v = Some t.
Proof.
  intros H. unfold Json.dumps.
  destruct (encode_serializable false (chars ", ") (chars ": ") v H) as [t ->].
  cbn. eauto.
Qed.

Lemma dumps_not_serializable (v : pyval) :
  serializable v = false -> Json.dumps v = None.
Proof.
  intros H. unfold Json.dumps. rewrite encode_not_serializable by exact H.
  reflexivity.
Qed.

Section PipelineFacts.

Variable zip_archive : list (string * list byte) -> list byte.
Variable ed25519_sign : list byte -> list byte -> list byte.
Variable sk : list byte.

(** C8. When the hyperparameters are not JSON-serializable,
    [submit_example] raises a TypeError and the list of requests sent is
    what it was: nothing is posted. *)
Theorem unserializable_hyperparameters_abort :
  forall (hyper : list (pystr * pyval)) (now : Z) (random8 : list byte) (w : world),
    serializable (PDict hyper) = false ->
    exists msg w',
      submit_example_with zip_archive ed25519_sign sk hyper now random8 w
        = (inl (TypeError msg), w') /\
      posts w' = posts w.
Proof.
  intros hyper now random8 w H.
  unfold submit_example_with, build_repro_package, json_dump_to, bind.
  rewrite (dumps_not_serializable _ H).
  unfold write_file, raise. cbn [posts]. eauto.
Qed.

End PipelineFacts.

Lemma unserializable_hyperparameters_abort_witness :
  exists msg w',
    submit_example_with (fun _ => []) (fun _ _ => []) []
      [(str_of "batch", PObject "set")] 0 [] (World [] [])
      = (inl (TypeError msg), w') /\ posts w' = posts (World [] []).
Proof.
  apply (unserializable_hyperparameters_abort (fun _ => []) (fun _ _ => []) []).
  reflexivity.
Defined.

Section FailedCopy.

Variable zip_archive : list (string * list byte) -> list byte.
Variable ed25519_sign : list byte -> list byte -> list byte.
Variable sk : list byte.

Lemma build_without_train :
  build_repro_package zip_archive (PDict example_hyper) "repro.zip"
                      world_without_train
  = (inr tt,
     World (files world_without_train
              ++ [ ("pkgtmp/hyperparameters.json"%string,
                    encode_utf8 example_hyper_text);
                   ("repro.zip"%string,
                    zip_archive [ ("hyperparameters.json"%string,
                                   encode_utf8 example_hyper_text) ]) ])
           []).
Proof.
  unfold build_repro_package, json_dump_to, bind.
  rewrite dumps_example_hyper.
  reflexivity.
Qed.

(** C7, the code at the failing input. In a checkout without
    [python-client/train.py] the copy command of [build_repro_package]
    exits with a non-zero status, and [submit_example] still returns
    normally after posting a submission whose archive holds
    [hyperparameters.json] alone. *)
Theorem failed_copy_is_swallowed :
  forall (now : Z) (random8 : list byte),
    os_system_cp "python-client/train.py" "pkgtmp/train.py" world_without_train
      = (inr 256, world_without_train) /\
    exists text signature files',
      submit_example zip_archive ed25519_sign sk now random8 world_without_train
      = (inr tt,
         World files'
           [ Request "http://localhost:8080/submit" text signature "repro.zip"
               (zip_archive [ ("hyperparameters.json"%string,
                               encode_utf8 example_hyper_text) ]) ]).
Proof.
  intros now random8. split; [reflexivity|].
  unfold submit_example, submit_example_with.
  unfold bind at 1. rewrite build_without_train.
  unfold bind at 1.
  change (sha256_file "repro.zip"%string _) with
    (@inr exn string
       (sha256_of_stream (zip_archive [ ("hyperparameters.json"%string,
                                    encode_utf8 example_hyper_text) ])),
     World (files world_without_train
              ++ [ ("pkgtmp/hyperparameters.json"%string,
                    encode_utf8 example_hyper_text);
                   ("repro.zip"%string,
                    zip_archive [ ("hyperparameters.json"%string,
                                   encode_utf8 example_hyper_text) ]) ])
           []).
  cbv beta iota.
  set (payload := payload_of _).
  assert (Hs : serializable payload = true).
  { unfold payload. rewrite serializable_payload. reflexivity. }
  destruct (canonical_bytes_serializable payload Hs) as [m Hm].
  destruct (dumps_serializable payload Hs) as [t Ht].
  unfold bind, sign_payload_step, sign_payload, json_dumps_step.
  rewrite Hm, Ht. do 3 eexists. reflexivity.
Qed.

End FailedCopy.

(** ** The payload as sent and the bytes that were signed *)

Lemma third_byte (a b c : ascii) (s : string) :
  nth 2 (list_byte_of_string (String a (String b (String c s)))) x00
  = byte_of_ascii c.
Proof. reflexivity. Qed.

(** X18. For a Claim payload, the text sent in the [payload] part
    ([json.dumps] with its defaults) is never the byte sequence that was
    signed (sorted keys, compact separators). *)
Theorem wire_payload_is_not_canonical :
  forall (c : claim) (sent signed : list byte),
    wire_payload (payload_of c) = Some sent ->
    canonical_bytes (payload_of c) = Some signed ->
    sent <> signed.
Proof.
  intros c sent signed.
  unfold wire_payload, canonical_bytes, Json.dumps, Json.dumps_canonical, payload_of.
  cbn [Json.encode map snd fst Json.all_some].
  destruct (Json.all_some _) as [hyp0|]; [|discriminate].
  destruct (Json.all_some _) as [hyp1|]; [|discriminate].
  cbn [option_map]. intros Hs Hc. injection Hs as <-. injection Hc as <-.
  unfold encode_utf8. intros H.
  apply (f_equal (fun l => nth 2 l x00)) in H.
  rewrite !third_byte in H. vm_compute in H. discriminate.
Qed.

Lemma wire_payload_is_not_canonical_witness :
  exists sent signed : list byte,
    wire_payload (payload_of example_claim) = Some sent /\
    canonical_bytes (payload_of example_claim) = Some signed /\
    sent <> signed.
Proof.
  destruct (wire_payload (payload_of example_claim)) as [sent|] eqn:Hs;
    [|vm_compute in Hs; discriminate].
  destruct (canonical_bytes (payload_of example_claim)) as [signed|] eqn:Hc;
    [|vm_compute in Hc; discriminate].
  exists sent, signed. split; [reflexivity|]. split; [reflexivity|].
  exact (wire_payload_is_not_canonical example_claim sent signed Hs Hc).
Defined.

(** ** Key order and the sort of the items *)

Section KeyOrder.

Lemma str_leb_refl (a : pystr) : Json.str_leb a a = true.
Proof.
  induction a as [|x a IH]; simpl; [reflexivity|].
  rewrite Z.ltb_irrefl. exact IH.
Qed.

Lemma str_leb_total (a b : pystr) :
  Json.str_leb a b = true \/ Json.str_leb b a = true.
Proof.
  revert b. induction a as [|x a IH]; intros [|y b]; simpl; auto.
  destruct (Z.ltb_spec x y), (Z.ltb_spec y x); auto; lia.
Qed.

Lemma str_leb_antisym (a b : pystr) :
  Json.str_leb a b = true -> Json.str_leb b a = true -> a = b.
Proof.
  revert b. induction a as [|x a IH]; intros [|y b]; simpl; try discriminate; auto.
  destruct (Z.ltb_spec x y), (Z.ltb_spec y x); try discriminate; try lia.
  intros H1 H2. assert (x = y) by lia. subst. f_equal. auto.
Qed.

Lemma str_leb_trans (a b c : pystr) :
  Json.str_leb a b = true -> Json.str_leb b c = true -> Json.str_leb a c = true.
Proof.
  revert b c. induction a as [|x a IH]; intros [|y b] [|z c]; simpl;
    try discriminate; auto.
  destruct (Z.ltb_spec x y), (Z.ltb_spec y x), (Z.ltb_spec y z), (Z.ltb_spec z y),
    (Z.ltb_spec x z), (Z.ltb_spec z x); try discriminate; try lia; auto.
  apply IH.
Qed.

Context {V : Type}.

Lemma insert_item_perm (kv : pystr * V) (l : list (pystr * V)) :
  Permutation (Json.insert_item kv l) (kv :: l).
Proof.
  induction l as [|x l IH]; simpl; [reflexivity|].
  destruct (Json.str_leb (fst kv) (fst x)); [reflexivity|].
  rewrite IH. apply perm_swap.
Qed.

Lemma sort_items_perm (l : list (pystr * V)) :
  Permutation (Json.sort_items l) l.
Proof.
  induction l as [|x l IH]; simpl; [reflexivity|].
  rewrite insert_item_perm. constructor. exact IH.
Qed.

Lemma insert_item_sorted (kv : pystr * V) (l : list (pystr * V)) :
  StronglySorted key_le l -> StronglySorted key_le (Json.insert_item kv l).
Proof.
  induction l as [|x l IH]; intros Hs; simpl.
  - repeat constructor.
  - inversion Hs as [|? ? Hl Hx]; subst.
    destruct (Json.str_leb (fst kv) (fst x)) eqn:E.
    + constructor; [exact Hs|]. constructor; [exact E|].
      rewrite Forall_forall in *. intros y Hy.
      eapply str_leb_trans; [exact E | apply Hx, Hy].
    + constructor; [apply IH, Hl|].
      rewrite (Forall_forall) in *. intros y Hy.
      apply (Permutation_in _ (insert_item_perm kv l)) in Hy.
      destruct Hy as [<-|Hy]; [|apply Hx, Hy].
      destruct (str_leb_total (fst kv) (fst x)) as [H|H]; [congruence|exact H].
Qed.

Lemma sort_items_sorted (l : list (pystr * V)) :
  StronglySorted key_le (Json.sort_items l).
Proof.
  induction l as [|x l IH]; simpl; [constructor|].
  apply insert_item_sorted, IH.
Qed.

Lemma NoDup_keys_inj (l : list (pystr * V)) (x y : pystr * V) :
  NoDup (map fst l) -> In x l -> In y l -> fst x = fst y -> x = y.
Proof.
  induction l as [|z l IH]; simpl; [tauto|].
  intros Hnd Hx Hy E. inversion Hnd as [|? ? Hz Hl]; subst.
  destruct Hx as [->|Hx], Hy as [->|Hy]; auto.
  - exfalso. apply Hz. rewrite E. apply in_map, Hy.
  - exfalso. apply Hz. rewrite <- E. apply in_map, Hx.
Qed.

(** Two key-sorted lists with the same items and distinct keys are equal. *)
Lemma sorted_perm_eq (l1 l2 : list (pystr * V)) :
  StronglySorted key_le l1 -> StronglySorted key_le l2 ->
  NoDup (map fst l1) -> Permutation l1 l2 -> l1 = l2.
Proof.
  revert l2. induction l1 as [|a l1 IH]; intros l2 S1 S2 Hnd Hp.
  - apply Permutation_nil in Hp. congruence.
  - destruct l2 as [|b l2]; [apply Permutation_sym, Permutation_nil in Hp; discriminate|].
    inversion S1 as [|? ? S1' Ha]; inversion S2 as [|? ? S2' Hb]; subst.
    assert (E : a = b).
    { assert (Ia : In a (b :: l2)) by (eapply Permutation_in; [exact Hp | now left]).
      assert (Ib : In b (a :: l1))
        by (eapply Permutation_in; [apply Permutation_sym, Hp | now left]).
      destruct Ia as [->|Ia]; [reflexivity|].
      destruct Ib as [->|Ib]; [reflexivity|].
      apply (NoDup_keys_inj (a :: l1)); [exact Hnd | now left | now right |].
      rewrite Forall_forall in Ha, Hb.
      apply str_leb_antisym; [apply (Ha b Ib) | apply (Hb a Ia)]. }
    subst b. f_equal. apply IH; auto.
    + inversion Hnd; assumption.
    + eapply Permutation_cons_inv, Hp.
Qed.

Lemma sort_items_perm_eq (l1 l2 : list (pystr * V)) :
  NoDup (map fst l1) -> Permutation l1 l2 ->
  Json.sort_items l1 = Json.sort_items l2.
Proof.
  intros Hnd Hp. apply sorted_perm_eq; try apply sort_items_sorted.
  - eapply Permutation_NoDup; [|exact Hnd].
    apply Permutation_map, Permutation_sym, sort_items_perm.
  - rewrite !sort_items_perm. exact Hp.
Qed.

End KeyOrder.

(** ** Determinism of the canonical serialization *)

Section Determinism.

Variables isep ksep : list ascii.

Let enc := Json.encode true isep ksep.
Let enc_kv (kv : pystr * pyval) : option (pystr * list ascii) :=
  match enc (snd kv) with
  | Some t => Some (fst kv, t)
  | None => None
  end.

Lemma all_some_perm {A : Type} (l l' : list (option A)) :
  Permutation l l' ->
  match Json.all_some l, Json.all_some l' with
  | Some r, Some r' => Permutation r r'
  | None, None => True
  | _, _ => False
  end.
Proof.
  induction 1 as [|o l l' Hp IH|o1 o2 l|l1 l2 l3 H12 IH12 H23 IH23]; simpl.
  - constructor.
  - destruct o; [|exact I].
    destruct (Json.all_some l), (Json.all_some l'); try contradiction; auto.
  - destruct o1, o2, (Json.all_some l); auto using perm_swap.
  - destruct (Json.all_some l1), (Json.all_some l2), (Json.all_some l3);
      try contradiction; auto.
    eapply Permutation_trans; eassumption.
Qed.

Lemma all_some_keys (d : list (pystr * pyval)) (items : list (pystr * list ascii)) :
  Json.all_some (map enc_kv d) = Some items -> map fst items = map fst d.
Proof.
  revert items. induction d as [|kv d IH]; intros items; simpl.
  - intros [= <-]. reflexivity.
  - unfold enc_kv at 1. destruct (enc (snd kv)) as [t|]; [|discriminate].
    destruct (Json.all_some (map enc_kv d)) as [r|]; [|discriminate].
    intros [= <-]. simpl. f_equal. apply IH. reflexivity.
Qed.

Lemma encode_reordered (v v' : pyval) :
  reordered v v' -> enc v = enc v'.
Proof.
  revert v'.
  induction v as [|b|z|f|s|l IH|l IH|d IH|n] using pyval_nested_ind;
    intros v' Hr; inversion Hr as [|l0 l' Hl|l0 l' Hl|d1 d0 d' Hnd Hd Hp]; subst;
    try reflexivity.
  - unfold enc. cbn [Json.encode]. fold enc.
    replace (map enc l') with (map enc l); [reflexivity|].
    clear Hr. revert IH.
    induction Hl as [|x x' l l' Hx Hl IHl]; intros IH; [reflexivity|].
    inversion IH; subst. simpl. f_equal; auto.
  - unfold enc. cbn [Json.encode]. fold enc.
    replace (map enc l') with (map enc l); [reflexivity|].
    clear Hr. revert IH.
    induction Hl as [|x x' l l' Hx Hl IHl]; intros IH; [reflexivity|].
    inversion IH; subst. simpl. f_equal; auto.
  - unfold enc. cbn [Json.encode]. fold enc. fold enc_kv.
    assert (E : map enc_kv d = map enc_kv d0).
    { clear Hnd Hp Hr. revert IH.
      induction Hd as [|x x' d d0 [Hk Hx] Hd IHd]; intros IH; [reflexivity|].
      inversion IH as [|? ? IHx IHrest]; subst. simpl. f_equal; [|auto].
      unfold enc_kv. rewrite Hk, (IHx _ Hx). reflexivity. }
    rewrite E.
    pose proof (all_some_perm _ _ (Permutation_map enc_kv Hp)) as Hperm.
    pose proof (all_some_keys d0) as Hk0.
    destruct (Json.all_some (map enc_kv d0)) as [items0|],
             (Json.all_some (map enc_kv d')) as [items'|];
      try contradiction; [|reflexivity].
    rewrite (sort_items_perm_eq items0 items'); [reflexivity| |exact Hperm].
    rewrite (Hk0 _ eq_refl).
    replace (map fst d0) with (map fst d); [exact Hnd|].
    clear -Hd. induction Hd as [|x x' d d0 [Hk _] _ IHd]; simpl; congruence.
Qed.

End Determinism.

(** C1. The canonical serialization that [sign_payload] signs is a function
    of the field values alone: whatever the order in which the keys of the
    payload and of the nested hyperparameters were inserted, the bytes are
    the same, and so is what [sign_payload] returns. *)
Theorem canonical_bytes_insertion_order :
  forall payload payload' : pyval,
    reordered payload payload' ->
    canonical_bytes payload = canonical_bytes payload' /\
    forall (ed25519_sign : list byte -> list byte -> list byte) (sk : list byte),
      sign_payload ed25519_sign sk payload = sign_payload ed25519_sign sk payload'.
Proof.
  intros payload payload' H.
  assert (E : canonical_bytes payload = canonical_bytes payload').
  { unfold canonical_bytes, Json.dumps_canonical.
    rewrite (encode_reordered (chars ",") (chars ":") _ _ H). reflexivity. }
  split; [exact E|]. intros sign sk. unfold sign_payload. rewrite E. reflexivity.
Qed.

Ltac distinct_keys :=
  repeat (constructor; [simpl; intuition discriminate|]); constructor.

Lemma canonical_bytes_insertion_order_witness :
  reordered (payload_of example_claim) example_payload_reordered /\
  canonical_bytes (payload_of example_claim)
  = canonical_bytes example_payload_reordered /\
  forall (ed25519_sign : list byte -> list byte -> list byte) (sk : list byte),
    sign_payload ed25519_sign sk (payload_of example_claim)
    = sign_payload ed25519_sign sk example_payload_reordered.
Proof.
  assert (H : reordered (payload_of example_claim) example_payload_reordered).
  { apply (reordered_dict _ example_items_reordered).
    - distinct_keys.
    - repeat (constructor; [split; [reflexivity|]; try apply reordered_same|]);
        [|constructor].
      apply (reordered_dict _ example_hyper).
      + distinct_keys.
      + repeat (constructor; [split; [reflexivity | apply reordered_same]|]).
        constructor.
      + apply Permutation_rev.
    - apply Permutation_rev. }
  split; [exact H|].
  apply canonical_bytes_insertion_order, H.
Defined.

Example canonical_example_claim :
  Json.dumps_canonical (payload_of example_claim) =
  Some (Json.dq ("{'artifact_hash':'2cf24dba5fb0a30e26e83b2ac5b9e29e1b161e5c1fa7425e73043362938b9824',"
     ++ "'hyperparameters':{'activation':'relu','layers':[128,64],'lr':0.001},"
     ++ "'miner_id':1,'nonce':7,'performance':0.92,'task_id':'t1','timestamp':1700000000}")).
Proof. vm_compute. reflexivity. Qed.

(** ** Number text *)

Section NumberText.

Lemma string_of_uint_digits (u : Decimal.uint) :
  forallb is_digit (chars (DecimalString.NilEmpty.string_of_uint u)) = true.
Proof. induction u; simpl; auto. Qed.

Lemma nilzero_uint_digits (u : Decimal.uint) :
  forallb is_digit (chars (DecimalString.NilZero.string_of_uint u)) = true.
Proof.
  destruct u; try reflexivity;
    apply (string_of_uint_digits (_ u)).
Qed.

Lemma digits_of_digits (n : Z) : forallb is_digit (Float.digits_of n) = true.
Proof. apply nilzero_uint_digits. Qed.

Lemma forallb_rev {A : Type} (f : A -> bool) (l : list A) :
  forallb f (rev l) = forallb f l.
Proof.
  induction l as [|x l IH]; simpl; [reflexivity|].
  rewrite forallb_app, IH. simpl. rewrite andb_true_r. apply andb_comm.
Qed.

Lemma strip_zeros_rev_forallb (f : ascii -> bool) (l : list ascii) :
  forallb f l = true -> forallb f (Float.strip_zeros_rev l) = true.
Proof.
  induction l as [|c l IH]; simpl; [auto|].
  intros H. apply andb_prop in H as [Hc Hl].
  destruct c as [[] [] [] [] [] [] [] []]; simpl; rewrite ?Hc, ?Hl; auto.
Qed.

Lemma strip_trailing_zeros_digits (l : list ascii) :
  forallb is_digit l = true -> forallb is_digit (Float.strip_trailing_zeros l) = true.
Proof.
  intros H. unfold Float.strip_trailing_zeros.
  rewrite forallb_rev. apply strip_zeros_rev_forallb. rewrite forallb_rev. exact H.
Qed.

Lemma shortest_digits_digits (m e : Z) :
  forallb is_digit (fst (Float.shortest_digits m e)) = true.
Proof.
  unfold Float.shortest_digits.
  destruct (m <=? 0); [reflexivity|].
  destruct (Float.scale2 m 1 (- e)) as [p q].
  destruct (Float.shortest_from _ _ _ _ _ _ _) as [c k]. cbn [fst].
  apply strip_trailing_zeros_digits, digits_of_digits.
Qed.

Lemma forallb_weaken {A : Type} (f g : A -> bool) (l : list A) :
  (forall x, f x = true -> g x = true) ->
  forallb f l = true -> forallb g l = true.
Proof.
  intros Hfg. rewrite !forallb_forall. auto.
Qed.

Lemma forallb_repeat {A : Type} (f : A -> bool) (x : A) (n : nat) :
  f x = true -> forallb f (repeat x n) = true.
Proof. intros H. induction n; simpl; [reflexivity|]. rewrite H. exact IHn. Qed.

Lemma forallb_firstn_skipn {A : Type} (f : A -> bool) (n : nat) (l : list A) :
  forallb f l = true ->
  forallb f (firstn n l) = true /\ forallb f (skipn n l) = true.
Proof.
  intros H. rewrite <- (firstn_skipn n l), forallb_app in H.
  apply andb_prop in H. exact H.
Qed.

Lemma forallb_firstn {A : Type} (f : A -> bool) (n : nat) (l : list A) :
  forallb f l = true -> forallb f (firstn n l) = true.
Proof. intros H. apply (forallb_firstn_skipn f n l H). Qed.

Lemma forallb_skipn {A : Type} (f : A -> bool) (n : nat) (l : list A) :
  forallb f l = true -> forallb f (skipn n l) = true.
Proof. intros H. apply (forallb_firstn_skipn f n l H). Qed.

Lemma digit_positional (c : ascii) : is_digit c = true -> positional_char c = true.
Proof. unfold positional_char. intros ->. reflexivity. Qed.

Lemma positional_scientific (c : ascii) :
  positional_char c = true -> scientific_char c = true.
Proof. unfold scientific_char. intros ->. reflexivity. Qed.

Lemma format_repr_positional (ds : list ascii) (decpt : Z) :
  forallb is_digit ds = true -> -4 < decpt <= 16 ->
  positional (Float.format_repr ds decpt) = true.
Proof.
  intros Hd Hr. unfold Float.format_repr, positional.
  assert (Hp : forallb positional_char ds = true)
    by (eapply forallb_weaken; [apply digit_positional | exact Hd]).
  destruct (Z.leb_spec decpt (-4)); [lia|].
  destruct (Z.ltb_spec 16 decpt); [lia|]. cbn [orb].
  destruct (decpt <=? 0).
  - cbn [chars list_ascii_of_string app forallb]. rewrite forallb_app, Hp.
    rewrite forallb_repeat by reflexivity. reflexivity.
  - destruct (Z.of_nat (length ds) <=? decpt).
    + rewrite !forallb_app, Hp, forallb_repeat by reflexivity. reflexivity.
    + rewrite forallb_app. cbn [forallb].
      rewrite forallb_firstn, forallb_skipn by exact Hp. reflexivity.
Qed.

Lemma exponent_text_scientific (x : Z) :
  forallb scientific_char (Float.exponent_text x) = true.
Proof.
  unfold Float.exponent_text. cbn [forallb].
  rewrite forallb_app.
  assert (forallb scientific_char (Float.digits_of (Z.abs x)) = true) as ->.
  { eapply forallb_weaken; [|apply digits_of_digits].
    intros c Hc. apply positional_scientific, digit_positional, Hc. }
  destruct (x <? 0), (Z.abs x <? 10); reflexivity.
Qed.

Lemma format_repr_scientific (ds : list ascii) (decpt : Z) :
  forallb is_digit ds = true ->
  forallb scientific_char (Float.format_repr ds decpt) = true.
Proof.
  intros Hd.
  assert (Hs : forallb scientific_char ds = true).
  { eapply forallb_weaken; [|exact Hd].
    intros c Hc. apply positional_scientific, digit_positional, Hc. }
  unfold Float.format_repr.
  destruct ((decpt <=? -4) || (16 <? decpt)).
  - destruct ds as [|d [|d' rest]]; [reflexivity| |].
    + cbn [forallb] in *. apply andb_prop in Hs as [-> _].
      rewrite exponent_text_scientific. reflexivity.
    + cbn [forallb] in Hs. apply andb_prop in Hs as [Hs1 Hs2].
      cbn [forallb]. rewrite forallb_app. cbn [forallb].
      rewrite Hs1, Hs2, exponent_text_scientific. reflexivity.
  - destruct (decpt <=? 0).
    + cbn [chars list_ascii_of_string app forallb]. rewrite forallb_app, Hs.
      rewrite forallb_repeat by reflexivity. reflexivity.
    + destruct (Z.of_nat (length ds) <=? decpt).
      * rewrite !forallb_app, Hs, forallb_repeat by reflexivity. reflexivity.
      * rewrite forallb_app. cbn [forallb].
        rewrite forallb_firstn, forallb_skipn by exact Hs. reflexivity.
Qed.

Lemma int_repr_positional (z : Z) : positional (Json.int_repr z) = true.
Proof.
  unfold Json.int_repr, positional, DecimalString.NilZero.string_of_int.
  destruct (Z.to_int z) as [u|u].
  - eapply forallb_weaken; [apply digit_positional | apply nilzero_uint_digits].
  - cbn [chars list_ascii_of_string forallb]. fold (chars (DecimalString.NilZero.string_of_uint u)).
    rewrite (forallb_weaken _ _ _ digit_positional (nilzero_uint_digits u)).
    reflexivity.
Qed.

Lemma floatstr_finite_scientific (neg : bool) (m e : Z) :
  forallb scientific_char (Json.floatstr (FFin neg m e)) = true.
Proof.
  unfold Json.floatstr, Float.repr.
  pose proof (shortest_digits_digits m e) as Hd.
  destruct (Float.shortest_digits m e) as [ds decpt]. cbn [fst] in *.
  rewrite forallb_app, format_repr_scientific by assumption.
  destruct neg; reflexivity.
Qed.

End NumberText.

(** ** Injectivity of the canonical serialization *)

Section SpanOfText.

Variable P : ascii -> bool.

(** A run of [P]-characters followed by something that is not one is cut
    in one way only. *)
Lemma span_unique (a b r r' : list ascii) :
  forallb P a = true -> forallb P b = true -> stops P r -> stops P r' ->
  a ++ r = b ++ r' -> a = b /\ r = r'.
Proof.
  revert b. induction a as [|x a IH]; intros [|y b] Ha Hb Hr Hr' E; simpl in *.
  - auto.
  - subst r. simpl in Hr. apply andb_prop in Hb as [Hy _]. congruence.
  - subst r'. simpl in Hr'. apply andb_prop in Ha as [Hx _]. congruence.
  - injection E as -> E. apply andb_prop in Ha as [_ Ha].
    apply andb_prop in Hb as [_ Hb].
    destruct (IH b Ha Hb Hr Hr' E) as [-> ->]. auto.
Qed.

Lemma closing_stops (r : list ascii) :
  (forall c, closing_char c = true -> P c = false) -> closing r -> stops P r.
Proof. intros H. destruct r as [|c r]; simpl; auto. Qed.

End SpanOfText.

Section HexDigits.

Lemma land15 (a : Z) : Z.land a 15 = a mod 16.
Proof. change 15 with (Z.ones 4). rewrite Z.land_ones by lia. reflexivity. Qed.

Lemma hexd_inj (a b : Z) : Json.hexd a = Json.hexd b -> a mod 16 = b mod 16.
Proof.
  unfold Json.hexd, Sha256.hex_digit. rewrite !land15.
  pose proof (Z.mod_pos_bound a 16 ltac:(lia)) as Ha.
  pose proof (Z.mod_pos_bound b 16 ltac:(lia)) as Hb.
  intros E. apply Z2Nat.inj; try lia.
  revert E. apply NoDup_nth.
  - repeat (constructor; [simpl; intuition discriminate|]). constructor.
  - simpl. lia.
  - simpl. lia.
Qed.

Lemma hex4_inj (n n' : Z) :
  0 <= n < 65536 -> 0 <= n' < 65536 -> Json.hex4 n = Json.hex4 n' -> n = n'.
Proof.
  intros Hn Hn' E. unfold Json.hex4 in E.
  injection E as E3 E2 E1 E0.
  apply hexd_inj in E3, E2, E1, E0.
  rewrite !Z.shiftr_div_pow2 in * by lia.
  change (2 ^ 12) with 4096 in *. change (2 ^ 8) with 256 in *.
  change (2 ^ 4) with 16 in *.
  Z.div_mod_to_equations. lia.
Qed.

Lemma lor_high_low (hi x : Z) :
  Z.land hi 1023 = 0 -> 0 <= x < 1024 -> Z.lor hi x = hi + x.
Proof.
  intros Hhi Hx.
  assert (H0 : Z.land hi x = 0).
  { replace x with (Z.land x 1023).
    - rewrite (Z.land_comm x), Z.land_assoc, Hhi. apply Z.land_0_l.
    - change 1023 with (Z.ones 10). rewrite Z.land_ones by lia.
      apply Z.mod_small. lia. }
  rewrite <- (Z.lxor_lor _ _ H0). symmetry. apply Z.add_nocarry_lxor, H0.
Qed.

End HexDigits.

Section StringEscapes.

Lemma scalar_str_spec (s : pystr) : scalar_str s = true <-> Forall scalar s.
Proof.
  unfold scalar_str. rewrite forallb_forall, Forall_forall.
  split; intros H c Hc; specialize (H c Hc); unfold scalar, is_surrogate in *.
  - rewrite !andb_true_iff, negb_true_iff, andb_false_iff in H. lia.
  - rewrite !andb_true_iff, negb_true_iff, andb_false_iff. lia.
Qed.

Lemma ascii_of_Z_code (c : Z) :
  0 <= c < 256 -> Z.of_N (N_of_ascii (Json.ascii_of_Z c)) = c.
Proof.
  intros H. unfold Json.ascii_of_Z. rewrite N_ascii_embedding; lia.
Qed.

(** The four shapes of an escaped character. *)
Lemma esc_char_cases (c : Z) :
  scalar c ->
  (exists a, Json.esc_char c = [a] /\ a <> "\"%char /\ a <> Json.quote
             /\ c = Z.of_N (N_of_ascii a)) \/
  (exists a, Json.esc_char c = ["\"%char; a] /\ In (c, a) short_escapes) \/
  (Json.esc_char c = "\"%char :: "u"%char :: Json.hex4 c /\ 0 <= c < 65536
   /\ ~ (55296 <= c <= 57343)) \/
  (exists s1 s2,
      Json.esc_char c
      = "\"%char :: "u"%char :: Json.hex4 s1 ++ "\"%char :: "u"%char :: Json.hex4 s2
      /\ 55296 <= s1 < 56320 /\ 56320 <= s2 < 57344
      /\ c = 65536 + (s1 - 55296) * 1024 + (s2 - 56320)).
Proof.
  intros [Hr Hs]. unfold Json.esc_char.
  destruct (Z.eqb_spec c 34) as [->|N34];
    [right; left; eexists; split; [reflexivity | simpl; tauto]|].
  destruct (Z.eqb_spec c 92) as [->|N92];
    [right; left; eexists; split; [reflexivity | simpl; tauto]|].
  destruct (Z.eqb_spec c 10) as [->|N10];
    [right; left; eexists; split; [reflexivity | simpl; tauto]|].
  destruct (Z.eqb_spec c 13) as [->|N13];
    [right; left; eexists; split; [reflexivity | simpl; tauto]|].
  destruct (Z.eqb_spec c 9) as [->|N9];
    [right; left; eexists; split; [reflexivity | simpl; tauto]|].
  destruct (Z.eqb_spec c 8) as [->|N8];
    [right; left; eexists; split; [reflexivity | simpl; tauto]|].
  destruct (Z.eqb_spec c 12) as [->|N12];
    [right; left; eexists; split; [reflexivity | simpl; tauto]|].
  destruct (Z.leb_spec 32 c) as [L32|L32]; [destruct (Z.leb_spec c 126) as [L126|L126]|];
    cbn [andb].
  - left. exists (Json.ascii_of_Z c).
    pose proof (ascii_of_Z_code c ltac:(lia)) as E.
    repeat split; [| |symmetry; exact E]; intros Ha; rewrite Ha in E;
      vm_compute in E; lia.
  - destruct (Z.ltb_spec c 65536).
    + right; right; left. repeat split; lia.
    + right; right; right.
      set (n := c - 65536).
      assert (Hn : 0 <= n < 1048576) by (unfold n; lia).
      rewrite !Z.shiftr_div_pow2 by lia. change (2 ^ 10) with 1024.
      change 1023 with (Z.ones 10). rewrite !Z.land_ones by lia.
      change (2 ^ 10) with 1024.
      rewrite (Z.mod_small (n / 1024)) by (Z.div_mod_to_equations; lia).
      rewrite !lor_high_low; try reflexivity;
        try (Z.div_mod_to_equations; lia).
      eexists _, _. split; [reflexivity|].
      unfold n in *. Z.div_mod_to_equations. lia.
  - destruct (Z.ltb_spec c 65536); [|lia].
    right; right; left. repeat split; lia.
Qed.

Lemma short_escape_code (c c' : Z) (a : ascii) :
  In (c, a) short_escapes -> In (c', a) short_escapes -> c = c'.
Proof.
  unfold short_escapes. simpl.
  intros H H'.
  repeat (destruct H as [H|H]); try contradiction; injection H as <- <-;
    repeat (destruct H' as [H'|H']); try contradiction; try discriminate H';
    injection H' as <-; reflexivity.
Qed.

Lemma short_escape_not_u (c : Z) : ~ In (c, "u"%char) short_escapes.
Proof.
  unfold short_escapes. simpl. intros H.
  repeat (destruct H as [H|H]; [discriminate H|]). exact H.
Qed.

(** Escaped characters form a prefix code on scalar values. *)
Lemma esc_char_prefix (c c' : Z) (X X' : list ascii) :
  scalar c -> scalar c' ->
  Json.esc_char c ++ X = Json.esc_char c' ++ X' -> c = c' /\ X = X'.
Proof.
  intros Hc Hc'.
  destruct (esc_char_cases c Hc)
    as [(a & -> & Hb & Hq & Ea)|[(a & -> & Ha)|[(-> & Hr & Hs)|(s1 & s2 & -> & H1 & H2 & Ec)]]];
  destruct (esc_char_cases c' Hc')
    as [(a' & -> & Hb' & Hq' & Ea')|[(a' & -> & Ha')|[(-> & Hr' & Hs')|(s1' & s2' & -> & H1' & H2' & Ec')]]];
  cbn [app]; intros E.
  - injection E as -> ->. split; congruence.
  - injection E as -> _. congruence.
  - injection E as -> _. congruence.
  - injection E as -> _. congruence.
  - injection E as <- _. congruence.
  - injection E as -> ->. split; [eapply short_escape_code; eassumption | reflexivity].
  - injection E as -> _. exfalso. eapply short_escape_not_u, Ha.
  - injection E as -> _. exfalso. eapply short_escape_not_u, Ha.
  - injection E as <- _. congruence.
  - injection E as <- _. exfalso. eapply short_escape_not_u, Ha'.
  - unfold Json.hex4 in E. cbn [app] in E.
    injection E as E3 E2 E1 E0 EX.
    split; [|exact EX]. apply hex4_inj; try lia. unfold Json.hex4. congruence.
  - unfold Json.hex4 in E. cbn [app] in E.
    injection E as E3 E2 E1 E0 EX.
    assert (c = s1') by (apply hex4_inj; try lia; unfold Json.hex4; congruence).
    lia.
  - injection E as <- _. congruence.
  - injection E as <- _. exfalso. eapply short_escape_not_u, Ha'.
  - unfold Json.hex4 in E. cbn [app] in E.
    injection E as E3 E2 E1 E0 EX.
    assert (s1 = c') by (apply hex4_inj; try lia; unfold Json.hex4; congruence).
    lia.
  - unfold Json.hex4 in E. cbn [app] in E.
    injection E as E3 E2 E1 E0 F3 F2 F1 F0 EX.
    assert (s1 = s1') by (apply hex4_inj; try lia; unfold Json.hex4; congruence).
    assert (s2 = s2') by (apply hex4_inj; try lia; unfold Json.hex4; congruence).
    split; [lia | exact EX].
Qed.

End StringEscapes.

Section TextOfStrings.

Lemma esc_char_head (c : Z) :
  scalar c -> exists a t, Json.esc_char c = a :: t /\ a <> Json.quote.
Proof.
  intros Hc.
  destruct (esc_char_cases c Hc)
    as [(a & -> & Hb & Hq & Ea)|[(a & -> & Ha)|[(-> & Hr & Hs)|(s1 & s2 & -> & H1 & H2 & Ec)]]];
    eexists _, _; (split; [reflexivity|]); try discriminate. exact Hq.
Qed.

Lemma flat_esc_inj (s s' : pystr) (X X' : list ascii) :
  Forall scalar s -> Forall scalar s' ->
  flat_map Json.esc_char s ++ Json.quote :: X
  = flat_map Json.esc_char s' ++ Json.quote :: X' ->
  s = s' /\ X = X'.
Proof.
  revert s'. induction s as [|c s IH]; intros [|c' s'] Hs Hs' E; cbn [flat_map app] in E.
  - injection E as ->. auto.
  - inversion Hs' as [|? ? Hc' _]; subst.
    destruct (esc_char_head c' Hc') as (a & t & Ea & Hq).
    rewrite Ea in E. cbn [app] in E. injection E as E _. congruence.
  - inversion Hs as [|? ? Hc _]; subst.
    destruct (esc_char_head c Hc) as (a & t & Ea & Hq).
    rewrite Ea in E. cbn [app] in E. injection E as E _. congruence.
  - inversion Hs as [|? ? Hc Hs0]; inversion Hs' as [|? ? Hc' Hs0']; subst.
    rewrite <- !app_assoc in E.
    destruct (esc_char_prefix c c' _ _ Hc Hc' E) as [-> E'].
    destruct (IH s' Hs0 Hs0' E') as [-> ->]. auto.
Qed.

Lemma encode_str_inj (s s' : pystr) (r r' : list ascii) :
  scalar_str s = true -> scalar_str s' = true ->
  Json.encode_str s ++ r = Json.encode_str s' ++ r' -> s = s' /\ r = r'.
Proof.
  intros Hs Hs' E. apply scalar_str_spec in Hs, Hs'.
  unfold Json.encode_str in E. cbn [app] in E. injection E as E.
  rewrite <- !app_assoc in E. cbn [app] in E.
  exact (flat_esc_inj s s' r r' Hs Hs' E).
Qed.

End TextOfStrings.

Section TextOfInts.

Lemma chars_inj (a b : string) : chars a = chars b -> a = b.
Proof.
  intros E. rewrite <- (string_of_list_ascii_of_string a),
    <- (string_of_list_ascii_of_string b). unfold chars in E. congruence.
Qed.

Lemma to_int_not_nil (z : Z) :
  Z.to_int z <> Decimal.Pos Decimal.Nil /\ Z.to_int z <> Decimal.Neg Decimal.Nil.
Proof.
  destruct z as [|p|p]; simpl; split; try discriminate;
    intros [= E]; exact (DecimalPos.Unsigned.to_uint_nonnil p E).
Qed.

Lemma int_repr_inj (z z' : Z) : Json.int_repr z = Json.int_repr z' -> z = z'.
Proof.
  intros E. apply chars_inj in E.
  apply DecimalZ.to_int_inj.
  destruct (to_int_not_nil z) as [H1 H2], (to_int_not_nil z') as [H1' H2'].
  pose proof (DecimalString.NilZero.isi _ H1 H2) as I.
  pose proof (DecimalString.NilZero.isi _ H1' H2') as I'.
  rewrite E in I. congruence.
Qed.

Lemma int_repr_chars (z : Z) : forallb int_char (Json.int_repr z) = true.
Proof.
  assert (Hd : forall u, forallb int_char
                 (chars (DecimalString.NilZero.string_of_uint u)) = true).
  { intros u. eapply forallb_weaken; [|apply nilzero_uint_digits].
    intros c Hc. unfold int_char. change (is_digit c) with (Float.is_digit c).
    unfold is_digit in Hc. rewrite Hc. reflexivity. }
  unfold Json.int_repr, DecimalString.NilZero.string_of_int.
  destruct (Z.to_int z) as [u|u]; [apply Hd|].
  cbn [chars list_ascii_of_string forallb].
  fold (chars (DecimalString.NilZero.string_of_uint u)). rewrite Hd. reflexivity.
Qed.

Lemma int_repr_nonempty (z : Z) : Json.int_repr z <> [].
Proof.
  unfold Json.int_repr, DecimalString.NilZero.string_of_int,
    DecimalString.NilZero.string_of_uint.
  destruct (Z.to_int z) as [u|u]; [|discriminate].
  destruct u; discriminate.
Qed.

End TextOfInts.

Section TextOfFloats.

Lemma closing_char_cases (c : ascii) :
  closing_char c = true -> c = ","%char \/ c = "]"%char \/ c = "}"%char.
Proof.
  unfold closing_char. rewrite !orb_true_iff.
  intros [[H|H]|H]; apply Ascii.eqb_eq in H; auto.
Qed.

Lemma scientific_not_closing (c : ascii) :
  scientific_char c = true -> not_closing c = true.
Proof.
  unfold not_closing. destruct (closing_char c) eqn:E; [|reflexivity].
  destruct (closing_char_cases c E) as [ -> | [ -> | -> ] ]; discriminate.
Qed.

Lemma int_char_scientific (c : ascii) : int_char c = true -> scientific_char c = true.
Proof.
  unfold int_char, scientific_char, positional_char.
  destruct (is_digit c), (Ascii.eqb c "-"); simpl; auto; discriminate.
Qed.

Lemma float_eqb_eq (x y : pyfloat) : Float.eqb x y = true -> x = y.
Proof.
  destruct x as [|a|a m e], y as [|b|b m' e']; simpl; try discriminate.
  - intros H. apply Bool.eqb_prop in H. congruence.
  - rewrite !andb_true_iff. intros [[H1 H2] H3].
    apply Bool.eqb_prop in H1. apply Z.eqb_eq in H2, H3. congruence.
Qed.

Lemma floatstr_not_closing (f : pyfloat) :
  forallb not_closing (Json.floatstr f) = true.
Proof.
  destruct f as [|[]|neg m e]; try reflexivity.
  eapply forallb_weaken; [apply scientific_not_closing|].
  apply floatstr_finite_scientific.
Qed.

Lemma int_repr_not_closing (z : Z) :
  forallb not_closing (Json.int_repr z) = true.
Proof.
  eapply forallb_weaken; [|apply int_repr_chars].
  intros c Hc. apply scientific_not_closing, int_char_scientific, Hc.
Qed.

(** Text made of digits and '-' alone is not what [format_repr] writes. *)
Lemma format_repr_int_chars (ds : list ascii) (decpt : Z) :
  forallb int_char (Float.format_repr ds decpt) = true ->
  Float.format_repr ds decpt = [].
Proof.
  unfold Float.format_repr.
  destruct ((decpt <=? -4) || (16 <? decpt)).
  - destruct ds as [|d [|d' rest]]; [reflexivity| |]; cbn [forallb];
      rewrite ?andb_false_r; discriminate.
  - destruct (decpt <=? 0).
    + cbn [chars list_ascii_of_string app forallb]. discriminate.
    + destruct (Z.of_nat (length ds) <=? decpt).
      * rewrite !forallb_app. cbn [chars list_ascii_of_string forallb].
        rewrite !andb_false_r. discriminate.
      * rewrite forallb_app. cbn [forallb]. rewrite !andb_false_r. discriminate.
Qed.

Lemma format_repr_head (ds : list ascii) (decpt : Z) :
  forallb is_digit ds = true ->
  match Float.format_repr ds decpt with
  | [] => True
  | c :: _ => is_digit c = true
  end.
Proof.
  intros Hd. unfold Float.format_repr.
  destruct ((decpt <=? -4) || (16 <? decpt)).
  - destruct ds as [|d [|d' rest]]; [exact I| |];
      cbn [forallb] in Hd; apply andb_prop in Hd as [Hd _]; exact Hd.
  - destruct (Z.leb_spec decpt 0); [reflexivity|].
    destruct (Z.leb_spec (Z.of_nat (length ds)) decpt).
    + destruct ds as [|d ds]; [|cbn [forallb] in Hd; apply andb_prop in Hd as [Hd _]; exact Hd].
      cbn [app length]. rewrite Nat.sub_0_r.
      destruct (Z.to_nat decpt) eqn:E; [lia|reflexivity].
    + destruct ds as [|d ds]; [simpl in *; lia|].
      destruct (Z.to_nat decpt) eqn:E; [lia|].
      cbn [firstn app]. cbn [forallb] in Hd. apply andb_prop in Hd as [Hd _]. exact Hd.
Qed.

Lemma of_text_sign_only (neg : bool) : Float.of_text (Float.sign_text neg) = None.
Proof. destruct neg; reflexivity. Qed.

(** The text of a float that reads back is never empty past its sign. *)
Lemma repr_body_nonempty (neg : bool) (m e : Z) :
  Float.reads_back_from_repr (FFin neg m e) = true ->
  Float.format_repr (fst (Float.shortest_digits m e)) (snd (Float.shortest_digits m e))
  <> [].
Proof.
  unfold Float.reads_back_from_repr, Float.repr.
  destruct (Float.shortest_digits m e) as [ds decpt]. cbn [fst snd].
  intros H E. rewrite E, app_nil_r, of_text_sign_only in H. discriminate.
Qed.

Lemma floatstr_inj (f f' : pyfloat) :
  Float.reads_back_from_repr f = true -> Float.reads_back_from_repr f' = true ->
  Json.floatstr f = Json.floatstr f' -> f = f'.
Proof.
  intros Hf Hf' E.
  destruct f as [|[]|neg m e], f' as [|[]|neg' m' e']; try reflexivity;
    try discriminate E;
    try (pose proof (floatstr_finite_scientific neg m e) as Hs;
         rewrite E in Hs; discriminate Hs);
    try (pose proof (floatstr_finite_scientific neg' m' e') as Hs;
         rewrite <- E in Hs; discriminate Hs).
  cbn [Json.floatstr] in E. unfold Float.reads_back_from_repr in Hf, Hf'.
  rewrite E in Hf.
  destruct (Float.of_text (Float.repr (FFin neg' m' e'))) as [g|]; [|discriminate].
  apply float_eqb_eq in Hf, Hf'. congruence.
Qed.

Lemma floatstr_not_int (f : pyfloat) (z : Z) :
  Float.reads_back_from_repr f = true -> Json.floatstr f <> Json.int_repr z.
Proof.
  intros Hf E. pose proof (int_repr_chars z) as Hc. rewrite <- E in Hc.
  destruct f as [|[]|neg m e]; try discriminate Hc.
  pose proof (repr_body_nonempty neg m e Hf) as Hn.
  cbn [Json.floatstr] in Hc. unfold Float.repr in Hc.
  destruct (Float.shortest_digits m e) as [ds decpt]. cbn [fst snd] in Hn.
  rewrite forallb_app in Hc. apply andb_prop in Hc as [_ Hc].
  apply Hn, format_repr_int_chars, Hc.
Qed.

End TextOfFloats.

(** ** float(repr(x)) == x *)

Section Rounding.

Lemma div_ratio (p q p' q' : Z) :
  0 < q -> 0 < q' -> p * q' = p' * q -> p / q = p' / q'.
Proof.
  intros Hq Hq' E.
  rewrite <- (Z.div_mul_cancel_r p q q') by lia.
  rewrite E, (Z.mul_comm q q'), Z.div_mul_cancel_r by lia. reflexivity.
Qed.

Lemma round_half_even_ratio (p q p' q' : Z) :
  0 < q -> 0 < q' -> p * q' = p' * q ->
  Float.round_half_even p q = Float.round_half_even p' q'.
Proof.
  intros Hq Hq' E. unfold Float.round_half_even.
  rewrite <- (div_ratio p q p' q' Hq Hq' E).
  set (fl := p / q).
  assert (Hr : p mod q = p - q * fl) by (unfold fl; rewrite Z.mod_eq; lia).
  assert (Hr' : p' mod q' = p' - q' * fl).
  { unfold fl. rewrite (div_ratio p q p' q' Hq Hq' E), Z.mod_eq; lia. }
  rewrite Hr, Hr'.
  assert (C1 : (2 * (p - q * fl) <? q) = (2 * (p' - q' * fl) <? q')).
  { destruct (Z.ltb_spec (2 * (p - q * fl)) q), (Z.ltb_spec (2 * (p' - q' * fl)) q');
      try reflexivity; exfalso; nia. }
  assert (C2 : (q <? 2 * (p - q * fl)) = (q' <? 2 * (p' - q' * fl))).
  { destruct (Z.ltb_spec q (2 * (p - q * fl))), (Z.ltb_spec q' (2 * (p' - q' * fl)));
      try reflexivity; exfalso; nia. }
  rewrite C1, C2. reflexivity.
Qed.

Lemma round_half_even_exact (m q : Z) :
  0 < q -> Float.round_half_even (m * q) q = m.
Proof.
  intros Hq. unfold Float.round_half_even.
  rewrite Z.div_mul, Z.mod_mul by lia.
  destruct (Z.ltb_spec (2 * 0) q); [reflexivity|lia].
Qed.

End Rounding.

Section BinaryExponent.

Lemma scale2_den_pos (p q E : Z) : 0 < q -> 0 < snd (Float.scale2 p q E).
Proof.
  intros Hq. unfold Float.scale2. destruct (Z.leb_spec 0 E); cbn [snd]; [|exact Hq].
  apply Z.mul_pos_pos; [exact Hq | apply Z.pow_pos_nonneg; lia].
Qed.

(** Raising the exponent by d divides the scaled fraction by 2^d. *)
Lemma scale2_shift (p q E d : Z) :
  0 <= d ->
  fst (Float.scale2 p q E) * snd (Float.scale2 p q (E + d))
  = fst (Float.scale2 p q (E + d)) * snd (Float.scale2 p q E) * 2 ^ d.
Proof.
  intros Hd. unfold Float.scale2.
  destruct (Z.leb_spec 0 E), (Z.leb_spec 0 (E + d)); cbn [fst snd]; try lia.
  - rewrite Z.pow_add_r by lia. ring.
  - assert (P1 : 2 ^ d = 2 ^ (- E) * 2 ^ (E + d)).
    { rewrite <- Z.pow_add_r by lia. f_equal. lia. }
    rewrite P1. ring.
  - assert (P1 : 2 ^ (- E) = 2 ^ (- (E + d)) * 2 ^ d).
    { rewrite <- Z.pow_add_r by lia. f_equal. lia. }
    rewrite P1. ring.
Qed.

Lemma scale2_cross (p q p' q' E : Z) :
  p * q' = p' * q ->
  fst (Float.scale2 p q E) * snd (Float.scale2 p' q' E)
  = fst (Float.scale2 p' q' E) * snd (Float.scale2 p q E).
Proof.
  intros H. unfold Float.scale2. destruct (0 <=? E); cbn [fst snd]; nia.
Qed.

Lemma in_binade_ratio (p q p' q' E : Z) :
  0 < q -> 0 < q' -> p * q' = p' * q -> in_binade p q E -> in_binade p' q' E.
Proof.
  intros Hq Hq' H [H1 H2]. unfold in_binade.
  pose proof (scale2_cross p q p' q' E H) as C.
  pose proof (scale2_den_pos p q E Hq) as B.
  pose proof (scale2_den_pos p' q' E Hq') as B'.
  revert H1 H2 C B B'.
  generalize (fst (Float.scale2 p q E)) (snd (Float.scale2 p q E))
             (fst (Float.scale2 p' q' E)) (snd (Float.scale2 p' q' E)).
  intros a b a' b' H1 H2 C B B'. split; nia.
Qed.

Lemma in_binade_unique (p q E E' : Z) :
  0 < q -> in_binade p q E -> in_binade p q E' -> E = E'.
Proof.
  intros Hq.
  assert (W : forall E E', E < E' -> in_binade p q E -> in_binade p q E' -> False).
  { clear E E'. intros E E' Hlt [H1 H2] [H1' H2'].
    pose proof (scale2_shift p q E (E' - E) ltac:(lia)) as S.
    replace (E + (E' - E)) with E' in S by lia.
    pose proof (scale2_den_pos p q E Hq) as B.
    pose proof (scale2_den_pos p q E' Hq) as B'.
    assert (P2 : 2 <= 2 ^ (E' - E)).
    { change 2 with (2 ^ 1) at 1. apply Z.pow_le_mono_r; lia. }
    revert H1 H2 H1' H2' S B B' P2.
    generalize (fst (Float.scale2 p q E)) (snd (Float.scale2 p q E))
               (fst (Float.scale2 p q E')) (snd (Float.scale2 p q E'))
               (2 ^ (E' - E)).
    intros a b a' b' t H1 H2 H1' H2' S B B' P2.
    assert (K1 : 2 ^ 52 * b' * (b * t) <= a' * (b * t))
      by (apply Z.mul_le_mono_nonneg_r; nia).
    assert (K2 : 2 ^ 52 * b' * (b * 2) <= 2 ^ 52 * b' * (b * t))
      by (apply Z.mul_le_mono_nonneg_l; nia).
    assert (K3 : a * b' < 2 ^ 53 * b * b')
      by (apply Z.mul_lt_mono_pos_r; lia).
    change (2 ^ 53) with (2 ^ 52 * 2) in K3. nia. }
  intros H H'. destruct (Z.lt_trichotomy E E') as [L|[L|L]]; [|exact L|];
    exfalso; eauto.
Qed.

End BinaryExponent.

Section BinaryExponentFound.

Lemma log2_bounds (p : Z) : 0 < p -> 0 <= Z.log2 p /\ 2 ^ Z.log2 p <= p < 2 * 2 ^ Z.log2 p.
Proof.
  intros Hp. pose proof (Z.log2_spec p Hp) as H. pose proof (Z.log2_nonneg p) as H0.
  rewrite Z.pow_succ_r in H by lia. lia.
Qed.

(** The bit lengths put the scaled fraction between 2^51 and 2^53. *)
Lemma first_guess (p q : Z) :
  0 < p -> 0 < q ->
  let e0 := Z.log2 p - Z.log2 q - 52 in
  2 ^ 51 * snd (Float.scale2 p q e0) < fst (Float.scale2 p q e0)
  /\ fst (Float.scale2 p q e0) < 2 ^ 53 * snd (Float.scale2 p q e0).
Proof.
  intros Hp Hq e0.
  destruct (log2_bounds p Hp) as (La & Pa), (log2_bounds q Hq) as (Lb & Pb).
  set (la := Z.log2 p) in *. set (lb := Z.log2 q) in *.
  unfold Float.scale2. destruct (Z.leb_spec 0 e0) as [He|He]; cbn [fst snd].
  - assert (E : 2 ^ la = 2 ^ lb * 2 ^ e0 * 2 ^ 52).
    { rewrite <- !Z.pow_add_r by lia. f_equal. unfold e0. lia. }
    assert (T : 0 < 2 ^ e0) by (apply Z.pow_pos_nonneg; lia).
    revert Pa Pb E T. generalize (2 ^ la) (2 ^ lb) (2 ^ e0). intros A B t Pa Pb E T.
    split; nia.
  - assert (E : 2 ^ la * 2 ^ (- e0) = 2 ^ lb * 2 ^ 52).
    { rewrite <- !Z.pow_add_r by lia. f_equal. unfold e0. lia. }
    assert (T : 0 < 2 ^ (- e0)) by (apply Z.pow_pos_nonneg; lia).
    revert Pa Pb E T. generalize (2 ^ la) (2 ^ lb) (2 ^ (- e0)). intros A B t Pa Pb E T.
    split; nia.
Qed.

Lemma binary_exponent_in_binade (p q : Z) :
  0 < p -> 0 < q -> in_binade p q (Float.binary_exponent p q).
Proof.
  intros Hp Hq. unfold Float.binary_exponent.
  pose proof (first_guess p q Hp Hq) as [G1 G2]. cbv zeta in G1, G2.
  set (e0 := Z.log2 p - Z.log2 q - 52) in *.
  pose proof (scale2_shift p q (e0 - 1) 1 ltac:(lia)) as S.
  replace (e0 - 1 + 1) with e0 in S by lia.
  pose proof (scale2_den_pos p q e0 Hq) as B0.
  pose proof (scale2_den_pos p q (e0 - 1) Hq) as B1.
  destruct (Float.scale2 p q e0) as [a0 b0] eqn:E0. cbn [fst snd] in *.
  destruct (Z.ltb_spec a0 (2 ^ 52 * b0)) as [L|L]; unfold in_binade.
  - revert S B1. generalize (fst (Float.scale2 p q (e0 - 1)))
                           (snd (Float.scale2 p q (e0 - 1))).
    intros a1 b1 S B1. change (2 ^ 1) with 2 in S.
    split; nia.
  - rewrite E0. cbn [fst snd]. split; lia.
Qed.

Lemma binary_exponent_ratio (p q p' q' : Z) :
  0 < p -> 0 < q -> 0 < p' -> 0 < q' -> p * q' = p' * q ->
  Float.binary_exponent p q = Float.binary_exponent p' q'.
Proof.
  intros Hp Hq Hp' Hq' H.
  apply (in_binade_unique p' q'); [exact Hq'| |apply binary_exponent_in_binade; assumption].
  apply (in_binade_ratio p q); auto. apply binary_exponent_in_binade; assumption.
Qed.

(** The correctly rounded value is a function of the fraction. *)
Lemma of_ratio_ratio (neg : bool) (p q p' q' : Z) :
  0 <= p -> 0 < q -> 0 <= p' -> 0 < q' -> p * q' = p' * q ->
  Float.of_ratio neg p q = Float.of_ratio neg p' q'.
Proof.
  intros Hp Hq Hp' Hq' H. unfold Float.of_ratio.
  destruct (Z.leb_spec p 0), (Z.leb_spec p' 0); try reflexivity; try (exfalso; nia).
  rewrite (binary_exponent_ratio p q p' q') by (auto; lia).
  set (e := Z.max (Float.binary_exponent p' q') (-1074)).
  pose proof (scale2_cross p q p' q' e H) as C.
  pose proof (scale2_den_pos p q e Hq) as B.
  pose proof (scale2_den_pos p' q' e Hq') as B'.
  destruct (Float.scale2 p q e) as [a b], (Float.scale2 p' q' e) as [a' b'].
  cbn [fst snd] in *.
  rewrite (round_half_even_ratio a b a' b' B B' C). reflexivity.
Qed.

End BinaryExponentFound.

Section Representable.

(** Rounding a fraction that is a binary64 value gives that value. *)
Lemma of_ratio_exact (neg : bool) (m e p q : Z) :
  valid_fin m e -> 0 < m -> 0 < q ->
  fst (Float.scale2 p q e) = m * snd (Float.scale2 p q e) ->
  Float.of_ratio neg p q = FFin neg m e.
Proof.
  intros (Hm & He & Hsub) Hpos Hq Hx.
  pose proof (scale2_den_pos p q e Hq) as B.
  assert (Hp : 0 < p).
  { revert Hx B. unfold Float.scale2. destruct (Z.leb_spec 0 e); cbn [fst snd]; intros Hx B.
    - nia.
    - assert (0 < 2 ^ (- e)) by (apply Z.pow_pos_nonneg; lia). nia. }
  unfold Float.of_ratio. destruct (Z.leb_spec p 0); [lia|].
  pose proof (binary_exponent_in_binade p q Hp Hq) as HE.
  set (E := Float.binary_exponent p q) in *.
  assert (Hmax : Z.max E (-1074) = e).
  { destruct (Z.lt_ge_cases m (2 ^ 52)) as [Hs|Hn].
    - (* subnormal *)
      specialize (Hsub Hs). subst e.
      destruct (Z.le_gt_cases E (-1074)) as [L|L]; [lia|]. exfalso.
      destruct HE as [H1 H2].
      pose proof (scale2_shift p q (-1074) (E - -1074) ltac:(lia)) as S.
      replace (-1074 + (E - -1074)) with E in S by lia.
      pose proof (scale2_den_pos p q E Hq) as BE.
      assert (P2 : 2 <= 2 ^ (E - -1074)).
      { change 2 with (2 ^ 1) at 1. apply Z.pow_le_mono_r; lia. }
      rewrite Hx in S.
      revert H1 H2 S B BE P2.
      generalize (snd (Float.scale2 p q (-1074)))
                 (fst (Float.scale2 p q E)) (snd (Float.scale2 p q E))
                 (2 ^ (E - -1074)).
      intros b a' b' t H1 H2 S B BE P2.
      assert (K1 : 2 ^ 52 * b' * (b * t) <= a' * (b * t))
        by (apply Z.mul_le_mono_nonneg_r; nia).
      assert (K2 : 2 ^ 52 * b' * (b * 2) <= 2 ^ 52 * b' * (b * t))
        by (apply Z.mul_le_mono_nonneg_l; nia).
      assert (K3 : m * b * b' < 2 ^ 52 * b * b').
      { apply Z.mul_lt_mono_pos_r; [lia|]. apply Z.mul_lt_mono_pos_r; lia. }
      nia.
    - (* normal *)
      assert (E = e); [|lia].
      apply (in_binade_unique p q); [exact Hq | exact HE |].
      unfold in_binade. rewrite Hx. split; nia. }
  rewrite Hmax.
  destruct (Float.scale2 p q e) as [a b]. cbn [fst snd] in *. subst a.
  rewrite round_half_even_exact by exact B.
  destruct (Z.eqb_spec m (2 ^ 53)); [lia|].
  destruct (Z.ltb_spec 971 e); [lia|]. reflexivity.
Qed.

End Representable.

Section DigitSearch.

Lemma pow10_split (j : Z) : 0 <= j -> 10 ^ j = 2 ^ j * 5 ^ j.
Proof. intros H. change 10 with (2 * 5). apply Z.pow_mul_l. Qed.

(** Once the decimal exponent is at or below that of the binary64 value,
    the decimal is exact and reads back. *)
Lemma exact_candidate (m e k : Z) :
  valid_fin m e -> 0 < m -> k <= e -> k <= 0 ->
  let '(p, q) := Float.scale2 m 1 (- e) in
  let '(p', q') := Float.scale10 p q k in
  p' mod q' = 0 /\ Float.reads_back m e k (p' / q') = true.
Proof.
  intros Hv Hm Hke Hk0.
  assert (T10 : 0 < 10 ^ (- k)) by (apply Z.pow_pos_nonneg; lia).
  assert (R : forall lo, 0 < lo ->
            fst (Float.scale2 lo (1 * 10 ^ (- k)) e)
            = m * snd (Float.scale2 lo (1 * 10 ^ (- k)) e) ->
            Float.reads_back m e k lo = true).
  { intros lo Hlo Hx. unfold Float.reads_back, Float.of_decimal, Float.scale10.
    destruct (Z.leb_spec 0 (- k)); [|lia].
    rewrite (of_ratio_exact false m e lo (1 * 10 ^ (- k)) Hv Hm ltac:(lia) Hx).
    cbn. rewrite !Z.eqb_refl. reflexivity. }
  unfold Float.scale2 at 1.
  destruct (Z.leb_spec 0 (- e)) as [He|He].
  - (* e <= 0: the value is m / 2^(-e) *)
    assert (T2 : 0 < 2 ^ (- e)) by (apply Z.pow_pos_nonneg; lia).
    assert (Ek : 10 ^ (- k) = 2 ^ (- e) * (2 ^ (e - k) * 5 ^ (- k))).
    { rewrite pow10_split by lia. rewrite Z.mul_assoc, <- Z.pow_add_r by lia.
      do 2 f_equal. lia. }
    assert (T3 : 0 < 2 ^ (e - k) * 5 ^ (- k))
      by (apply Z.mul_pos_pos; apply Z.pow_pos_nonneg; lia).
    unfold Float.scale10.
    destruct (Z.leb_spec 0 k) as [Hk|Hk].
    + assert (k = 0) by lia. assert (e = 0) by lia. subst k e.
      change (1 * 2 ^ (- 0) * 10 ^ 0) with 1. rewrite Z.mod_1_r, Z.div_1_r.
      split; [reflexivity|]. apply R; [exact Hm|]. cbn. lia.
    + replace (m * 10 ^ (- k)) with (m * (2 ^ (e - k) * 5 ^ (- k)) * (1 * 2 ^ (- e)))
        by (rewrite Ek; ring).
      rewrite Z.mod_mul, Z.div_mul by lia.
      split; [reflexivity|]. apply R; [nia|].
      unfold Float.scale2. destruct (Z.leb_spec 0 e); cbn [fst snd].
      * assert (e = 0) by lia. subst e. rewrite Ek. change (2 ^ (- 0)) with 1.
        change (2 ^ 0) with 1. ring.
      * rewrite Ek. ring.
  - (* e > 0: the value is the integer m * 2^e *)
    replace (- - e) with e by lia.
    assert (T2 : 0 < 2 ^ e) by (apply Z.pow_pos_nonneg; lia).
    unfold Float.scale10.
    destruct (Z.leb_spec 0 k) as [Hk|Hk].
    + assert (k = 0) by lia. subst k.
      change (1 * 10 ^ 0) with 1. rewrite Z.mod_1_r, Z.div_1_r.
      split; [reflexivity|]. apply R; [nia|].
      unfold Float.scale2. destruct (Z.leb_spec 0 e); [|lia]. cbn [fst snd].
      change (10 ^ (- 0)) with 1. ring.
    + rewrite Z.mod_1_r, Z.div_1_r.
      split; [reflexivity|]. apply R; [nia|].
      unfold Float.scale2. destruct (Z.leb_spec 0 e); [|lia]. cbn [fst snd]. ring.
Qed.

Lemma shortest_from_reads_back (fuel : nat) :
  forall (n m e D : Z),
    valid_fin m e -> 0 < m ->
    D - (n + Z.of_nat fuel) <= e -> D - (n + Z.of_nat fuel) <= 0 ->
    let '(p, q) := Float.scale2 m 1 (- e) in
    let '(c, k) := Float.shortest_from fuel n m e p q D in
    Float.reads_back m e k c = true.
Proof.
  induction fuel as [|fuel IH]; intros n m e D Hv Hm H1 H2.
  - pose proof (exact_candidate m e (D - n) Hv Hm ltac:(lia) ltac:(lia)) as X.
    destruct (Float.scale2 m 1 (- e)) as [p q].
    cbn [Float.shortest_from]. unfold Float.candidates.
    destruct (Float.scale10 p q (D - n)) as [p' q']. destruct X as [Xr Xb].
    rewrite Xr. cbn [Z.eqb find]. rewrite Xb. exact Xb.
  - specialize (IH (n + 1) m e D Hv Hm ltac:(lia) ltac:(lia)).
    destruct (Float.scale2 m 1 (- e)) as [p q].
    cbn [Float.shortest_from].
    destruct (Float.candidates p q D n) as [cs k].
    destruct (find (Float.reads_back m e k) cs) as [c|] eqn:F.
    + apply find_some in F. tauto.
    + exact IH.
Qed.

Lemma decimal_exponent_from_le (fuel : nat) (D p q : Z) :
  Float.decimal_exponent_from fuel D p q <= D + Z.of_nat fuel.
Proof.
  revert D. induction fuel as [|fuel IH]; intros D; cbn [Float.decimal_exponent_from]; [lia|].
  destruct (Float.scale10 p q D) as [p' q'].
  destruct (p' <? q'); [lia|]. specialize (IH (D + 1)). lia.
Qed.

Lemma decimal_exponent_bound (m e : Z) :
  valid_fin m e -> 0 < m ->
  let '(p, q) := Float.scale2 m 1 (- e) in Float.decimal_exponent p q <= 320.
Proof.
  intros (Hm & He & _) Hpos.
  assert (L : let '(p, q) := Float.scale2 m 1 (- e) in Z.log2 p - Z.log2 q <= 1023).
  { unfold Float.scale2. destruct (Z.leb_spec 0 (- e)).
    - pose proof (Z.log2_nonneg (1 * 2 ^ (- e))).
      assert (Z.log2 m < 53) by (apply Z.log2_lt_pow2; lia). lia.
    - replace (- - e) with e by lia. change (Z.log2 1) with 0.
      assert (Z.log2 (m * 2 ^ e) < 1024); [|lia].
      assert (0 < 2 ^ e) by (apply Z.pow_pos_nonneg; lia).
      apply Z.log2_lt_pow2; [nia|].
      assert (2 ^ e <= 2 ^ 971) by (apply Z.pow_le_mono_r; lia).
      change (2 ^ 1024) with (2 ^ 53 * 2 ^ 971). nia. }
  destruct (Float.scale2 m 1 (- e)) as [p q]. unfold Float.decimal_exponent.
  pose proof (decimal_exponent_from_le 8 ((Z.log2 p - Z.log2 q) * 1233 / 4096 - 2) p q) as B.
  assert ((Z.log2 p - Z.log2 q) * 1233 / 4096 <= 1023 * 1233 / 4096)
    by (apply Z.div_le_mono; lia).
  change (1023 * 1233 / 4096) with 307 in *. simpl Z.of_nat in B. lia.
Qed.

(** The search of [shortest_digits] ends on a decimal that reads back. *)
Lemma shortest_reads_back (m e : Z) :
  valid_fin m e -> 0 < m ->
  let '(p, q) := Float.scale2 m 1 (- e) in
  let '(c, k) := Float.shortest_from Float.max_digits 1 m e p q
                   (Float.decimal_exponent p q) in
  Float.reads_back m e k c = true.
Proof.
  intros Hv Hm.
  pose proof (decimal_exponent_bound m e Hv Hm) as B.
  destruct (Float.scale2 m 1 (- e)) as [p q] eqn:E.
  pose proof (shortest_from_reads_back Float.max_digits 1 m e
                (Float.decimal_exponent p q) Hv Hm) as S.
  rewrite E in S. apply S; destruct Hv as (_ & He & _);
    change (Z.of_nat Float.max_digits) with 1400; lia.
Qed.

End DigitSearch.

Section DigitsValue.

Let step (acc : Z) (c : ascii) : Z := acc * 10 + Float.digit_val c.

Lemma digits_value_acc (d : Decimal.uint) (acc : positive) :
  Z.pos (Pos.of_uint_acc d acc)
  = fold_left step (chars (DecimalString.NilEmpty.string_of_uint d)) (Z.pos acc).
Proof.
  revert acc. induction d; intros acc; cbn [Pos.of_uint_acc]; [reflexivity|..];
    cbn [DecimalString.NilEmpty.string_of_uint chars list_ascii_of_string fold_left];
    fold (chars (DecimalString.NilEmpty.string_of_uint d));
    rewrite IHd; f_equal; unfold step, Float.digit_val;
    simpl (Z.of_N (N_of_ascii _)); lia.
Qed.

Lemma digits_value_of_uint (d : Decimal.uint) :
  Z.of_N (Pos.of_uint d)
  = Float.digits_value (chars (DecimalString.NilEmpty.string_of_uint d)).
Proof.
  unfold Float.digits_value. fold step.
  induction d; cbn [Pos.of_uint]; [reflexivity|..];
    cbn [DecimalString.NilEmpty.string_of_uint chars list_ascii_of_string fold_left];
    fold (chars (DecimalString.NilEmpty.string_of_uint d));
    [exact IHd|..]; cbn [Z.of_N]; rewrite digits_value_acc; reflexivity.
Qed.

Lemma digits_value_digits_of (n : Z) :
  0 <= n -> Float.digits_value (Float.digits_of n) = n.
Proof.
  intros Hn. unfold Float.digits_of, DecimalString.NilZero.string_of_uint.
  pose proof (DecimalN.Unsigned.of_to (Z.to_N n)) as E. unfold N.of_uint in E.
  destruct (N.to_uint (Z.to_N n)) eqn:U;
    try (rewrite <- digits_value_of_uint, E; lia).
  cbn in E. cbn. lia.
Qed.

Lemma digits_value_app (a b : list ascii) :
  Float.digits_value (a ++ b)
  = Float.digits_value a * 10 ^ Z.of_nat (length b) + Float.digits_value b.
Proof.
  unfold Float.digits_value. fold step. rewrite fold_left_app.
  generalize (fold_left step a 0). revert a.
  induction b as [|c b IH]; intros a v.
  - cbn. lia.
  - cbn [fold_left length]. rewrite (IH a), (IH a (step 0 c)).
    rewrite Nat2Z.inj_succ, Z.pow_succ_r by lia. unfold step. ring.
Qed.

Lemma digits_value_zeros (n : nat) : Float.digits_value (repeat "0"%char n) = 0.
Proof.
  unfold Float.digits_value. fold step. induction n as [|n IH]; [reflexivity|].
  cbn [repeat fold_left]. exact IH.
Qed.

Lemma digits_value_nonneg (l : list ascii) :
  forallb is_digit l = true -> 0 <= Float.digits_value l.
Proof.
  unfold Float.digits_value. fold step.
  assert (G : forall v, 0 <= v -> forallb is_digit l = true -> 0 <= fold_left step l v).
  { induction l as [|c l IH]; intros v Hv Hl; [exact Hv|].
    cbn [fold_left forallb] in *. apply andb_prop in Hl as [Hc Hl].
    apply IH; [|exact Hl]. unfold step, Float.digit_val.
    unfold is_digit, Float.is_digit in Hc.
    apply andb_prop in Hc as [H1 H2]. apply N.leb_le in H1. lia. }
  apply G. lia.
Qed.

End DigitsValue.

Section ParseBack.

Lemma strip_zeros_rev_spec (l : list ascii) :
  exists z, l = repeat "0"%char z ++ Float.strip_zeros_rev l.
Proof.
  induction l as [|c l [z IH]]; [exists 0%nat; reflexivity|].
  destruct c as [[] [] [] [] [] [] [] []];
    try (exists 0%nat; reflexivity).
  exists (S z). cbn [Float.strip_zeros_rev repeat app]. f_equal. exact IH.
Qed.

Lemma strip_trailing_zeros_spec (l : list ascii) :
  exists z, l = Float.strip_trailing_zeros l ++ repeat "0"%char z.
Proof.
  unfold Float.strip_trailing_zeros.
  destruct (strip_zeros_rev_spec (rev l)) as [z E]. exists z.
  apply (f_equal (@rev ascii)) in E. rewrite rev_involutive, rev_app_distr in E.
  rewrite E at 1. f_equal. clear. induction z as [|z IH]; [reflexivity|].
  cbn [repeat rev]. rewrite IH. clear. induction z; cbn; congruence.
Qed.

Lemma span_digits_app (ds rest : list ascii) :
  forallb is_digit ds = true -> stops is_digit rest ->
  Float.span_digits (ds ++ rest) = (ds, rest).
Proof.
  intros Hd Hr. induction ds as [|c ds IH]; cbn [app].
  - destruct rest as [|c rest]; [reflexivity|]. cbn in Hr |- *.
    unfold is_digit in Hr. rewrite Hr. reflexivity.
  - cbn [forallb] in Hd. apply andb_prop in Hd as [Hc Hd].
    cbn [Float.span_digits]. unfold is_digit in Hc. rewrite Hc, (IH Hd). reflexivity.
Qed.

Lemma split_sign_digit (c : ascii) (t : list ascii) :
  is_digit c = true -> Float.split_sign (c :: t) = (false, c :: t).
Proof.
  destruct c as [[] [] [] [] [] [] [] []]; try discriminate; reflexivity.
Qed.

Lemma split_sign_text (neg : bool) (c : ascii) (t : list ascii) :
  is_digit c = true ->
  Float.split_sign (Float.sign_text neg ++ c :: t) = (neg, c :: t).
Proof.
  intros Hc. destruct neg; [reflexivity|]. apply split_sign_digit, Hc.
Qed.

Lemma digits_of_nonempty (n : Z) : Float.digits_of n <> [].
Proof.
  unfold Float.digits_of, DecimalString.NilZero.string_of_uint.
  destruct (N.to_uint (Z.to_N n)); discriminate.
Qed.

Lemma scale10_spec (d k a : Z) :
  0 <= a -> 0 <= k + a ->
  0 < snd (Float.scale10 d 1 (- k)) /\
  fst (Float.scale10 d 1 (- k)) * 10 ^ a
  = d * 10 ^ (k + a) * snd (Float.scale10 d 1 (- k)).
Proof.
  intros Ha Hk. unfold Float.scale10.
  destruct (Z.leb_spec 0 (- k)); cbn [fst snd].
  - assert (0 < 10 ^ (- k)) by (apply Z.pow_pos_nonneg; lia).
    split; [lia|].
    replace (10 ^ a) with (10 ^ (k + a) * 10 ^ (- k)); [ring|].
    rewrite <- Z.pow_add_r by lia. f_equal. lia.
  - split; [lia|]. replace (- - k) with k by lia.
    rewrite (Z.add_comm k a), Z.pow_add_r by lia. ring.
Qed.

(** Two decimals with the same value are the same float. *)
Lemma of_decimal_same (neg : bool) (d k d' k' a : Z) :
  0 <= d -> 0 <= d' -> 0 <= a -> 0 <= k + a -> 0 <= k' + a ->
  d * 10 ^ (k + a) = d' * 10 ^ (k' + a) ->
  Float.of_decimal neg d k = Float.of_decimal neg d' k'.
Proof.
  intros Hd Hd' Ha Hk Hk' E. unfold Float.of_decimal.
  destruct (scale10_spec d k a Ha Hk) as [Q P].
  destruct (scale10_spec d' k' a Ha Hk') as [Q' P'].
  destruct (Float.scale10 d 1 (- k)) as [p q], (Float.scale10 d' 1 (- k')) as [p' q'].
  cbn [fst snd] in *.
  assert (T : 0 < 10 ^ a) by (apply Z.pow_pos_nonneg; lia).
  assert (T1 : 0 <= 10 ^ (k + a)) by (apply Z.pow_nonneg; lia).
  assert (T2 : 0 <= 10 ^ (k' + a)) by (apply Z.pow_nonneg; lia).
  assert (Hp : 0 <= p).
  { apply (Z.mul_le_mono_pos_r 0 p (10 ^ a) T). rewrite P, Z.mul_0_l.
    apply Z.mul_nonneg_nonneg; nia. }
  assert (Hp' : 0 <= p').
  { apply (Z.mul_le_mono_pos_r 0 p' (10 ^ a) T). rewrite P', Z.mul_0_l.
    apply Z.mul_nonneg_nonneg; nia. }
  apply of_ratio_ratio; try assumption.
  - apply (Z.mul_reg_r _ _ (10 ^ a)); [lia|].
    transitivity (d * 10 ^ (k + a) * q * q'); [rewrite <- P; ring|].
    rewrite E. rewrite <- Z.mul_assoc, (Z.mul_comm q q'), Z.mul_assoc, <- P'. ring.
Qed.

Lemma of_ratio_sign (neg : bool) (p q m e : Z) :
  Float.of_ratio false p q = FFin false m e ->
  Float.of_ratio neg p q = FFin neg m e.
Proof.
  unfold Float.of_ratio. destruct (p <=? 0); [intros [= <- <-]; reflexivity|].
  destruct (Float.scale2 _ _ _) as [p1 q1].
  destruct (Float.round_half_even p1 q1 =? 2 ^ 53);
    (destruct (971 <? _); [discriminate|]); intros [= <- <-]; reflexivity.
Qed.


Lemma span_digits_all (ds : list ascii) :
  forallb is_digit ds = true -> Float.span_digits ds = (ds, []).
Proof.
  intros H. rewrite <- (app_nil_r ds) at 1. apply span_digits_app; [exact H|exact I].
Qed.

(** The exponent field reads back as the exponent. *)
Lemma exponent_text_parse (x : Z) :
  exists d ds,
    Float.split_sign (Float.exponent_text x) = (x <? 0, d :: ds) /\
    Float.span_digits (d :: ds) = (d :: ds, []) /\
    Float.digits_value (d :: ds) = Z.abs x.
Proof.
  unfold Float.exponent_text.
  set (body := (if Z.abs x <? 10 then ["0"%char] else []) ++ Float.digits_of (Z.abs x)).
  assert (Hd : forallb is_digit body = true).
  { unfold body. rewrite forallb_app, digits_of_digits.
    destruct (Z.abs x <? 10); reflexivity. }
  assert (Hv : Float.digits_value body = Z.abs x).
  { unfold body. rewrite digits_value_app, digits_value_digits_of by lia.
    destruct (Z.abs x <? 10); cbn; lia. }
  assert (Hn : body <> []).
  { unfold body. intros E. apply app_eq_nil in E as [_ E].
    exact (digits_of_nonempty _ E). }
  destruct body as [|d ds]; [congruence|]. exists d, ds.
  split; [destruct (x <? 0); reflexivity|].
  split; [apply span_digits_all, Hd|exact Hv].
Qed.

(** A literal with integer part [ip] and fraction [fp]. *)
Lemma of_text_fixed (neg : bool) (ip fp : list ascii) :
  forallb is_digit ip = true -> forallb is_digit fp = true -> ip <> [] ->
  Float.of_text (Float.sign_text neg ++ ip ++ "."%char :: fp)
  = Some (Float.of_decimal neg (Float.digits_value (ip ++ fp)) (- Z.of_nat (length fp))).
Proof.
  intros Hi Hf Hn. destruct ip as [|c ip]; [congruence|].
  unfold Float.of_text. cbn [app].
  cbn [forallb] in Hi. apply andb_prop in Hi as [Hc Hi].
  rewrite (split_sign_text neg c _ Hc).
  change (c :: ip ++ "."%char :: fp) with ((c :: ip) ++ "."%char :: fp).
  rewrite span_digits_app; [|cbn [forallb]; rewrite Hc, Hi; reflexivity|reflexivity].
  rewrite (span_digits_all fp Hf). reflexivity.
Qed.

(** A literal with integer part [ip], fraction [fp] and exponent [x]. *)
Lemma of_text_exp (neg : bool) (ip fp : list ascii) (x : Z) :
  forallb is_digit ip = true -> forallb is_digit fp = true -> ip <> [] ->
  Float.of_text (Float.sign_text neg ++ ip ++ "."%char :: fp ++ "e"%char :: Float.exponent_text x)
  = Some (Float.of_decimal neg (Float.digits_value (ip ++ fp)) (x - Z.of_nat (length fp))).
Proof.
  intros Hi Hf Hn. destruct ip as [|c ip]; [congruence|].
  unfold Float.of_text. cbn [app].
  cbn [forallb] in Hi. apply andb_prop in Hi as [Hc Hi].
  rewrite (split_sign_text neg c _ Hc).
  change (c :: ip ++ "."%char :: fp ++ "e"%char :: Float.exponent_text x)
    with ((c :: ip) ++ "."%char :: fp ++ "e"%char :: Float.exponent_text x).
  rewrite span_digits_app; [|cbn [forallb]; rewrite Hc, Hi; reflexivity|reflexivity].
  rewrite (span_digits_app fp _ Hf); [|reflexivity].
  destruct (exponent_text_parse x) as (d & ds & E1 & E2 & E3).
  cbn [app]. rewrite E1, E2, E3. do 2 f_equal.
  destruct (Z.ltb_spec x 0); lia.
Qed.

(** A literal with integer part [ip] and exponent [x], without fraction. *)
Lemma of_text_exp_int (neg : bool) (ip : list ascii) (x : Z) :
  forallb is_digit ip = true -> ip <> [] ->
  Float.of_text (Float.sign_text neg ++ ip ++ "e"%char :: Float.exponent_text x)
  = Some (Float.of_decimal neg (Float.digits_value ip) x).
Proof.
  intros Hi Hn. destruct ip as [|c ip]; [congruence|].
  unfold Float.of_text. cbn [app].
  cbn [forallb] in Hi. apply andb_prop in Hi as [Hc Hi].
  rewrite (split_sign_text neg c _ Hc).
  change (c :: ip ++ "e"%char :: Float.exponent_text x)
    with ((c :: ip) ++ "e"%char :: Float.exponent_text x).
  rewrite span_digits_app; [|cbn [forallb]; rewrite Hc, Hi; reflexivity|reflexivity].
  destruct (exponent_text_parse x) as (d & ds & E1 & E2 & E3).
  rewrite app_nil_r. cbn [app]. rewrite E1, E2, E3. do 2 f_equal.
  destruct (Z.ltb_spec x 0); cbn [length Z.of_nat]; lia.
Qed.

End ParseBack.

Section ReprReadsBack.

Lemma forallb_firstn_skipn_digits (n : nat) (ds : list ascii) :
  forallb is_digit ds = true ->
  forallb is_digit (firstn n ds) = true /\ forallb is_digit (skipn n ds) = true.
Proof.
  intros H. rewrite <- (firstn_skipn n ds), forallb_app in H.
  apply andb_prop in H. exact H.
Qed.

Lemma repeat_zero_digits (n : nat) : forallb is_digit (repeat "0"%char n) = true.
Proof. induction n as [|n IH]; [reflexivity|exact IH]. Qed.

(** The text of [format_repr] reads as 0.d1...dn * 10^decpt. *)
Lemma of_text_format_repr (neg : bool) (ds : list ascii) (decpt : Z) :
  forallb is_digit ds = true -> ds <> [] ->
  Float.of_text (Float.sign_text neg ++ Float.format_repr ds decpt)
  = Some (Float.of_decimal neg (Float.digits_value ds) (decpt - Z.of_nat (length ds))).
Proof.
  intros Hd Hn. unfold Float.format_repr.
  destruct ((decpt <=? -4) || (16 <? decpt)).
  { destruct ds as [|d [|d' rest]]; [congruence|..].
    - change (d :: "e"%char :: Float.exponent_text (decpt - 1))
        with ([d] ++ "e"%char :: Float.exponent_text (decpt - 1)).
      rewrite (of_text_exp_int neg [d] (decpt - 1) Hd Hn).
      do 2 f_equal; cbn [length Z.of_nat]; lia.
    - change (d :: "."%char :: (d' :: rest) ++ "e"%char :: Float.exponent_text (decpt - 1))
        with ([d] ++ "."%char :: (d' :: rest) ++ "e"%char :: Float.exponent_text (decpt - 1)).
      cbn [forallb] in Hd. apply andb_prop in Hd as [Hd1 Hd2].
      rewrite (of_text_exp neg [d] (d' :: rest) (decpt - 1));
        [|cbn [forallb]; rewrite Hd1; reflexivity|exact Hd2|discriminate].
      do 2 f_equal; cbn [length]; lia. }
  destruct (Z.leb_spec decpt 0) as [L|L].
  { change (chars "0." ++ repeat "0"%char (Z.to_nat (- decpt)) ++ ds)
      with (["0"%char] ++ "."%char :: repeat "0"%char (Z.to_nat (- decpt)) ++ ds).
    rewrite of_text_fixed;
      [|reflexivity|rewrite forallb_app, repeat_zero_digits; exact Hd|discriminate].
    f_equal. f_equal.
    - rewrite (digits_value_app ["0"%char]), digits_value_app, digits_value_zeros.
      cbn [Float.digits_value fold_left]. unfold Float.digit_val.
      simpl (Z.of_N (N_of_ascii _)). lia.
    - rewrite length_app, repeat_length. lia. }
  destruct (Z.leb_spec (Z.of_nat (length ds)) decpt) as [L'|L'].
  { set (n := (Z.to_nat decpt - length ds)%nat).
    rewrite (app_assoc ds). change (chars ".0") with ("."%char :: ["0"%char]).
    rewrite of_text_fixed;
      [|rewrite forallb_app, repeat_zero_digits, Hd; reflexivity|reflexivity
       |destruct ds; [congruence|discriminate]].
    f_equal. pose proof (digits_value_nonneg ds Hd) as P.
    assert (T : 0 <= 10 ^ Z.of_nat n) by (apply Z.pow_nonneg; lia).
    assert (M : Float.digits_value ((ds ++ repeat "0"%char n) ++ ["0"%char])
                = Float.digits_value ds * 10 ^ (Z.of_nat n + 1)).
    { rewrite !digits_value_app, digits_value_zeros, repeat_length.
      rewrite Z.pow_add_r by lia. cbn. lia. }
    rewrite M. change (- Z.of_nat (length ["0"%char])) with (-1).
    assert (0 <= 10 ^ (Z.of_nat n + 1)) by (apply Z.pow_nonneg; lia).
    assert (0 <= Float.digits_value ds * 10 ^ (Z.of_nat n + 1)) by nia.
    apply (of_decimal_same neg _ _ _ _ 1); try lia.
    change (-1 + 1) with 0.
    replace (decpt - Z.of_nat (length ds) + 1) with (Z.of_nat n + 1) by lia.
    ring. }
  destruct (forallb_firstn_skipn_digits (Z.to_nat decpt) ds Hd) as [H1 H2].
  rewrite of_text_fixed; [|exact H1|exact H2|].
  - rewrite firstn_skipn. do 2 f_equal. rewrite length_skipn. lia.
  - destruct ds as [|d ds]; [congruence|].
    destruct (Z.to_nat decpt) eqn:E; [lia|discriminate].
Qed.

Lemma of_decimal_nonpos (neg : bool) (c k : Z) :
  c <= 0 -> Float.of_decimal neg c k = FFin neg 0 (-1074).
Proof.
  intros Hc. unfold Float.of_decimal, Float.scale10.
  destruct (0 <=? - k); unfold Float.of_ratio.
  - destruct (Z.leb_spec c 0); [reflexivity|lia].
  - assert (0 <= 10 ^ (- - k)) by (apply Z.pow_nonneg; lia).
    destruct (Z.leb_spec (c * 10 ^ (- - k)) 0); [reflexivity|nia].
Qed.

Lemma of_decimal_sign (neg : bool) (c k m e : Z) :
  Float.of_decimal false c k = FFin false m e ->
  Float.of_decimal neg c k = FFin neg m e.
Proof.
  unfold Float.of_decimal. destruct (Float.scale10 c 1 (- k)) as [p q].
  apply of_ratio_sign.
Qed.

(** The digits [repr] prints denote the float itself. *)
Lemma shortest_digits_value (neg : bool) (m e : Z) :
  valid_fin m e ->
  let '(ds, decpt) := Float.shortest_digits m e in
  forallb is_digit ds = true /\ ds <> [] /\
  Float.of_decimal neg (Float.digits_value ds) (decpt - Z.of_nat (length ds))
  = FFin neg m e.
Proof.
  intros Hv. unfold Float.shortest_digits.
  destruct (Z.leb_spec m 0) as [L|L].
  { split; [reflexivity|]. split; [discriminate|].
    destruct Hv as (Hm & He & Hs). assert (m = 0) by lia. subst m.
    rewrite (Hs ltac:(lia)). apply of_decimal_nonpos. cbn. lia. }
  pose proof (shortest_reads_back m e Hv L) as R.
  destruct (Float.scale2 m 1 (- e)) as [p q].
  destruct (Float.shortest_from _ _ _ _ _ _ _) as [c k].
  unfold Float.reads_back in R. apply float_eqb_eq in R.
  assert (Hc : 0 < c).
  { destruct (Z.ltb_spec 0 c) as [G|G]; [exact G|].
    rewrite (of_decimal_nonpos false c k G) in R. injection R as R _. lia. }
  destruct (strip_trailing_zeros_spec (Float.digits_of c)) as [z Z0].
  set (ds := Float.strip_trailing_zeros (Float.digits_of c)) in *.
  pose proof (digits_of_digits c) as D. rewrite Z0, forallb_app in D.
  apply andb_prop in D as [D _].
  pose proof (digits_value_digits_of c ltac:(lia)) as V.
  rewrite Z0, digits_value_app, digits_value_zeros, repeat_length in V.
  split; [exact D|]. split.
  { intros E. rewrite E in V. cbn in V. lia. }
  rewrite Z0, length_app, repeat_length.
  apply of_decimal_sign with (neg := neg) in R. rewrite <- R.
  pose proof (digits_value_nonneg ds D) as P.
  apply (of_decimal_same neg _ _ _ _ (Z.abs k)); try lia.
  replace (k + Z.of_nat (length ds + z) - Z.of_nat (length ds) + Z.abs k)
    with (Z.of_nat z + (k + Z.abs k)) by lia.
  rewrite Z.pow_add_r by lia. rewrite <- V. ring.
Qed.

Lemma float_eqb_refl (f : pyfloat) : f <> FNan -> Float.eqb f f = true.
Proof.
  destruct f as [|b|b m e]; [congruence|intros _..]; cbn.
  - destruct b; reflexivity.
  - rewrite !Z.eqb_refl. destruct b; reflexivity.
Qed.

(** [float(repr(x)) == x] for every finite binary64 [x]. *)
Lemma repr_reads_back (neg : bool) (m e : Z) :
  valid_fin m e -> Float.reads_back_from_repr (FFin neg m e) = true.
Proof.
  intros Hv. unfold Float.reads_back_from_repr, Float.repr.
  pose proof (shortest_digits_value neg m e Hv) as S.
  destruct (Float.shortest_digits m e) as [ds decpt].
  destruct S as (D & N & V).
  rewrite (of_text_format_repr neg ds decpt D N), V.
  apply float_eqb_refl. discriminate.
Qed.

End ReprReadsBack.

Lemma valid_valid_fin (neg : bool) (m e : Z) :
  Float.valid (FFin neg m e) = true -> valid_fin m e.
Proof.
  unfold Float.valid. intros H.
  repeat (apply andb_prop in H as [H ?]).
  unfold valid_fin. split; [lia|]. split; [lia|].
  intros Hm. apply orb_prop in H0 as [H0|H0]; lia.
Qed.

(** A binary64 reads back from its repr. *)
Lemma valid_reads_back (f : pyfloat) :
  Float.valid f = true -> Float.reads_back_from_repr f = true.
Proof.
  destruct f as [| |neg m e]; try reflexivity.
  intros H. apply repr_reads_back. exact (valid_valid_fin neg m e H).
Qed.

(** ** Floats outside the positional range *)

Section ExponentNotation.

Lemma positional_no_e (t : list ascii) : In "e"%char t -> positional t = false.
Proof.
  unfold positional. induction t as [|c t IH]; intros H; [destruct H|].
  cbn [forallb]. destruct H as [E|H].
  - subst c. reflexivity.
  - rewrite (IH H). apply andb_false_r.
Qed.

Lemma format_repr_exponent (ds : list ascii) (decpt : Z) :
  ds <> [] -> decpt <= -4 \/ 16 < decpt -> In "e"%char (Float.format_repr ds decpt).
Proof.
  intros Hn Hr. unfold Float.format_repr.
  replace ((decpt <=? -4) || (16 <? decpt)) with true
    by (symmetry; apply orb_true_iff; lia).
  destruct ds as [|d [|d' rest]]; [congruence|..].
  - right. left. reflexivity.
  - right. right. apply in_or_app. right. left. reflexivity.
Qed.

Lemma floatstr_exponent (neg : bool) (m e : Z) :
  valid_fin m e ->
  Float.decpt (FFin neg m e) <= -4 \/ 16 < Float.decpt (FFin neg m e) ->
  positional (Json.floatstr (FFin neg m e)) = false.
Proof.
  intros Hv. unfold Float.decpt, Json.floatstr, Float.repr.
  pose proof (shortest_digits_value neg m e Hv) as S.
  destruct (Float.shortest_digits m e) as [ds decpt]. cbn [snd].
  destruct S as (_ & Hn & _). intros Hr.
  apply positional_no_e, in_or_app. right.
  exact (format_repr_exponent ds decpt Hn Hr).
Qed.

End ExponentNotation.

(** ** The range of positional notation *)

Section PositionalRange.

Lemma to_uint_normal (n : N) : Decimal.unorm (N.to_uint n) = N.to_uint n.
Proof.
  rewrite <- (DecimalN.Unsigned.of_to n) at 2.
  symmetry. apply DecimalN.Unsigned.to_of.
Qed.

Lemma to_uint_no_leading_zero (n : N) (d : Decimal.uint) :
  N.to_uint n = Decimal.D0 d -> d = Decimal.Nil.
Proof.
  intros E. pose proof (to_uint_normal n) as U. rewrite E in U.
  rewrite DecimalFacts.unorm_D0 in U.
  destruct d as [|d|d|d|d|d|d|d|d|d|d]; [reflexivity|..];
    (match goal with
     | U : Decimal.unorm ?u = _ |- _ =>
         pose proof (DecimalFacts.nb_digits_unorm u ltac:(discriminate)) as B
     end; rewrite U in B; cbn [Decimal.nb_digits] in B; lia).
Qed.

Lemma digits_of_no_leading_zero (n : Z) : no_leading_zero (Float.digits_of n).
Proof.
  unfold Float.digits_of, DecimalString.NilZero.string_of_uint.
  destruct (N.to_uint (Z.to_N n)) as [|d|d|d|d|d|d|d|d|d|d] eqn:E;
    try (right; eexists _, _; split; [reflexivity|discriminate]).
  - left. reflexivity.
  - left. apply to_uint_no_leading_zero in E. subst d. reflexivity.
Qed.

Lemma digits_value_lower (d : ascii) (ds : list ascii) :
  Float.is_digit d = true -> d <> "0"%char ->
  forallb Float.is_digit ds = true ->
  10 ^ Z.of_nat (length ds) <= Float.digits_value (d :: ds).
Proof.
  intros Hd Hz Hds.
  change (d :: ds) with ([d] ++ ds). rewrite digits_value_app.
  pose proof (digits_value_nonneg ds Hds) as P.
  assert (1 <= Float.digits_value [d]).
  { cbn. unfold Float.digit_val.
    destruct d as [[] [] [] [] [] [] [] []]; try discriminate Hd; try congruence;
      cbn; lia. }
  assert (0 < 10 ^ Z.of_nat (length ds)) by (apply Z.pow_pos_nonneg; lia).
  nia.
Qed.

Lemma digits_of_at_most (k : nat) (n : Z) :
  (0 < k)%nat -> n < 10 ^ Z.of_nat k -> (length (Float.digits_of n) <= k)%nat.
Proof.
  intros Hk Hn.
  assert (E : Float.digits_of n = Float.digits_of (Z.max n 0)).
  { unfold Float.digits_of. f_equal. f_equal. f_equal. lia. }
  rewrite E. set (n' := Z.max n 0).
  assert (Hn' : 0 <= n' < 10 ^ Z.of_nat k).
  { unfold n'. assert (0 < 10 ^ Z.of_nat k) by (apply Z.pow_pos_nonneg; lia). lia. }
  clearbody n'. clear E Hn n.
  pose proof (digits_value_digits_of n' ltac:(lia)) as V.
  pose proof (digits_of_digits n') as D.
  destruct (digits_of_no_leading_zero n') as [E|(d & rest & E & Hz)]; rewrite E in *.
  - cbn [length]. lia.
  - cbn [forallb] in D. apply andb_prop in D as [Hd Hr].
    pose proof (digits_value_lower d rest Hd Hz Hr) as L.
    cbn [length].
    destruct (Nat.le_gt_cases k (length rest)) as [G|G]; [|lia].
    assert (P : 10 ^ Z.of_nat k <= 10 ^ Z.of_nat (length rest))
      by (apply Z.pow_le_mono_r; lia).
    lia.
Qed.

Lemma scale10_pair (p q k : Z) :
  Float.scale10 p q k = (p * 10 ^ Z.max (- k) 0, q * 10 ^ Z.max k 0).
Proof.
  unfold Float.scale10. destruct (Z.leb_spec 0 k).
  - rewrite (Z.max_r (- k) 0), (Z.max_l k 0) by lia. rewrite Z.mul_1_r. reflexivity.
  - rewrite (Z.max_l (- k) 0), (Z.max_r k 0) by lia. rewrite Z.mul_1_r. reflexivity.
Qed.

Lemma pow10_shift (a d : Z) :
  0 <= d ->
  10 ^ Z.max (a + d) 0 * 10 ^ Z.max (- a) 0
  = 10 ^ Z.max (- (a + d)) 0 * 10 ^ Z.max a 0 * 10 ^ d.
Proof.
  intros Hd. rewrite <- !Z.pow_add_r by lia. f_equal. lia.
Qed.

Lemma pow10_pos (k : Z) : 0 < 10 ^ Z.max k 0.
Proof. apply Z.pow_pos_nonneg; lia. Qed.

Lemma below_pow10_shift (p q a d : Z) :
  0 < q -> 0 <= d ->
  (below_pow10 p q (a + d)
   <-> fst (Float.scale10 p q a) < snd (Float.scale10 p q a) * 10 ^ d).
Proof.
  intros Hq Hd. unfold below_pow10. rewrite !scale10_pair. cbn [fst snd].
  pose proof (pow10_shift a d Hd) as I.
  pose proof (pow10_pos (a + d)) as P1. pose proof (pow10_pos (- a)) as P2.
  pose proof (pow10_pos (- (a + d))) as P3. pose proof (pow10_pos a) as P4.
  assert (T : 0 < 10 ^ d) by (apply Z.pow_pos_nonneg; lia).
  revert I P1 P2 P3 P4 T.
  generalize (10 ^ Z.max (a + d) 0) (10 ^ Z.max (- a) 0)
             (10 ^ Z.max (- (a + d)) 0) (10 ^ Z.max a 0) (10 ^ d).
  intros E A C B T I P1 P2 P3 P4 HT.
  split; intros H.
  - apply (Z.mul_lt_mono_pos_r C); [exact P3|].
    replace (q * B * T * C) with (q * (C * B * T)) by ring.
    rewrite <- I. replace (q * (E * A)) with (q * E * A) by ring.
    replace (p * A * C) with (p * C * A) by ring.
    apply Z.mul_lt_mono_pos_r; assumption.
  - apply (Z.mul_lt_mono_pos_r A); [exact P2|].
    replace (q * E * A) with (q * (E * A)) by ring. rewrite I.
    replace (q * (C * B * T)) with (q * B * T * C) by ring.
    replace (p * C * A) with (p * A * C) by ring.
    apply Z.mul_lt_mono_pos_r; assumption.
Qed.

Lemma below_pow10_mono (p q a b : Z) :
  0 < p -> 0 < q -> a <= b -> below_pow10 p q a -> below_pow10 p q b.
Proof.
  intros Hp Hq Hab H.
  replace b with (a + (b - a)) by lia.
  apply below_pow10_shift; [assumption|lia|].
  unfold below_pow10 in H. rewrite scale10_pair in *. cbn [fst snd] in *.
  assert (T : 1 <= 10 ^ (b - a)) by (apply Z.lt_pred_le, Z.pow_pos_nonneg; lia).
  pose proof (pow10_pos a) as P4.
  assert (0 < q * 10 ^ Z.max a 0) by (apply Z.mul_pos_pos; assumption).
  nia.
Qed.

Lemma decimal_exponent_from_spec (p q : Z) (fuel : nat) :
  forall D0 : Z,
    ~ below_pow10 p q (D0 - 1) ->
    below_pow10 p q (D0 + Z.of_nat fuel) ->
    below_pow10 p q (Float.decimal_exponent_from fuel D0 p q)
    /\ ~ below_pow10 p q (Float.decimal_exponent_from fuel D0 p q - 1).
Proof.
  induction fuel as [|fuel IH]; intros D0 Hlo Hhi.
  - cbn [Float.decimal_exponent_from]. rewrite Z.add_0_r in Hhi. split; assumption.
  - cbn [Float.decimal_exponent_from].
    destruct (Float.scale10 p q D0) as [p' q'] eqn:E.
    destruct (Z.ltb_spec p' q') as [T|T].
    + split; [|exact Hlo]. unfold below_pow10. rewrite E. exact T.
    + apply IH.
      * replace (D0 + 1 - 1) with D0 by lia. unfold below_pow10. rewrite E.
        cbn [fst snd]. lia.
      * replace (D0 + 1 + Z.of_nat fuel) with (D0 + Z.of_nat (S fuel)) by lia. exact Hhi.
Qed.

Lemma pow2_shift (b hi lo : Z) :
  0 <= hi -> 0 <= lo -> b = hi - lo ->
  2 ^ Z.max b 0 * 2 ^ lo = 2 ^ hi * 2 ^ Z.max (- b) 0.
Proof. intros Hh Hl ->. rewrite <- !Z.pow_add_r by lia. f_equal. lia. Qed.

Lemma above_pow10 (p q a b : Z) :
  0 < p -> 0 < q ->
  pow10_le_pow2 a b = true -> b = Z.log2 p - (Z.log2 q + 1) ->
  ~ below_pow10 p q a.
Proof.
  intros Hp Hq T Hb. unfold below_pow10. rewrite scale10_pair. cbn [fst snd].
  apply Z.leb_le in T.
  destruct (log2_bounds p Hp) as (La & Pa), (log2_bounds q Hq) as (Lb & Pb).
  pose proof (pow2_shift b (Z.log2 p) (Z.log2 q + 1) La ltac:(lia) Hb) as I.
  rewrite Z.pow_add_r in I by lia. change (2 ^ 1) with 2 in I.
  pose proof (pow10_pos a) as P1. pose proof (pow10_pos (- a)) as P2.
  assert (P3 : 0 < 2 ^ Z.max b 0) by (apply Z.pow_pos_nonneg; lia).
  assert (P4 : 0 < 2 ^ Z.max (- b) 0) by (apply Z.pow_pos_nonneg; lia).
  revert T I P1 P2 P3 P4 Pa Pb.
  generalize (10 ^ Z.max a 0) (10 ^ Z.max (- a) 0) (2 ^ Z.max b 0)
             (2 ^ Z.max (- b) 0) (2 ^ Z.log2 p) (2 ^ Z.log2 q).
  intros X Y V U A B T I P1 P2 P3 P4 Pa Pb.
  apply Z.le_ngt.
  apply (Z.mul_le_mono_pos_r _ _ U); [exact P4|].
  apply Z.le_trans with (B * 2 * X * U); [nia|].
  apply Z.le_trans with (B * 2 * (V * Y)); [nia|].
  replace (B * 2 * (V * Y)) with (V * (B * 2) * Y) by ring. rewrite I. nia.
Qed.

Lemma under_pow10 (p q a b : Z) :
  0 < p -> 0 < q ->
  pow2_le_pow10 b a = true -> b = Z.log2 p + 1 - Z.log2 q ->
  below_pow10 p q a.
Proof.
  intros Hp Hq T Hb. unfold below_pow10. rewrite scale10_pair. cbn [fst snd].
  apply Z.leb_le in T.
  destruct (log2_bounds p Hp) as (La & Pa), (log2_bounds q Hq) as (Lb & Pb).
  pose proof (pow2_shift b (Z.log2 p + 1) (Z.log2 q) ltac:(lia) Lb Hb) as I.
  rewrite Z.pow_add_r in I by lia. change (2 ^ 1) with 2 in I.
  pose proof (pow10_pos a) as P1. pose proof (pow10_pos (- a)) as P2.
  assert (P3 : 0 < 2 ^ Z.max b 0) by (apply Z.pow_pos_nonneg; lia).
  assert (P4 : 0 < 2 ^ Z.max (- b) 0) by (apply Z.pow_pos_nonneg; lia).
  revert T I P1 P2 P3 P4 Pa Pb.
  generalize (10 ^ Z.max a 0) (10 ^ Z.max (- a) 0) (2 ^ Z.max b 0)
             (2 ^ Z.max (- b) 0) (2 ^ Z.log2 p) (2 ^ Z.log2 q).
  intros X Y V U A B T I P1 P2 P3 P4 Pa Pb.
  apply (Z.mul_lt_mono_pos_r U); [exact P4|].
  apply Z.lt_le_trans with (A * 2 * U * Y); [nia|].
  rewrite <- I.
  apply Z.le_trans with (B * (V * Y)); [nia|].
  apply Z.le_trans with (B * (X * U)); [nia|]. nia.
Qed.

Lemma pow2_max_shift (b d : Z) :
  0 <= d ->
  2 ^ Z.max (b + d) 0 * 2 ^ Z.max (- b) 0
  = 2 ^ Z.max (- (b + d)) 0 * 2 ^ Z.max b 0 * 2 ^ d.
Proof.
  intros Hd. rewrite <- !Z.pow_add_r by lia. f_equal. lia.
Qed.

Lemma pow2_pos (k : Z) : 0 < 2 ^ Z.max k 0.
Proof. apply Z.pow_pos_nonneg; lia. Qed.

Lemma pow10_le_pow2_mono (a b b' : Z) :
  pow10_le_pow2 a b = true -> b <= b' -> pow10_le_pow2 a b' = true.
Proof.
  unfold pow10_le_pow2. intros H Hb. apply Z.leb_le in H. apply Z.leb_le.
  pose proof (pow2_max_shift b (b' - b) ltac:(lia)) as I.
  replace (b + (b' - b)) with b' in I by lia.
  assert (T : 1 <= 2 ^ (b' - b)) by (apply Z.lt_pred_le, Z.pow_pos_nonneg; lia).
  pose proof (pow2_pos b) as P1. pose proof (pow2_pos (- b)) as P2.
  pose proof (pow2_pos b') as P3. pose proof (pow2_pos (- b')) as P4.
  pose proof (pow10_pos a) as P5. pose proof (pow10_pos (- a)) as P6.
  revert H I T P1 P2 P3 P4 P5 P6.
  generalize (10 ^ Z.max a 0) (10 ^ Z.max (- a) 0) (2 ^ Z.max b 0) (2 ^ Z.max (- b) 0)
             (2 ^ Z.max b' 0) (2 ^ Z.max (- b') 0) (2 ^ (b' - b)).
  intros X Y V U V' U' t H I T P1 P2 P3 P4 P5 P6.
  apply (Z.mul_le_mono_pos_r _ _ U); [exact P2|].
  apply Z.le_trans with (X * U * U'); [nia|].
  apply Z.le_trans with (V * Y * U'); [nia|].
  replace (V' * Y * U) with (V' * U * Y) by ring. rewrite I.
  assert (0 < U' * V * Y) by (repeat apply Z.mul_pos_pos; assumption).
  nia.
Qed.

Lemma pow2_le_pow10_mono (a b b' : Z) :
  pow2_le_pow10 b a = true -> b' <= b -> pow2_le_pow10 b' a = true.
Proof.
  unfold pow2_le_pow10. intros H Hb. apply Z.leb_le in H. apply Z.leb_le.
  pose proof (pow2_max_shift b' (b - b') ltac:(lia)) as I.
  replace (b' + (b - b')) with b in I by lia.
  assert (T : 1 <= 2 ^ (b - b')) by (apply Z.lt_pred_le, Z.pow_pos_nonneg; lia).
  pose proof (pow2_pos b) as P1. pose proof (pow2_pos (- b)) as P2.
  pose proof (pow2_pos b') as P3. pose proof (pow2_pos (- b')) as P4.
  pose proof (pow10_pos a) as P5. pose proof (pow10_pos (- a)) as P6.
  revert H I T P1 P2 P3 P4 P5 P6.
  generalize (10 ^ Z.max a 0) (10 ^ Z.max (- a) 0) (2 ^ Z.max b 0) (2 ^ Z.max (- b) 0)
             (2 ^ Z.max b' 0) (2 ^ Z.max (- b') 0) (2 ^ (b - b')).
  intros X Y V U V' U' t H I T P1 P2 P3 P4 P5 P6.
  (* V' Y <= X U', from V Y <= X U and V U' = U V' t *)
  apply (Z.mul_le_mono_pos_r _ _ U); [exact P2|].
  apply Z.le_trans with (V' * U * t * Y).
  { assert (0 < V' * Y * U) by (repeat apply Z.mul_pos_pos; assumption). nia. }
  replace (V' * U * t) with (U * V' * t) by ring.
  replace (U * V' * t) with (V * U') by (rewrite I; ring).
  apply Z.le_trans with (V * Y * U'); [nia|].
  apply Z.le_trans with (X * U * U'); [nia|]. nia.
Qed.

Lemma block_table (j : Z) : -135 <= j <= 127 -> block_ok j = true.
Proof.
  intros Hj.
  assert (T : forallb block_ok (map (fun i => -135 + Z.of_nat i) (seq 0 263)) = true)
    by (vm_compute; reflexivity).
  rewrite forallb_forall in T. apply T.
  apply in_map_iff. exists (Z.to_nat (j + 135)). split; [lia|].
  apply in_seq. lia.
Qed.

Lemma first_exponent_mono (L L' : Z) : L <= L' -> first_exponent L <= first_exponent L'.
Proof.
  intros H. unfold first_exponent.
  assert (L * 1233 / 4096 <= L' * 1233 / 4096) by (apply Z.div_le_mono; lia). lia.
Qed.

(** The first guess is below the decimal exponent of the value and less
    than eight below it. *)
Lemma first_exponent_bounds (p q : Z) :
  0 < p -> 0 < q -> -1074 <= Z.log2 p - Z.log2 q <= 1023 ->
  ~ below_pow10 p q (first_exponent (Z.log2 p - Z.log2 q) - 1)
  /\ below_pow10 p q (first_exponent (Z.log2 p - Z.log2 q) + 8).
Proof.
  intros Hp Hq HL. set (L := Z.log2 p - Z.log2 q) in *.
  set (j := L / 8).
  assert (Hj : 8 * j <= L <= 8 * j + 7).
  { unfold j. pose proof (Z.div_mod L 8 ltac:(lia)).
    pose proof (Z.mod_pos_bound L 8 ltac:(lia)). lia. }
  assert (Rj : -135 <= j <= 127) by lia.
  pose proof (block_table j Rj) as G. unfold block_ok in G.
  apply andb_prop in G as [G1 G2].
  split.
  - intros Hb.
    apply (above_pow10 p q (first_exponent (8 * j + 7) - 1) (L - 1) Hp Hq).
    + apply (pow10_le_pow2_mono _ (8 * j - 1)); [exact G1 | lia].
    + unfold L. lia.
    + apply (below_pow10_mono p q (first_exponent L - 1)); [assumption..| |exact Hb].
      pose proof (first_exponent_mono L (8 * j + 7) ltac:(lia)). lia.
  - apply (below_pow10_mono p q (first_exponent (8 * j) + 8)); [assumption..| |].
    + pose proof (first_exponent_mono (8 * j) L ltac:(lia)). lia.
    + apply (under_pow10 p q _ (L + 1) Hp Hq).
      * apply (pow2_le_pow10_mono _ (8 * j + 8)); [exact G2 | lia].
      * unfold L. lia.
Qed.

(** The value p/q of a positive binary64 and the difference of the bit
    lengths that [decimal_exponent] starts from. *)
Lemma scale2_log2 (m e : Z) :
  valid_fin m e -> 0 < m ->
  0 < fst (Float.scale2 m 1 (- e)) /\ 0 < snd (Float.scale2 m 1 (- e)) /\
  -1074 <= Z.log2 (fst (Float.scale2 m 1 (- e))) - Z.log2 (snd (Float.scale2 m 1 (- e)))
        <= 1023.
Proof.
  intros (Hm & He & _) Hpos.
  assert (Lm : 0 <= Z.log2 m < 53)
    by (split; [apply Z.log2_nonneg | apply Z.log2_lt_pow2; lia]).
  unfold Float.scale2. destruct (Z.leb_spec 0 (- e)); cbn [fst snd].
  - rewrite Z.mul_1_l, Z.log2_pow2 by lia.
    split; [lia|]. split; [apply Z.pow_pos_nonneg; lia | lia].
  - replace (- - e) with e by lia. change (Z.log2 1) with 0.
    rewrite Z.log2_mul_pow2 by lia.
    assert (0 < 2 ^ e) by (apply Z.pow_pos_nonneg; lia).
    split; [nia|]. split; lia.
Qed.

Lemma decimal_exponent_spec (m e : Z) :
  valid_fin m e -> 0 < m ->
  let p := fst (Float.scale2 m 1 (- e)) in
  let q := snd (Float.scale2 m 1 (- e)) in
  below_pow10 p q (Float.decimal_exponent p q)
  /\ ~ below_pow10 p q (Float.decimal_exponent p q - 1).
Proof.
  intros Hv Hm p q. destruct (scale2_log2 m e Hv Hm) as (Hp & Hq & HL).
  fold p q in Hp, Hq, HL.
  destruct (first_exponent_bounds p q Hp Hq HL) as [G1 G2].
  unfold Float.decimal_exponent.
  apply decimal_exponent_from_spec; assumption.
Qed.

Lemma candidates_bounds (p q D n : Z) :
  0 < p -> 0 < q -> 1 <= n ->
  below_pow10 p q D -> ~ below_pow10 p q (D - 1) ->
  snd (Float.candidates p q D n) = D - n /\
  fst (Float.candidates p q D n) <> [] /\
  forall c, In c (fst (Float.candidates p q D n)) -> 10 ^ (n - 1) <= c <= 10 ^ n.
Proof.
  intros Hp Hq Hn Hb Ha.
  assert (Hb' := Hb). assert (Ha' := Ha).
  replace D with (D - n + n) in Hb' by lia.
  replace (D - 1) with (D - n + (n - 1)) in Ha' by lia.
  rewrite below_pow10_shift in Hb', Ha' by lia.
  unfold Float.candidates.
  assert (Q : 0 < snd (Float.scale10 p q (D - n))).
  { rewrite scale10_pair. cbn [snd]. apply Z.mul_pos_pos; [exact Hq | apply pow10_pos]. }
  destruct (Float.scale10 p q (D - n)) as [p' q']. cbn [fst snd] in *.
  assert (T : 10 ^ n = 10 * 10 ^ (n - 1)).
  { rewrite <- Z.pow_succ_r by lia. f_equal. lia. }
  assert (T0 : 0 < 10 ^ (n - 1)) by (apply Z.pow_pos_nonneg; lia).
  assert (L : 10 ^ (n - 1) <= p' / q' < 10 ^ n).
  { split.
    - apply Z.div_le_lower_bound; lia.
    - apply Z.div_lt_upper_bound; lia. }
  split; [reflexivity|].
  destruct (p' mod q' =? 0);
    [|destruct (2 * (p' mod q') <? q');
      [|destruct (q' <? 2 * (p' mod q')); [|destruct (Z.even (p' / q'))]]];
    (split; [discriminate|]); cbn [In]; intros c Hc; lia.
Qed.

Lemma shortest_from_shape (m e p q D : Z) (fuel : nat) :
  0 < p -> 0 < q ->
  below_pow10 p q D -> ~ below_pow10 p q (D - 1) ->
  forall n : Z,
    1 <= n ->
    exists n' : Z,
      n <= n' /\
      snd (Float.shortest_from fuel n m e p q D) = D - n' /\
      10 ^ (n' - 1) <= fst (Float.shortest_from fuel n m e p q D) <= 10 ^ n'.
Proof.
  intros Hp Hq Hb Ha.
  induction fuel as [|fuel IH]; intros n Hn;
    destruct (candidates_bounds p q D n Hp Hq Hn Hb Ha) as (Ek & Ne & Bc);
    cbn [Float.shortest_from];
    destruct (Float.candidates p q D n) as [cs k]; cbn [fst snd] in *.
  - exists n. split; [lia|].
    destruct (find (Float.reads_back m e k) cs) as [c|] eqn:F; cbn [fst snd].
    + apply find_some in F. split; [exact Ek | apply Bc; tauto].
    + split; [exact Ek|]. destruct cs as [|c cs]; [congruence|].
      apply Bc. left. reflexivity.
  - destruct (find (Float.reads_back m e k) cs) as [c|] eqn:F; cbn [fst snd].
    + exists n. split; [lia|]. apply find_some in F.
      split; [exact Ek | apply Bc; tauto].
    + destruct (IH (n + 1) ltac:(lia)) as (n' & Hn' & R). exists n'. split; [lia | exact R].
Qed.

Lemma digits_value_upper (ds : list ascii) :
  forallb is_digit ds = true ->
  Float.digits_value ds < 10 ^ Z.of_nat (length ds).
Proof.
  induction ds as [|d ds IH] using rev_ind; intros H; [cbn; lia|].
  rewrite forallb_app in H. apply andb_prop in H as [H1 H2].
  rewrite digits_value_app, length_app. cbn [length forallb] in *.
  rewrite Nat2Z.inj_add, Z.pow_add_r by lia.
  change (10 ^ Z.of_nat 1) with 10.
  specialize (IH H1).
  assert (V : Float.digits_value [d] <= 9).
  { rewrite andb_true_r in H2. cbn. unfold Float.digit_val.
    destruct d as [[] [] [] [] [] [] [] []]; try discriminate H2; cbn; lia. }
  lia.
Qed.

Lemma digits_of_count (c n : Z) :
  1 <= n -> 10 ^ (n - 1) <= c <= 10 ^ n ->
  Z.of_nat (length (Float.digits_of c)) = (if c =? 10 ^ n then n + 1 else n).
Proof.
  intros Hn Hc.
  assert (T0 : 0 < 10 ^ (n - 1)) by (apply Z.pow_pos_nonneg; lia).
  pose proof (digits_value_upper _ (digits_of_digits c)) as U.
  rewrite digits_value_digits_of in U by lia.
  set (len := length (Float.digits_of c)) in *.
  assert (Lo : forall j : Z, 0 <= j -> 10 ^ j <= c -> j < Z.of_nat len).
  { intros j Hj Hle. destruct (Z.lt_ge_cases j (Z.of_nat len)) as [G|G]; [exact G|].
    assert (10 ^ Z.of_nat len <= 10 ^ j) by (apply Z.pow_le_mono_r; lia). lia. }
  assert (Hi : forall j : nat, (0 < j)%nat -> c < 10 ^ Z.of_nat j -> (len <= j)%nat)
    by (intros j Hj Hlt; apply digits_of_at_most; assumption).
  destruct (Z.eqb_spec c (10 ^ n)) as [E|E].
  - pose proof (Lo n ltac:(lia) ltac:(lia)).
    assert (len <= Z.to_nat (n + 1))%nat.
    { apply Hi; [lia|]. rewrite Z2Nat.id by lia. rewrite E.
      apply Z.pow_lt_mono_r; lia. }
    lia.
  - pose proof (Lo (n - 1) ltac:(lia) ltac:(lia)).
    assert (len <= Z.to_nat n)%nat.
    { apply Hi; [lia|]. rewrite Z2Nat.id by lia. lia. }
    lia.
Qed.

(** The position of the decimal point of the shortest digits is the
    decimal exponent of the value, or one more when the digits were rounded
    up to a power of ten, which then reads back as the value. *)
Lemma decpt_exponent (m e : Z) :
  valid_fin m e -> 0 < m ->
  let p := fst (Float.scale2 m 1 (- e)) in
  let q := snd (Float.scale2 m 1 (- e)) in
  let D := Float.decimal_exponent p q in
  snd (Float.shortest_digits m e) = D
  \/ (snd (Float.shortest_digits m e) = D + 1
      /\ Float.of_ratio false (fst (Float.scale10 1 1 (- D))) (snd (Float.scale10 1 1 (- D)))
         = FFin false m e).
Proof.
  intros Hv Hm p q D.
  destruct (scale2_log2 m e Hv Hm) as (Hp & Hq & _).
  destruct (decimal_exponent_spec m e Hv Hm) as (Hb & Ha).
  pose proof (shortest_reads_back m e Hv Hm) as R.
  unfold Float.shortest_digits. destruct (Z.leb_spec m 0) as [|_]; [lia|].
  fold p q in Hp, Hq, Hb, Ha. fold D in Hb, Ha.
  destruct (Float.scale2 m 1 (- e)) as [p0 q0]. cbn [fst snd] in p, q.
  subst p q. fold D in R |- *.
  destruct (shortest_from_shape m e p0 q0 D Float.max_digits Hp Hq Hb Ha 1 ltac:(lia))
    as (n & Hn & Ek & Bc).
  destruct (Float.shortest_from Float.max_digits 1 m e p0 q0 D) as [c k].
  cbn [fst snd] in *. subst k.
  rewrite (digits_of_count c n Hn Bc).
  destruct (Z.eqb_spec c (10 ^ n)) as [E|E]; [right|left; lia].
  split; [lia|]. subst c.
  unfold Float.reads_back in R. apply float_eqb_eq in R. rewrite <- R.
  unfold Float.of_decimal.
  destruct (scale10_spec (10 ^ n) (D - n) (Z.max (n - D) 0) ltac:(lia) ltac:(lia)) as [S1 S2].
  destruct (scale10_spec 1 D (Z.max (- D) 0) ltac:(lia) ltac:(lia)) as [S3 S4].
  destruct (Float.scale10 (10 ^ n) 1 (- (D - n))) as [a b].
  destruct (Float.scale10 1 1 (- D)) as [a' b']. cbn [fst snd] in *.
  assert (A0 : 0 <= a).
  { assert (0 < 10 ^ Z.max (n - D) 0) by (apply Z.pow_pos_nonneg; lia).
    assert (0 <= 10 ^ n * 10 ^ (D - n + Z.max (n - D) 0) * b)
      by (apply Z.mul_nonneg_nonneg; [apply Z.mul_nonneg_nonneg; apply Z.pow_nonneg|]; lia).
    nia. }
  assert (A0' : 0 <= a').
  { assert (0 < 10 ^ Z.max (- D) 0) by (apply Z.pow_pos_nonneg; lia).
    assert (0 <= 1 * 10 ^ (D + Z.max (- D) 0) * b')
      by (apply Z.mul_nonneg_nonneg; [apply Z.mul_nonneg_nonneg; [lia|apply Z.pow_nonneg; lia]|lia]).
    nia. }
  apply of_ratio_ratio; try assumption.
  (* a / b = 10^D = a' / b' *)
  set (u := Z.max (n - D) 0) in *. set (v := Z.max (- D) 0) in *.
  assert (Tu : 0 < 10 ^ u) by (apply Z.pow_pos_nonneg; lia).
  assert (Tv : 0 < 10 ^ v) by (apply Z.pow_pos_nonneg; lia).
  apply (Z.mul_cancel_r _ _ (10 ^ u * 10 ^ v)); [lia|].
  replace (a' * b * (10 ^ u * 10 ^ v)) with ((a' * 10 ^ v) * b * 10 ^ u) by ring.
  replace (a * b' * (10 ^ u * 10 ^ v)) with ((a * 10 ^ u) * b' * 10 ^ v) by ring.
  rewrite S2, S4.
  replace (10 ^ n * 10 ^ (D - n + u)) with (10 ^ (D + u))
    by (rewrite <- Z.pow_add_r by lia; f_equal; lia).
  replace (1 * 10 ^ (D + v) * b' * b * 10 ^ u) with (10 ^ (D + v) * 10 ^ u * (b * b')) by ring.
  replace (10 ^ (D + u) * b * b' * 10 ^ v) with (10 ^ (D + u) * 10 ^ v * (b * b')) by ring.
  f_equal. rewrite <- !Z.pow_add_r by lia. f_equal. lia.
Qed.

Lemma in_positional_range_spec (m e : Z) :
  in_positional_range m e = true
  <-> below_pow10 (fst (Float.scale2 m 1 (- e))) (snd (Float.scale2 m 1 (- e))) 16
      /\ ~ below_pow10 (fst (Float.scale2 m 1 (- e))) (snd (Float.scale2 m 1 (- e))) (-4).
Proof.
  unfold in_positional_range, below_pow10.
  destruct (Float.scale2 m 1 (- e)) as [p q]. cbn [fst snd].
  unfold Float.scale10.
  change (0 <=? 16) with true. change (0 <=? -4) with false. cbn [fst snd].
  rewrite andb_true_iff, Z.leb_le, Z.ltb_lt.
  change (- -4) with 4. generalize (10 ^ 16) (10 ^ 4). intros. lia.
Qed.

(** [repr] is positional exactly for the values from 1e-4 up to 1e16. *)
Lemma decpt_positional_range (m e : Z) :
  valid_fin m e -> 0 < m ->
  (in_positional_range m e = true <-> -4 < snd (Float.shortest_digits m e) <= 16).
Proof.
  intros Hv Hm. rewrite in_positional_range_spec.
  destruct (scale2_log2 m e Hv Hm) as (Hp & Hq & _).
  destruct (decimal_exponent_spec m e Hv Hm) as (Hb & Ha).
  pose proof (decpt_exponent m e Hv Hm) as X. cbv zeta in X, Hb, Ha.
  set (p := fst (Float.scale2 m 1 (- e))) in *.
  set (q := snd (Float.scale2 m 1 (- e))) in *.
  set (D := Float.decimal_exponent p q) in *.
  assert (R : (below_pow10 p q 16 /\ ~ below_pow10 p q (-4)) <-> -4 < D <= 16).
  { split.
    - intros [H16 H4]. split.
      + destruct (Z.lt_ge_cases (-4) D) as [G|G]; [exact G|].
        exfalso. apply H4. apply (below_pow10_mono p q D); assumption || lia.
      + destruct (Z.lt_ge_cases 16 D) as [G|G]; [|lia].
        exfalso. apply Ha. apply (below_pow10_mono p q 16); assumption || lia.
    - intros [G1 G2]. split.
      + apply (below_pow10_mono p q D); assumption || lia.
      + intros H4. apply Ha. apply (below_pow10_mono p q (-4)); assumption || lia. }
  rewrite R.
  destruct X as [-> | [-> Hc]]; [tauto|].
  (* rounded up to 10^D: D is neither 16 nor -4 *)
  assert (N16 : D <> 16).
  { intros E16. rewrite E16 in Hc, Hb. vm_compute in Hc. injection Hc as Em Ee.
    revert Hb. subst p q. rewrite <- Em, <- Ee. vm_compute. discriminate. }
  assert (N4 : D <> -4).
  { intros E4. rewrite E4 in Hc, Hb. vm_compute in Hc. injection Hc as Em Ee.
    revert Hb. subst p q. rewrite <- Em, <- Ee. vm_compute. discriminate. }
  lia.
Qed.

End PositionalRange.

(** ** Notation of numbers *)

Lemma floatstr_positional (neg : bool) (m e : Z) :
  -4 < Float.decpt (FFin neg m e) <= 16 ->
  positional (Json.floatstr (FFin neg m e)) = true.
Proof.
  unfold Float.decpt, Json.floatstr, Float.repr.
  pose proof (shortest_digits_digits m e) as Hd.
  destruct (Float.shortest_digits m e) as [ds decpt]. cbn [fst snd] in *.
  intros Hr. unfold positional. rewrite forallb_app.
  fold (positional (Float.format_repr ds decpt)).
  rewrite format_repr_positional by assumption.
  destruct neg; reflexivity.
Qed.

(** C6, as the code has it. Numbers are rendered by a fixed function of the
    value, with '.' as the only decimal separator. An int is written
    positionally; a finite float is written positionally exactly when it is
    zero or 1e-4 <= |x| < 1e16, and with an exponent otherwise; the text of
    a finite float never holds a character other than digits, '-', '+', '.'
    and 'e'. *)
Theorem number_text_shape :
  (forall z : Z, positional (Json.int_repr z) = true) /\
  (forall (neg : bool) (m e : Z),
      Float.valid (FFin neg m e) = true ->
      positional (Json.floatstr (FFin neg m e))
      = (m =? 0) || in_positional_range m e) /\
  (forall (neg : bool) (m e : Z),
      forallb scientific_char (Json.floatstr (FFin neg m e)) = true).
Proof.
  split; [exact int_repr_positional|]. split; [|exact floatstr_finite_scientific].
  intros neg m e Hv. pose proof (valid_valid_fin neg m e Hv) as Hf.
  destruct (Z.eqb_spec m 0) as [E0|N0]; cbn [orb].
  - subst m. apply floatstr_positional. cbn. lia.
  - assert (Hm : 0 < m) by (destruct Hf as ((? & ?) & _); lia).
    pose proof (decpt_positional_range m e Hf Hm) as R.
    destruct (in_positional_range m e).
    + apply floatstr_positional. apply R. reflexivity.
    + apply floatstr_exponent; [exact Hf|]. unfold Float.decpt.
      destruct (Z.le_gt_cases (snd (Float.shortest_digits m e)) (-4)) as [G|G];
        [left; exact G|].
      destruct (Z.lt_ge_cases 16 (snd (Float.shortest_digits m e))) as [G'|G'];
        [right; exact G'|].
      assert (false = true) by (apply R; lia). discriminate.
Qed.

(** C6, as stated, fails: a performance of 0.00001 is signed in scientific
    notation. *)
Lemma tiny_performance_is_scientific :
  Json.dumps_canonical (payload_of tiny_performance_claim) =
  Some (Json.dq ("{'artifact_hash':'2cf24dba5fb0a30e26e83b2ac5b9e29e1b161e5c1fa7425e73043362938b9824',"
     ++ "'hyperparameters':{'activation':'relu','layers':[128,64],'lr':0.001},"
     ++ "'miner_id':1,'nonce':7,'performance':1e-05,'task_id':'t1','timestamp':1700000000}"))
  /\ positional (Json.floatstr (performance tiny_performance_claim)) = false.
Proof. split; vm_compute; reflexivity. Qed.

Lemma number_text_shape_witness :
  (Float.valid (performance example_claim) = true /\
   in_positional_range 8286623314361713 (-53) = true /\
   positional (Json.floatstr (performance example_claim)) = true) /\
  (Float.valid (performance tiny_performance_claim) = true /\
   in_positional_range 5902958103587057 (-69) = false /\
   positional (Json.floatstr (performance tiny_performance_claim)) = false).
Proof.
  assert (E : performance example_claim = FFin false 8286623314361713 (-53))
    by (vm_compute; reflexivity).
  assert (E' : performance tiny_performance_claim = FFin false 5902958103587057 (-69))
    by (vm_compute; reflexivity).
  rewrite E, E'.
  assert (V : Float.valid (FFin false 8286623314361713 (-53)) = true)
    by (vm_compute; reflexivity).
  assert (V' : Float.valid (FFin false 5902958103587057 (-69)) = true)
    by (vm_compute; reflexivity).
  assert (R : in_positional_range 8286623314361713 (-53) = true)
    by (vm_compute; reflexivity).
  assert (R' : in_positional_range 5902958103587057 (-69) = false)
    by (vm_compute; reflexivity).
  split; (split; [assumption|]; split; [assumption|]).
  - rewrite (proj1 (proj2 number_text_shape) false 8286623314361713 (-53) V), R.
    reflexivity.
  - rewrite (proj1 (proj2 number_text_shape) false 5902958103587057 (-69) V'), R'.
    reflexivity.
Defined.

Section MappingLemmas.

Lemma str_eqb_eq (a b : pystr) : str_eqb a b = true <-> a = b.
Proof.
  revert b. induction a as [|x a IH]; intros [|y b]; simpl;
    try (split; [discriminate | congruence]); [tauto|].
  rewrite andb_true_iff, Z.eqb_eq, IH. split; [intros [-> ->] | intros [= -> ->]]; auto.
Qed.

Lemma distinct_NoDup (keys : list pystr) : distinct keys = true -> NoDup keys.
Proof.
  induction keys as [|k keys IH]; simpl; [constructor|].
  rewrite andb_true_iff, negb_true_iff. intros [Hk Hrest].
  constructor; [|apply IH, Hrest].
  intros Hin. assert (existsb (str_eqb k) keys = true); [|congruence].
  apply existsb_exists. exists k. split; [exact Hin | apply str_eqb_eq; reflexivity].
Qed.

Lemma Forall2_perm_l {A B : Type} (R : A -> B -> Prop) (l1 l2 : list A) (l3 : list B) :
  Permutation l1 l2 -> Forall2 R l2 l3 ->
  exists l0, Forall2 R l1 l0 /\ Permutation l0 l3.
Proof.
  intros Hp. revert l3.
  induction Hp as [|x l l' Hp IH|x y l|l l' l'' Hp1 IH1 Hp2 IH2]; intros l3 HF.
  - inversion HF; subst. exists []. split; constructor.
  - inversion HF as [|? b ? l3' Hxb HF']; subst.
    destruct (IH l3' HF') as (l0 & H0 & P0).
    exists (b :: l0). split; constructor; assumption.
  - inversion HF as [|? a ? l3' Hxa HF']; subst.
    inversion HF' as [|? b ? l3'' Hyb HF'']; subst.
    exists (b :: a :: l3''). split; [repeat constructor; assumption | apply perm_swap].
  - destruct (IH2 l3 HF) as (l0' & H0' & P0').
    destruct (IH1 l0' H0') as (l0 & H0 & P0).
    exists l0. split; [exact H0 | eapply Permutation_trans; eassumption].
Qed.

Variables isep ksep : list ascii.

Let enc := Json.encode true isep ksep.
Let enc_kv (kv : pystr * pyval) : option (pystr * list ascii) :=
  match enc (snd kv) with
  | Some t => Some (fst kv, t)
  | None => None
  end.

(** Encoding the values and sorting the items can be done in either order. *)
Lemma encode_insert_item (kv : pystr * pyval) (t : list ascii)
      (d : list (pystr * pyval)) (items : list (pystr * list ascii)) :
  enc (snd kv) = Some t ->
  Json.all_some (map enc_kv d) = Some items ->
  Json.all_some (map enc_kv (Json.insert_item kv d))
  = Some (Json.insert_item (fst kv, t) items).
Proof.
  intros Ht. revert items. induction d as [|x d IH]; intros items; cbn [map Json.all_some].
  - intros [= <-]. cbn. unfold enc_kv. rewrite Ht. reflexivity.
  - unfold enc_kv at 1. destruct (enc (snd x)) as [tx|] eqn:Ex; [|discriminate].
    destruct (Json.all_some (map enc_kv d)) as [r|] eqn:Er; [|discriminate].
    intros [= <-]. cbn [Json.insert_item fst].
    destruct (Json.str_leb (fst kv) (fst x)).
    + cbn [map Json.all_some]. unfold enc_kv at 1 2. rewrite Ht, Ex, Er. reflexivity.
    + cbn [map Json.all_some]. unfold enc_kv at 1. rewrite Ex, (IH r eq_refl).
      reflexivity.
Qed.

Lemma encode_sort_items (d : list (pystr * pyval)) (items : list (pystr * list ascii)) :
  Json.all_some (map enc_kv d) = Some items ->
  Json.all_some (map enc_kv (Json.sort_items d)) = Some (Json.sort_items items).
Proof.
  revert items. induction d as [|x d IH]; intros items; cbn [map Json.all_some].
  - intros [= <-]. reflexivity.
  - unfold enc_kv at 1. destruct (enc (snd x)) as [tx|] eqn:Ex; [|discriminate].
    destruct (Json.all_some (map enc_kv d)) as [r|] eqn:Er; [|discriminate].
    intros [= <-]. cbn [Json.sort_items fold_right].
    apply (encode_insert_item x tx); [exact Ex|].
    apply IH. reflexivity.
Qed.

End MappingLemmas.

Section Injectivity.

Let enc := Json.encode true (chars ",") (chars ":").
Let enc_kv (kv : pystr * pyval) : option (pystr * list ascii) :=
  match enc (snd kv) with
  | Some t => Some (fst kv, t)
  | None => None
  end.
Let item := Json.encode_item (chars ":").
Let tail (parts : list (list ascii)) : list ascii :=
  flat_map (fun q => chars "," ++ q) parts.

Lemma forallb_head {A : Type} (f : A -> bool) (x : A) (l : list A) :
  forallb f (x :: l) = true -> f x = true.
Proof. simpl. intros H. apply andb_prop in H. tauto. Qed.

Lemma enc_lead (v : pyval) (t : list ascii) :
  plain v = true -> enc v = Some t -> exists c t0, t = c :: t0 /\ lead v c.
Proof.
  destruct v as [|b|z|f|s|l|l|d|n]; cbn [plain]; intros Hp He;
    try discriminate Hp; unfold enc in He; cbn [Json.encode] in He.
  - injection He as <-. eexists _, _. split; reflexivity.
  - destruct b; injection He as <-; eexists _, _; split; reflexivity.
  - injection He as <-.
    pose proof (int_repr_chars z) as Hc. pose proof (int_repr_nonempty z) as Hn.
    destruct (Json.int_repr z) as [|c t0]; [congruence|].
    exists c, t0. split; [reflexivity | exact (forallb_head _ _ _ Hc)].
  - injection He as <-.
    destruct f as [|[]|neg m e]; try (eexists _, _; split; [reflexivity|]; cbn; auto).
    pose proof (repr_body_nonempty neg m e (valid_reads_back _ Hp)) as Hn.
    pose proof (format_repr_head (fst (Float.shortest_digits m e))
                  (snd (Float.shortest_digits m e)) (shortest_digits_digits m e)) as Hh.
    cbn [Json.floatstr]. unfold Float.repr.
    destruct (Float.shortest_digits m e) as [ds decpt]. cbn [fst snd] in *.
    destruct neg; cbn [Float.sign_text app].
    + eexists _, _. split; [reflexivity|]. left. reflexivity.
    + destruct (Float.format_repr ds decpt) as [|c t0]; [congruence|].
      exists c, t0. split; [reflexivity|]. left.
      unfold int_char. rewrite Hh. reflexivity.
  - injection He as <-. eexists _, _. split; reflexivity.
  - destruct (Json.all_some _); [|discriminate]. injection He as <-.
    eexists _, _. split; reflexivity.
  - destruct (Json.all_some _); [|discriminate]. injection He as <-.
    eexists _, _. split; reflexivity.
Qed.

Lemma lead_kind (v v' : pyval) (c : ascii) :
  lead v c -> lead v' c -> kind v = kind v'.
Proof.
  destruct v as [|[]|z|f|s|l|l|d|n], v' as [|[]|z'|f'|s'|l'|l'|d'|n'];
    cbn [lead kind]; try reflexivity; try contradiction;
    intros H H'; subst;
    repeat match goal with
           | H : _ \/ _ |- _ => destruct H as [H|H]
           end; subst; try discriminate; try (vm_compute in *; discriminate).
Qed.

Lemma lead_not_closing (v : pyval) (c : ascii) : lead v c -> not_closing c = true.
Proof.
  destruct v as [|[]|z|f|s|l|l|d|n]; cbn [lead]; try contradiction;
    try (intros ->; reflexivity);
    try (intros H; apply scientific_not_closing, int_char_scientific, H).
  intros [H|[->| ->]]; try reflexivity.
  apply scientific_not_closing, int_char_scientific, H.
Qed.

Lemma number_span (a b r r' : list ascii) :
  forallb not_closing a = true -> forallb not_closing b = true ->
  closing r -> closing r' -> a ++ r = b ++ r' -> a = b /\ r = r'.
Proof.
  intros Ha Hb Hr Hr'.
  assert (Hc : forall c, closing_char c = true -> not_closing c = false)
    by (intros c Hc; unfold not_closing; rewrite Hc; reflexivity).
  apply span_unique with (P := not_closing); auto using closing_stops.
Qed.

Lemma closing_tail (parts : list (list ascii)) (close : ascii) (r : list ascii) :
  closing_char close = true -> closing (tail parts ++ close :: r).
Proof. intros H. destruct parts; simpl; [exact H | reflexivity]. Qed.

Lemma join_cons (p : list ascii) (ps : list (list ascii)) :
  Json.join (chars ",") (p :: ps) = p ++ tail ps.
Proof. reflexivity. Qed.

Lemma list_tail_inj (l l' : list pyval) :
  Forall (fun v => plain v = true -> text_determines v) l ->
  forallb plain l = true -> forallb plain l' = true ->
  forall (parts parts' : list (list ascii)) (r r' : list ascii),
    Json.all_some (map enc l) = Some parts ->
    Json.all_some (map enc l') = Some parts' ->
    tail parts ++ "]"%char :: r = tail parts' ++ "]"%char :: r' ->
    Forall2 reordered l l' /\ r = r'.
Proof.
  revert l'. induction l as [|v l IH]; intros [|v' l'] HF Hp Hp' parts parts' r r';
    cbn [map Json.all_some].
  - intros [= <-] [= <-] [= ->]. split; constructor.
  - destruct (enc v'); [|discriminate]. destruct (Json.all_some _); [|discriminate].
    intros [= <-] [= <-]. discriminate.
  - destruct (enc v); [|discriminate]. destruct (Json.all_some _); [|discriminate].
    intros [= <-] [= <-]. discriminate.
  - destruct (enc v) as [t|] eqn:Ev; [|discriminate].
    destruct (Json.all_some (map enc l)) as [ps|] eqn:El; [|discriminate].
    destruct (enc v') as [t'|] eqn:Ev'; [|discriminate].
    destruct (Json.all_some (map enc l')) as [ps'|] eqn:El'; [|discriminate].
    intros [= <-] [= <-]. unfold tail. cbn [flat_map chars list_ascii_of_string app].
    fold (tail ps). fold (tail ps'). rewrite <- !app_assoc. intros [= E].
    cbn [forallb] in Hp, Hp'. apply andb_prop in Hp as [Hv Hl].
    apply andb_prop in Hp' as [Hv' Hl'].
    inversion HF as [|? ? Hdet HF']; subst.
    destruct (Hdet Hv v' _ _ t t' Hv'
                (closing_tail ps "]" r eq_refl) (closing_tail ps' "]" r' eq_refl)
                Ev Ev' E) as [Hr E'].
    destruct (IH l' HF' Hl Hl' ps ps' r r' eq_refl El' E') as [H2 ->].
    split; [constructor; assumption | reflexivity].
Qed.

Lemma list_body_inj (l l' : list pyval) :
  Forall (fun v => plain v = true -> text_determines v) l ->
  forallb plain l = true -> forallb plain l' = true ->
  forall (parts parts' : list (list ascii)) (r r' : list ascii),
    Json.all_some (map enc l) = Some parts ->
    Json.all_some (map enc l') = Some parts' ->
    Json.join (chars ",") parts ++ "]"%char :: r
    = Json.join (chars ",") parts' ++ "]"%char :: r' ->
    Forall2 reordered l l' /\ r = r'.
Proof.
  intros HF Hp Hp' parts parts' r r' El El' E.
  destruct l as [|v l], l' as [|v' l'].
  - cbn in El, El'. injection El as <-. injection El' as <-.
    cbn in E. injection E as ->. split; constructor.
  - exfalso. cbn [map Json.all_some] in El, El'. injection El as <-.
    destruct (enc v') as [t'|] eqn:Ev'; [|discriminate].
    destruct (Json.all_some _) as [ps'|]; [|discriminate]. injection El' as <-.
    cbn [forallb] in Hp'. apply andb_prop in Hp' as [Hv' _].
    destruct (enc_lead v' t' Hv' Ev') as (c & t0 & -> & Hc).
    apply lead_not_closing in Hc. cbn in E. injection E as <- _. discriminate Hc.
  - exfalso. cbn [map Json.all_some] in El, El'. injection El' as <-.
    destruct (enc v) as [t|] eqn:Ev; [|discriminate].
    destruct (Json.all_some _) as [ps|]; [|discriminate]. injection El as <-.
    cbn [forallb] in Hp. apply andb_prop in Hp as [Hv _].
    destruct (enc_lead v t Hv Ev) as (c & t0 & -> & Hc).
    apply lead_not_closing in Hc. cbn in E. injection E as -> _. discriminate Hc.
  - apply (list_tail_inj _ _ HF Hp Hp' parts parts' r r' El El').
    cbn [map Json.all_some] in El, El'.
    destruct (enc v); [|discriminate]. destruct (Json.all_some (map enc l)); [|discriminate].
    destruct (enc v'); [|discriminate]. destruct (Json.all_some (map enc l')); [|discriminate].
    injection El as <-. injection El' as <-.
    rewrite !join_cons in E. unfold tail. cbn [flat_map chars list_ascii_of_string app].
    rewrite <- !app_assoc in *. f_equal. exact E.
Qed.

Lemma tail_cons (q : list ascii) (qs : list (list ascii)) :
  tail (q :: qs) = ","%char :: q ++ tail qs.
Proof. reflexivity. Qed.

Lemma encode_item_inj (k k' : pystr) (t t' X X' : list ascii) :
  scalar_str k = true -> scalar_str k' = true ->
  item (k, t) ++ X = item (k', t') ++ X' -> k = k' /\ t ++ X = t' ++ X'.
Proof.
  intros Hk Hk'. unfold item, Json.encode_item. cbn [fst snd].
  rewrite <- !app_assoc. intros E.
  destruct (encode_str_inj k k' _ _ Hk Hk' E) as [-> E1].
  cbn [chars list_ascii_of_string app] in E1. injection E1 as E1. auto.
Qed.

Lemma dict_tail_inj (D D' : list (pystr * pyval)) :
  Forall (fun kv => plain (snd kv) = true -> text_determines (snd kv)) D ->
  forallb item_ok D = true -> forallb item_ok D' = true ->
  forall (its its' : list (pystr * list ascii)) (r r' : list ascii),
    Json.all_some (map enc_kv D) = Some its ->
    Json.all_some (map enc_kv D') = Some its' ->
    tail (map item its) ++ "}"%char :: r = tail (map item its') ++ "}"%char :: r' ->
    Forall2 same_item D D' /\ r = r'.
Proof.
  revert D'. induction D as [|[k v] D IH]; intros [|[k' v'] D'] HF Hp Hp' its its' r r';
    cbn [map Json.all_some].
  - intros [= <-] [= <-] [= ->]. split; constructor.
  - unfold enc_kv at 1. destruct (enc (snd (k', v'))); [|discriminate].
    destruct (Json.all_some _); [|discriminate].
    intros [= <-] [= <-]. discriminate.
  - unfold enc_kv at 1. destruct (enc (snd (k, v))); [|discriminate].
    destruct (Json.all_some _); [|discriminate].
    intros [= <-] [= <-]. discriminate.
  - unfold enc_kv at 1 3. cbn [fst snd].
    destruct (enc v) as [t|] eqn:Ev; [|discriminate].
    destruct (Json.all_some (map enc_kv D)) as [ps|] eqn:El; [|discriminate].
    destruct (enc v') as [t'|] eqn:Ev'; [|discriminate].
    destruct (Json.all_some (map enc_kv D')) as [ps'|] eqn:El'; [|discriminate].
    intros [= <-] [= <-]. cbn [map]. rewrite !tail_cons, <- !app_comm_cons, <- !app_assoc.
    intros E. apply (f_equal (@tl ascii)) in E. cbn [tl] in E.
    cbn [forallb] in Hp, Hp'. unfold item_ok at 1 in Hp. unfold item_ok at 1 in Hp'.
    cbn [fst snd] in Hp, Hp'.
    apply andb_prop in Hp as [Hkv Hl]. apply andb_prop in Hkv as [Hk Hv].
    apply andb_prop in Hp' as [Hkv' Hl']. apply andb_prop in Hkv' as [Hk' Hv'].
    destruct (encode_item_inj k k' _ _ _ _ Hk Hk' E) as [<- E1].
    inversion HF as [|? ? Hdet HF']; subst. cbn [snd] in Hdet.
    destruct (Hdet Hv v' _ _ t t' Hv'
                (closing_tail (map item ps) "}" r eq_refl)
                (closing_tail (map item ps') "}" r' eq_refl)
                Ev Ev' E1) as [Hr E'].
    destruct (IH D' HF' Hl Hl' ps ps' r r' eq_refl El' E') as [H2 ->].
    split; [constructor; [split; [reflexivity | exact Hr] | exact H2] | reflexivity].
Qed.

Lemma dict_body_inj (D D' : list (pystr * pyval)) :
  Forall (fun kv => plain (snd kv) = true -> text_determines (snd kv)) D ->
  forallb item_ok D = true -> forallb item_ok D' = true ->
  forall (its its' : list (pystr * list ascii)) (r r' : list ascii),
    Json.all_some (map enc_kv D) = Some its ->
    Json.all_some (map enc_kv D') = Some its' ->
    Json.join (chars ",") (map item its) ++ "}"%char :: r
    = Json.join (chars ",") (map item its') ++ "}"%char :: r' ->
    Forall2 same_item D D' /\ r = r'.
Proof.
  intros HF Hp Hp' its its' r r' El El' E.
  destruct D as [|kv D], D' as [|kv' D'].
  - cbn in El, El'. injection El as <-. injection El' as <-.
    cbn in E. injection E as ->. split; constructor.
  - exfalso. cbn [map Json.all_some] in El, El'. injection El as <-.
    unfold enc_kv at 1 in El'. destruct (enc (snd kv')); [|discriminate].
    destruct (Json.all_some _); [|discriminate]. injection El' as <-.
    cbn in E. discriminate E.
  - exfalso. cbn [map Json.all_some] in El, El'. injection El' as <-.
    unfold enc_kv at 1 in El. destruct (enc (snd kv)); [|discriminate].
    destruct (Json.all_some _); [|discriminate]. injection El as <-.
    cbn in E. discriminate E.
  - apply (dict_tail_inj _ _ HF Hp Hp' its its' r r' El El').
    cbn [map Json.all_some] in El, El'. unfold enc_kv at 1 in El.
    unfold enc_kv at 1 in El'.
    destruct (enc (snd kv)); [|discriminate].
    destruct (Json.all_some (map enc_kv D)); [|discriminate].
    destruct (enc (snd kv')); [|discriminate].
    destruct (Json.all_some (map enc_kv D')); [|discriminate].
    injection El as <-. injection El' as <-. cbn [map] in *.
    rewrite !join_cons in E. rewrite !tail_cons, <- !app_comm_cons.
    f_equal. exact E.
Qed.

Lemma item_ok_perm (d d' : list (pystr * pyval)) :
  Permutation d d' -> forallb item_ok d = true -> forallb item_ok d' = true.
Proof.
  intros Hp. rewrite !forallb_forall. intros H x Hx.
  apply H. eapply Permutation_in; [apply Permutation_sym, Hp | exact Hx].
Qed.

(** The canonical text of a plain value, followed by what may follow a
    value, determines the value up to the insertion order of its dicts. *)
Lemma encode_determines (v : pyval) : plain v = true -> text_determines v.
Proof.
  induction v as [|b|z|f|s|l IH|l IH|d IH|n] using pyval_nested_ind;
    intros Hp v' r r' t t' Hp' Hr Hr' He He' E;
    try discriminate Hp.
  all: destruct (enc_lead _ t Hp He) as (c & t0 & Et & Hc).
  all: destruct (enc_lead _ t' Hp' He') as (c' & t0' & Et' & Hc').
  all: assert (Ecc : c = c') by (subst t t'; cbn [app] in E; congruence).
  all: subst c'; pose proof (lead_kind _ _ _ Hc Hc') as Hk; clear Et Et' Hc Hc' t0 t0'.
  all: destruct v' as [|b'|z'|f'|s'|l'|l'|d'|n']; try discriminate Hk; try discriminate Hp'.
  all: unfold enc in He, He'; cbn [Json.encode] in He, He'.
  - injection He as <-. injection He' as <-. injection E as ->.
    split; [constructor | reflexivity].
  - destruct b, b'; injection He as <-; injection He' as <-; try discriminate E;
      injection E as ->; (split; [constructor | reflexivity]).
  - injection He as <-. injection He' as <-.
    destruct (number_span _ _ _ _ (int_repr_not_closing z) (int_repr_not_closing z')
                Hr Hr' E) as [Ez ->].
    apply int_repr_inj in Ez. subst. split; [constructor | reflexivity].
  - injection He as <-. injection He' as <-.
    destruct (number_span _ _ _ _ (int_repr_not_closing z) (floatstr_not_closing f')
                Hr Hr' E) as [Ez _].
    exfalso. exact (floatstr_not_int f' z (valid_reads_back _ Hp') (eq_sym Ez)).
  - injection He as <-. injection He' as <-.
    destruct (number_span _ _ _ _ (floatstr_not_closing f) (int_repr_not_closing z')
                Hr Hr' E) as [Ez _].
    exfalso. exact (floatstr_not_int f z' (valid_reads_back _ Hp) Ez).
  - injection He as <-. injection He' as <-.
    destruct (number_span _ _ _ _ (floatstr_not_closing f) (floatstr_not_closing f')
                Hr Hr' E) as [Ef ->].
    apply floatstr_inj in Ef; [|apply valid_reads_back; assumption..]. subst.
    split; [constructor | reflexivity].
  - injection He as <-. injection He' as <-.
    destruct (encode_str_inj s s' r r' Hp Hp' E) as [-> ->].
    split; [constructor | reflexivity].
  - fold enc in He, He'. cbn [plain] in Hp, Hp'.
    destruct (Json.all_some (map enc l)) as [parts|] eqn:El; [|discriminate].
    destruct (Json.all_some (map enc l')) as [parts'|] eqn:El'; [|discriminate].
    injection He as <-. injection He' as <-.
    cbn [app] in E. injection E as E. rewrite <- !app_assoc in E. cbn [app] in E.
    destruct (list_body_inj l l' IH Hp Hp' parts parts' r r' El El' E) as [H2 ->].
    split; [apply reordered_list, H2 | reflexivity].
  - fold enc in He, He'. cbn [plain] in Hp, Hp'.
    apply andb_prop in Hp as [Hnd Hp]. apply andb_prop in Hp' as [Hnd' Hp'].
    fold enc_kv in He, He'.
    destruct (Json.all_some (map enc_kv d)) as [its|] eqn:El; [|discriminate].
    destruct (Json.all_some (map enc_kv d')) as [its'|] eqn:El'; [|discriminate].
    injection He as <-. injection He' as <-.
    cbn [app] in E. injection E as E. rewrite <- !app_assoc in E. cbn [app] in E.
    apply (encode_sort_items (chars ",") (chars ":")) in El, El'.
    fold enc in El, El'. fold enc_kv in El, El'.
    assert (HF : Forall (fun kv => plain (snd kv) = true -> text_determines (snd kv))
                        (Json.sort_items d)).
    { eapply Permutation_Forall; [apply Permutation_sym, sort_items_perm | exact IH]. }
    destruct (dict_body_inj (Json.sort_items d) (Json.sort_items d') HF
                (item_ok_perm _ _ (Permutation_sym (sort_items_perm d)) Hp)
                (item_ok_perm _ _ (Permutation_sym (sort_items_perm d')) Hp')
                _ _ r r' El El' E) as [H2 ->].
    split; [|reflexivity].
    destruct (Forall2_perm_l same_item d (Json.sort_items d) (Json.sort_items d')
                (Permutation_sym (sort_items_perm d)) H2) as (d0 & H0 & P0).
    apply (reordered_dict d d0 d').
    + apply distinct_NoDup, Hnd.
    + exact H0.
    + eapply Permutation_trans; [exact P0 | apply sort_items_perm].
Qed.

End Injectivity.

Section ClaimInjectivity.

Lemma perm_same_keys {V : Type} (l l' : list (pystr * V)) :
  NoDup (map fst l) -> map fst l = map fst l' -> Permutation l l' -> l = l'.
Proof.
  revert l'. induction l as [|a l IH]; intros [|b l'] Hnd Hk Hp;
    try discriminate Hk; [reflexivity|].
  cbn [map] in Hk, Hnd. injection Hk as Hab Hk.
  inversion Hnd as [|? ? Ha Hnd']; subst.
  assert (E : a = b).
  { assert (Hin : In a (b :: l')) by (eapply Permutation_in; [exact Hp | now left]).
    destruct Hin as [->|Hin]; [reflexivity|].
    exfalso. apply Ha. rewrite Hk. apply in_map, Hin. }
  subst b. f_equal. apply IH; [exact Hnd' | exact Hk |].
  eapply Permutation_cons_inv, Hp.
Qed.

Lemma same_item_keys (d d0 : list (pystr * pyval)) :
  Forall2 same_item d d0 -> map fst d = map fst d0.
Proof. induction 1 as [|x y d d0 [Hk _] _ IH]; simpl; congruence. Qed.

Lemma utf8_text_inj (t t' : list ascii) :
  encode_utf8 (string_of_list_ascii t) = encode_utf8 (string_of_list_ascii t') ->
  t = t'.
Proof.
  unfold encode_utf8. intros E.
  apply (f_equal string_of_list_byte) in E.
  rewrite !string_of_list_byte_of_string in E.
  apply (f_equal list_ascii_of_string) in E.
  rewrite !list_ascii_of_string_of_list_ascii in E. exact E.
Qed.

Lemma canonical_bytes_determine (v v' : pyval) (b : list byte) :
  plain v = true -> plain v' = true ->
  canonical_bytes v = Some b -> canonical_bytes v' = Some b -> reordered v v'.
Proof.
  intros Hp Hp'. unfold canonical_bytes, Json.dumps_canonical.
  destruct (Json.encode true (chars ",") (chars ":") v) as [t|] eqn:Et; [|discriminate].
  destruct (Json.encode true (chars ",") (chars ":") v') as [t'|] eqn:Et'; [|discriminate].
  cbn [option_map]. intros [= <-] [= E]. apply utf8_text_inj in E. subst t'.
  apply (encode_determines v Hp v' [] [] t t Hp' I I Et Et' eq_refl).
Qed.

Lemma reordered_payload (c c' : claim) :
  reordered (payload_of c) (payload_of c') -> same_claim c c'.
Proof.
  intros H. unfold same_claim.
  inversion H as [v Ev1 Ev2| | |d d0 d' Hnd HF Hp]; subst.
  - repeat split; try reflexivity. constructor.
  - assert (d0 = [ (str_of "task_id", PStr (task_id c'));
                   (str_of "miner_id", PInt (miner_id c'));
                   (str_of "performance", PFloat (performance c'));
                   (str_of "artifact_hash", PStr (artifact_hash c'));
                   (str_of "hyperparameters", PDict (hyperparameters c'));
                   (str_of "timestamp", PInt (timestamp c'));
                   (str_of "nonce", PInt (nonce c')) ]) as ->.
    { apply perm_same_keys; [| |exact Hp].
      - rewrite <- (same_item_keys _ _ HF). exact Hnd.
      - rewrite <- (same_item_keys _ _ HF). reflexivity. }
    repeat match goal with
           | H : Forall2 _ (_ :: _) (_ :: _) |- _ =>
               inversion H as [|? ? ? ? [_ ?] ?]; subst; clear H
           end.
    cbn [snd] in *.
    repeat match goal with
           | H : reordered (PStr _) (PStr _) |- _ => inversion H; subst; clear H
           | H : reordered (PInt _) (PInt _) |- _ => inversion H; subst; clear H
           | H : reordered (PFloat _) (PFloat _) |- _ => inversion H; subst; clear H
           end.
    repeat split; assumption.
Qed.

End ClaimInjectivity.

(** C2, as the code has it. On Claims of the JSON data model (strings of
    Unicode scalar values, lists but no tuples, dicts with distinct string
    keys, floats that are binary64 values) the canonical bytes of two
    Claims that differ in a field are different. *)
Theorem canonical_bytes_injective :
  forall (c c' : claim) (b b' : list byte),
    plain (payload_of c) = true ->
    plain (payload_of c') = true ->
    canonical_bytes (payload_of c) = Some b ->
    canonical_bytes (payload_of c') = Some b' ->
    ~ same_claim c c' ->
    b <> b'.
Proof.
  intros c c' b b' Hp Hp' Hb Hb' Hd E. subst b'.
  apply Hd, reordered_payload.
  exact (canonical_bytes_determine _ _ b Hp Hp' Hb Hb').
Qed.

Lemma canonical_bytes_injective_witness :
  exists b b' : list byte,
    plain (payload_of example_claim) = true /\
    plain (payload_of (claim_with_nonce 8)) = true /\
    canonical_bytes (payload_of example_claim) = Some b /\
    canonical_bytes (payload_of (claim_with_nonce 8)) = Some b' /\
    ~ same_claim example_claim (claim_with_nonce 8) /\
    b <> b'.
Proof.
  assert (Hp : plain (payload_of example_claim) = true) by (vm_compute; reflexivity).
  assert (Hp' : plain (payload_of (claim_with_nonce 8)) = true)
    by (vm_compute; reflexivity).
  assert (Hd : ~ same_claim example_claim (claim_with_nonce 8))
    by (intros (_ & _ & _ & _ & _ & _ & H); discriminate H).
  destruct (canonical_bytes (payload_of example_claim)) as [b|] eqn:Hb;
    [|vm_compute in Hb; discriminate].
  destruct (canonical_bytes (payload_of (claim_with_nonce 8))) as [b'|] eqn:Hb';
    [|vm_compute in Hb'; discriminate].
  exists b, b'. repeat split; try assumption.
  exact (canonical_bytes_injective _ _ b b' Hp Hp' Hb Hb' Hd).
Defined.

(** C2, as stated, fails: Claims that differ in a field and have the same
    canonical bytes. *)
Lemma canonical_bytes_collisions :
  (task_id (claim_with_task [55357; 56832]) <> task_id (claim_with_task [128512]) /\
   canonical_bytes (payload_of (claim_with_task [55357; 56832]))
   = canonical_bytes (payload_of (claim_with_task [128512])) /\
   canonical_bytes (payload_of (claim_with_task [128512])) <> None) /\
  (hyperparameters (claim_with_layers (PTuple [PInt 128; PInt 64]))
   <> hyperparameters (claim_with_layers (PList [PInt 128; PInt 64])) /\
   canonical_bytes (payload_of (claim_with_layers (PTuple [PInt 128; PInt 64])))
   = canonical_bytes (payload_of (claim_with_layers (PList [PInt 128; PInt 64]))) /\
   canonical_bytes (payload_of (claim_with_layers (PList [PInt 128; PInt 64]))) <> None).
Proof.
  split; (split; [discriminate|]); (split; [vm_compute; reflexivity|]);
    vm_compute; discriminate.
Qed.

(* ===================================================================== *)
(** * Part III. Further properties of the code                           *)
(* ===================================================================== *)

(** ** The nonce *)

Section Nonce.

Lemma byteZ_range (b : byte) : 0 <= Sha256.byteZ b < 256.
Proof.
  unfold Sha256.byteZ. pose proof (Byte.to_N_bounded b) as H. lia.
Qed.

Lemma int_from_bytes_big_acc (bs : list byte) (acc : Z) :
  fold_left (fun a b => a * 256 + Sha256.byteZ b) bs acc
  = acc * 256 ^ Z.of_nat (length bs) + int_from_bytes_big bs.
Proof.
  unfold int_from_bytes_big. revert acc.
  induction bs as [|b bs IH]; intros acc.
  - cbn. lia.
  - cbn [fold_left length]. rewrite (IH (acc * 256 + _)), (IH (0 * 256 + _)).
    rewrite Nat2Z.inj_succ, Z.pow_succ_r by lia. ring.
Qed.

Lemma int_from_bytes_big_cons (b : byte) (bs : list byte) :
  int_from_bytes_big (b :: bs)
  = Sha256.byteZ b * 256 ^ Z.of_nat (length bs) + int_from_bytes_big bs.
Proof.
  unfold int_from_bytes_big at 1. cbn [fold_left].
  rewrite int_from_bytes_big_acc. ring.
Qed.

Lemma int_from_bytes_big_bound (bs : list byte) :
  0 <= int_from_bytes_big bs < 256 ^ Z.of_nat (length bs).
Proof.
  induction bs as [|b bs IH].
  - cbn. lia.
  - rewrite int_from_bytes_big_cons. cbn [length].
    rewrite Nat2Z.inj_succ, Z.pow_succ_r by lia.
    pose proof (byteZ_range b). nia.
Qed.

(** X2. The nonce [int.from_bytes(os.urandom(8), "big")] is an unsigned 64-bit
    number: n bytes give a number from 0 to 256^n - 1. *)
Theorem nonce_range :
  forall bs : list byte,
    0 <= int_from_bytes_big bs < 256 ^ Z.of_nat (length bs) /\
    (length bs = 8%nat -> 0 <= int_from_bytes_big bs < 2 ^ 64).
Proof.
  intros bs. pose proof (int_from_bytes_big_bound bs) as H.
  split; [exact H|]. intros E. rewrite E in H. exact H.
Qed.

Lemma byteZ_inj (a b : byte) : Sha256.byteZ a = Sha256.byteZ b -> a = b.
Proof.
  unfold Sha256.byteZ. intros H. apply N2Z.inj in H.
  apply (f_equal Byte.of_N) in H. rewrite !Byte.of_to_N in H. congruence.
Qed.

(** X3. Byte strings of one length that differ give different numbers: the
    nonce loses nothing of the eight random bytes. *)
Theorem nonce_injective :
  forall a b : list byte,
    length a = length b -> a <> b ->
    int_from_bytes_big a <> int_from_bytes_big b.
Proof.
  intros a b L N E. apply N. clear N. revert b L E.
  induction a as [|x a IH]; intros [|y b] L E; try discriminate L; [reflexivity|].
  injection L as L. rewrite !int_from_bytes_big_cons, <- L in E.
  pose proof (int_from_bytes_big_bound a) as Ha.
  pose proof (int_from_bytes_big_bound b) as Hb. rewrite <- L in Hb.
  pose proof (byteZ_range x). pose proof (byteZ_range y).
  assert (Sha256.byteZ x = Sha256.byteZ y) by nia.
  assert (int_from_bytes_big a = int_from_bytes_big b) by nia.
  f_equal; [apply byteZ_inj; assumption | apply IH; assumption].
Qed.

End Nonce.

Lemma nonce_range_witness :
  length [x01; x02; x03; x04; x05; x06; x07; x08] = 8%nat /\
  0 <= int_from_bytes_big [x01; x02; x03; x04; x05; x06; x07; x08] < 2 ^ 64.
Proof.
  split; [reflexivity|].
  exact (proj2 (nonce_range [x01; x02; x03; x04; x05; x06; x07; x08]) eq_refl).
Defined.

Lemma nonce_injective_witness :
  length [x00; x01] = length [x01; x00] /\
  [x00; x01] <> [x01; x00] /\
  int_from_bytes_big [x00; x01] <> int_from_bytes_big [x01; x00].
Proof.
  assert (N : [x00; x01] <> [x01; x00]) by discriminate.
  split; [reflexivity|]. split; [exact N|].
  exact (nonce_injective [x00; x01] [x01; x00] eq_refl N).
Defined.

Section FileSystem.

Lemma fs_read_write_same (p : string) (c : list byte) (fs : Os.fs) :
  Os.fs_read p (Os.fs_write p c fs) = Some c.
Proof.
  induction fs as [|[q d] fs IH]; cbn [Os.fs_write Os.fs_read].
  - rewrite String.eqb_refl. reflexivity.
  - destruct (String.eqb q p) eqn:E; cbn [Os.fs_read]; rewrite E; [reflexivity|exact IH].
Qed.

Lemma fs_read_write_other (p q : string) (c : list byte) (fs : Os.fs) :
  p <> q -> Os.fs_read p (Os.fs_write q c fs) = Os.fs_read p fs.
Proof.
  intros N. induction fs as [|[r d] fs IH]; cbn [Os.fs_write Os.fs_read].
  - destruct (String.eqb_spec q p); [congruence|reflexivity].
  - destruct (String.eqb_spec r q) as [->|Hrq]; cbn [Os.fs_read].
    + destruct (String.eqb_spec q p); [congruence|reflexivity].
    + destruct (String.eqb r p); [reflexivity|exact IH].
Qed.

Lemma fs_read_In (p : string) (c : list byte) (fs : Os.fs) :
  Os.fs_read p fs = Some c -> In (p, c) fs.
Proof.
  induction fs as [|[q d] fs IH]; cbn [Os.fs_read]; [discriminate|].
  destruct (String.eqb_spec q p) as [->|N].
  - intros [= ->]. left. reflexivity.
  - intros H. right. exact (IH H).
Qed.

Lemma In_fs_read (p : string) (c : list byte) (fs : Os.fs) :
  In (p, c) fs -> exists c', Os.fs_read p fs = Some c'.
Proof.
  induction fs as [|[q d] fs IH]; cbn [Os.fs_read In]; [contradiction|].
  intros [E|H]; destruct (String.eqb_spec q p); eauto; congruence.
Qed.

Lemma prefix_app (pre s : string) :
  String.prefix pre s = true ->
  s = (pre ++ String.substring (String.length pre)
                (String.length s - String.length pre) s)%string.
Proof.
  revert s. induction pre as [|a pre IH]; intros s H.
  - cbn. rewrite Nat.sub_0_r.
    clear H. induction s as [|b s IHs]; [reflexivity|]. cbn. f_equal.
    destruct s; [reflexivity|]. exact IHs.
  - destruct s as [|b s]; [discriminate|]. cbn in H.
    destruct (Ascii.ascii_dec a b) as [->|]; [|discriminate].
    cbn. f_equal. exact (IH s H).
Qed.

Lemma substring_app_all (pre s : string) :
  String.substring (String.length pre)
    (String.length (pre ++ s) - String.length pre) (pre ++ s) = s.
Proof.
  induction pre as [|a pre IH].
  - cbn. rewrite Nat.sub_0_r.
    induction s as [|b s IHs]; [reflexivity|]. cbn. f_equal.
    destruct s; [reflexivity|]. exact IHs.
  - cbn. exact IH.
Qed.

Lemma prefix_app_true (pre s : string) : String.prefix pre (pre ++ s) = true.
Proof.
  induction pre as [|a pre IH]; [destruct s; reflexivity|].
  cbn. destruct (Ascii.ascii_dec a a); [exact IH|congruence].
Qed.

Lemma path_join_app (dir name : string) :
  Os.path_join dir name = ((dir ++ "/") ++ name)%string.
Proof.
  unfold Os.path_join. induction dir as [|a dir IH]; [reflexivity|].
  cbn [String.append]. f_equal. exact IH.
Qed.

Lemma child_name_join (dir name : string) :
  Os.has_slash name = false ->
  Os.child_name dir (Os.path_join dir name) = Some name.
Proof.
  intros H. unfold Os.child_name. rewrite path_join_app.
  rewrite prefix_app_true, substring_app_all, H. reflexivity.
Qed.

Lemma child_name_path (dir path name : string) :
  Os.child_name dir path = Some name ->
  path = Os.path_join dir name /\ Os.has_slash name = false.
Proof.
  unfold Os.child_name.
  destruct (String.prefix (dir ++ "/") path) eqn:P; [|discriminate].
  destruct (Os.has_slash _) eqn:S; [discriminate|]. intros [= <-].
  split; [|exact S]. rewrite path_join_app. exact (prefix_app _ _ P).
Qed.

Lemma listdir_In (dir name : string) (fs : Os.fs) :
  In name (Os.listdir dir fs)
  <-> Os.has_slash name = false /\ exists c, In (Os.path_join dir name, c) fs.
Proof.
  induction fs as [|[p c] fs IH]; cbn [Os.listdir In].
  - split; [contradiction|]. intros (_ & c & []).
  - destruct (Os.child_name dir p) as [n|] eqn:E.
    + apply child_name_path in E as [-> S]. cbn [In]. rewrite IH. split.
      * intros [<-|(S' & c' & H)]; (split; [assumption|]); eauto.
      * intros (S' & c' & [H|H]).
        -- left. injection H as H _. rewrite !path_join_app in H.
           apply (f_equal (fun s => String.substring (String.length (dir ++ "/"))
                     (String.length s - String.length (dir ++ "/")) s)) in H.
           rewrite !substring_app_all in H. exact H.
        -- right. eauto.
    + rewrite IH. split.
      * intros (S & c' & H). eauto.
      * intros (S & c' & [H|H]); [|eauto].
        injection H as -> _. rewrite (child_name_join dir name S) in E. discriminate.
Qed.

End FileSystem.

Section Package.

Variable zip_archive : list (string * list byte) -> list byte.

Lemma read_members_run (dir : string) (names : list string) (w : world) :
  (forall name, In name names ->
     exists c, Os.fs_read (Os.path_join dir name) (files w) = Some c) ->
  exists members,
    read_members dir names w = (inr members, w) /\
    forall name c,
      In (name, c) members
      <-> In name names /\ Os.fs_read (Os.path_join dir name) (files w) = Some c.
Proof.
  induction names as [|n names IH]; intros H.
  - exists []. split; [reflexivity|]. intros name c. cbn. tauto.
  - destruct (H n (or_introl eq_refl)) as [c Hc].
    destruct IH as (members & Hm & Hin).
    { intros name Hn. apply H. right. exact Hn. }
    exists ((n, c) :: members). split.
    + cbn [read_members]. unfold bind, open_rb, ret. rewrite Hc, Hm. reflexivity.
    + intros name c'. cbn [In]. rewrite Hin. split.
      * intros [[= <- <-]|[Hn Hr]]; auto.
      * intros [[<-|Hn] Hr]; [left; congruence | right; auto].
Qed.

Lemma read_members_listdir (dir : string) (w : world) :
  exists members,
    read_members dir (Os.listdir dir (files w)) w = (inr members, w) /\
    forall name c,
      In (name, c) members
      <-> Os.has_slash name = false
          /\ Os.fs_read (Os.path_join dir name) (files w) = Some c.
Proof.
  destruct (read_members_run dir (Os.listdir dir (files w)) w) as (members & Hm & Hin).
  { intros name Hn. apply listdir_In in Hn as (_ & c & Hc).
    exact (In_fs_read _ _ _ Hc). }
  exists members. split; [exact Hm|]. intros name c. rewrite Hin, listdir_In.
  split.
  - intros [[S _] Hr]. auto.
  - intros [S Hr]. split; [|exact Hr]. split; [exact S|].
    exists c. exact (fs_read_In _ _ _ Hr).
Qed.

(** The files after the two writes of [build_repro_package]. *)
Lemma build_repro_package_run (hyper : pyval) (out : string) (text : string) (w : world) :
  Json.dumps hyper = Some text ->
  exists members fs2,
    build_repro_package zip_archive hyper out w
    = (inr tt, World (Os.fs_write out (zip_archive members) fs2) (posts w)) /\
    fs2 = (let fs1 := Os.fs_write "pkgtmp/hyperparameters.json" (encode_utf8 text) (files w) in
           match Os.fs_read "python-client/train.py" fs1 with
           | Some c => Os.fs_write "pkgtmp/train.py" c fs1
           | None => fs1
           end) /\
    forall name c,
      In (name, c) members
      <-> Os.has_slash name = false
          /\ Os.fs_read (Os.path_join tmpdir name) fs2 = Some c.
Proof.
  intros Hd. unfold build_repro_package, json_dump_to. rewrite Hd.
  unfold bind at 1. unfold write_file at 1. cbv beta iota.
  unfold bind at 1. unfold os_system_cp. cbn [files posts].
  change (Os.path_join tmpdir "hyperparameters.json") with "pkgtmp/hyperparameters.json"%string.
  change (Os.path_join tmpdir "train.py") with "pkgtmp/train.py"%string.
  set (fs1 := Os.fs_write "pkgtmp/hyperparameters.json" (encode_utf8 text) (files w)).
  set (fs2 := match Os.fs_read "python-client/train.py" fs1 with
              | Some c => Os.fs_write "pkgtmp/train.py" c fs1
              | None => fs1
              end).
  destruct (read_members_listdir tmpdir (World fs2 (posts w))) as (members & Hm & Hin).
  cbn [files] in Hm, Hin.
  exists members, fs2. split; [|split; [reflexivity|exact Hin]].
  unfold fs2 in *. clearbody fs1.
  destruct (Os.fs_read "python-client/train.py" fs1) as [c|];
    unfold bind; cbn [files posts]; rewrite Hm; reflexivity.
Qed.


Lemma tmp_path_inj (name name' : string) :
  Os.path_join tmpdir name = Os.path_join tmpdir name' -> name = name'.
Proof. intros H. cbn in H. congruence. Qed.

(** X4. The archive [build_repro_package] writes holds [hyperparameters.json]
    with the text of [json.dump], and [train.py] with the bytes of the
    template when the checkout has it. *)
Theorem package_contents :
  forall (hyper : pyval) (text : string) (w : world),
    layout_ok w = true ->
    Json.dumps hyper = Some text ->
    exists members w',
      build_repro_package zip_archive hyper "repro.zip" w = (inr tt, w') /\
      posts w' = posts w /\
      Os.fs_read "repro.zip" (files w') = Some (zip_archive members) /\
      In ("hyperparameters.json"%string, encode_utf8 text) members /\
      (forall c, Os.fs_read "python-client/train.py" (files w) = Some c ->
                 In ("train.py"%string, c) members).
Proof.
  intros hyper text w _ Hd.
  destruct (build_repro_package_run hyper "repro.zip" text w Hd)
    as (members & fs2 & Hb & Hf & Hin).
  exists members, (World (Os.fs_write "repro.zip" (zip_archive members) fs2) (posts w)).
  split; [exact Hb|]. split; [reflexivity|]. cbn [files].
  split; [apply fs_read_write_same|].
  cbv zeta in Hf.
  assert (R : Os.fs_read "python-client/train.py"
                (Os.fs_write "pkgtmp/hyperparameters.json" (encode_utf8 text) (files w))
              = Os.fs_read "python-client/train.py" (files w))
    by (apply fs_read_write_other; discriminate).
  rewrite R in Hf. split.
  - apply Hin. split; [reflexivity|].
    change (Os.path_join tmpdir "hyperparameters.json") with "pkgtmp/hyperparameters.json"%string.
    subst fs2. destruct (Os.fs_read "python-client/train.py" (files w)).
    + rewrite fs_read_write_other by discriminate. apply fs_read_write_same.
    + apply fs_read_write_same.
  - intros c Hc. apply Hin. split; [reflexivity|].
    change (Os.path_join tmpdir "train.py") with "pkgtmp/train.py"%string.
    subst fs2. rewrite Hc. apply fs_read_write_same.
Qed.

(** X5. [pkgtmp] is never emptied: a file an earlier run left in it goes into
    the archive, and so into the artifact hash. *)
Theorem leftover_files_are_packaged :
  forall (hyper : pyval) (text : string) (w : world) (name : string) (c : list byte),
    layout_ok w = true ->
    Json.dumps hyper = Some text ->
    Os.has_slash name = false ->
    name <> "hyperparameters.json"%string ->
    name <> "train.py"%string
      \/ Os.fs_read "python-client/train.py" (files w) = None ->
    Os.fs_read (Os.path_join tmpdir name) (files w) = Some c ->
    exists members w',
      build_repro_package zip_archive hyper "repro.zip" w = (inr tt, w') /\
      Os.fs_read "repro.zip" (files w') = Some (zip_archive members) /\
      In (name, c) members.
Proof.
  intros hyper text w name c _ Hd Hs Hn Ht Hc.
  destruct (build_repro_package_run hyper "repro.zip" text w Hd)
    as (members & fs2 & Hb & Hf & Hin).
  exists members, (World (Os.fs_write "repro.zip" (zip_archive members) fs2) (posts w)).
  split; [exact Hb|]. cbn [files]. split; [apply fs_read_write_same|].
  apply Hin. split; [exact Hs|].
  cbv zeta in Hf.
  assert (R : Os.fs_read "python-client/train.py"
                (Os.fs_write "pkgtmp/hyperparameters.json" (encode_utf8 text) (files w))
              = Os.fs_read "python-client/train.py" (files w))
    by (apply fs_read_write_other; discriminate).
  rewrite R in Hf.
  assert (N1 : Os.path_join tmpdir name <> "pkgtmp/hyperparameters.json"%string).
  { intros E. apply Hn, tmp_path_inj. exact E. }
  subst fs2. destruct (Os.fs_read "python-client/train.py" (files w)) as [t|].
  - destruct Ht as [Ht|Ht]; [|discriminate].
    rewrite !fs_read_write_other; [exact Hc|exact N1|].
    intros E. apply Ht, tmp_path_inj. exact E.
  - rewrite fs_read_write_other; [exact Hc|exact N1].
Qed.

End Package.

Section Submission.

Variable zip_archive : list (string * list byte) -> list byte.
Variable ed25519_sign : list byte -> list byte -> list byte.
Variable sk : list byte.

Lemma submit_after_build (hyper : list (pystr * pyval)) (now : Z)
      (random8 : list byte) (w w1 : world) :
  build_repro_package zip_archive (PDict hyper) "repro.zip" w = (inr tt, w1) ->
  serializable (PDict hyper) = true ->
  forall art, Os.fs_read "repro.zip" (files w1) = Some art ->
  exists text sig,
    let c := Claim (str_of "task-prod-001") 1 (Float.of_decimal false 92 (-2))
               (str_of (Sha256.hex (Sha256.sha256 art))) hyper now
               (int_from_bytes_big random8) in
    Json.dumps (payload_of c) = Some text /\
    sign_payload ed25519_sign sk (payload_of c) = Some sig /\
    submit_example_with zip_archive ed25519_sign sk hyper now random8 w
    = (inr tt, World (files w1)
                 (posts w1 ++ [Request "http://localhost:8080/submit" text sig
                                 "repro.zip" art])).
Proof.
  intros Hb Hs art Ha.
  set (c := Claim (str_of "task-prod-001") 1 (Float.of_decimal false 92 (-2))
               (str_of (Sha256.hex (Sha256.sha256 art))) hyper now
               (int_from_bytes_big random8)).
  assert (Hp : serializable (payload_of c) = true)
    by (rewrite serializable_payload; exact Hs).
  destruct (canonical_bytes_serializable _ Hp) as [m Hm].
  destruct (dumps_serializable _ Hp) as [t Ht].
  exists t, (Sha256.hex (ed25519_sign sk m)). cbv zeta.
  split; [exact Ht|]. split; [unfold sign_payload; rewrite Hm; reflexivity|].
  unfold submit_example_with. unfold bind at 1. rewrite Hb.
  unfold bind at 1. rewrite (sha256_file_run _ _ _ Ha), sha256_of_stream_spec.
  fold c. unfold bind, sign_payload_step, sign_payload, json_dumps_step.
  rewrite Hm, Ht. unfold ret, open_rb. rewrite Ha. reflexivity.
Qed.


(** X7. Whatever the outcome, [submit_example] leaves every file other than
    the three it writes as it was. *)
Theorem other_files_untouched :
  forall (hyper : list (pystr * pyval)) (now : Z) (random8 : list byte)
         (w : world) (p : string),
    layout_ok w = true ->
    ~ In p written_paths ->
    Os.fs_read p
      (files (snd (submit_example_with zip_archive ed25519_sign sk hyper now random8 w)))
    = Os.fs_read p (files w).
Proof.
  intros hyper now random8 w p _ Hp.
  assert (N1 : p <> "pkgtmp/hyperparameters.json"%string) by (intros ->; apply Hp; cbn; auto).
  assert (N2 : p <> "pkgtmp/train.py"%string) by (intros ->; apply Hp; cbn; auto).
  assert (N3 : p <> "repro.zip"%string) by (intros ->; apply Hp; cbn; auto).
  destruct (Json.dumps (PDict hyper)) as [text|] eqn:Hd.
  - destruct (build_repro_package_run zip_archive (PDict hyper) "repro.zip" text w Hd)
      as (members & fs2 & Hb & Hf & _).
    set (w1 := World (Os.fs_write "repro.zip" (zip_archive members) fs2) (posts w)) in Hb.
    assert (Hs : serializable (PDict hyper) = true)
      by (apply (encode_is_some false (chars ", ") (chars ": ")); unfold Json.dumps in Hd;
          destruct (Json.encode _ _ _ _); [eauto|discriminate]).
    assert (Ha : Os.fs_read "repro.zip" (files w1) = Some (zip_archive members))
      by apply fs_read_write_same.
    destruct (submit_after_build hyper now random8 w w1 Hb Hs _ Ha) as (t & sig & _ & _ & Hr).
    rewrite Hr. unfold w1. cbn [snd files]. rewrite fs_read_write_other by exact N3.
    rewrite Hf. cbv zeta. clear Hf Hb Hr.
    set (fs1 := Os.fs_write "pkgtmp/hyperparameters.json" (encode_utf8 text) (files w)).
    assert (R1 : Os.fs_read p fs1 = Os.fs_read p (files w))
      by (apply fs_read_write_other; exact N1).
    destruct (Os.fs_read "python-client/train.py" fs1) as [c|]; [|exact R1].
    rewrite (fs_read_write_other p "pkgtmp/train.py" c fs1 N2). exact R1.
  - unfold submit_example_with, build_repro_package, json_dump_to, bind.
    rewrite Hd. cbn [write_file raise snd files]. apply fs_read_write_other. exact N1.
Qed.

End Submission.

Lemma package_contents_witness :
  exists members w',
    layout_ok world_with_leftover = true /\
    Json.dumps (PDict example_hyper) = Some example_hyper_text /\
    build_repro_package (fun _ => []) (PDict example_hyper) "repro.zip" world_with_leftover
    = (inr tt, w') /\
    In ("hyperparameters.json"%string, encode_utf8 example_hyper_text) members /\
    In ("train.py"%string, bytes_of_string "import json") members.
Proof.
  destruct (package_contents (fun _ => []) (PDict example_hyper) example_hyper_text
              world_with_leftover eq_refl dumps_example_hyper)
    as (members & w' & Hb & _ & _ & H1 & H2).
  exists members, w'. split; [reflexivity|]. split; [exact dumps_example_hyper|].
  split; [exact Hb|]. split; [exact H1|]. apply H2. reflexivity.
Defined.

Lemma leftover_files_are_packaged_witness :
  exists members w',
    build_repro_package (fun _ => []) (PDict example_hyper) "repro.zip" world_with_leftover
    = (inr tt, w') /\
    Os.fs_read "repro.zip" (files w') = Some [] /\
    In ("old_weights.bin"%string, bytes_of_string "stale") members.
Proof.
  assert (L : layout_ok world_with_leftover = true) by reflexivity.
  assert (S : Os.has_slash "old_weights.bin" = false) by reflexivity.
  assert (N1 : "old_weights.bin"%string <> "hyperparameters.json"%string) by discriminate.
  assert (N2 : "old_weights.bin"%string <> "train.py"%string) by discriminate.
  assert (R : Os.fs_read (Os.path_join tmpdir "old_weights.bin") (files world_with_leftover)
              = Some (bytes_of_string "stale")) by reflexivity.
  destruct (leftover_files_are_packaged (fun _ => []) (PDict example_hyper)
              example_hyper_text world_with_leftover "old_weights.bin"
              (bytes_of_string "stale") L dumps_example_hyper S N1 (or_introl N2) R)
    as (members & w' & Hb & Hr & Hin).
  exists members, w'. auto.
Defined.


Lemma other_files_untouched_witness :
  Os.fs_read "notes.txt"
    (files (snd (submit_example_with (fun _ => []) (fun _ _ => []) [] example_hyper 0 []
                   world_with_leftover)))
  = Os.fs_read "notes.txt" (files world_with_leftover).
Proof.
  apply (other_files_untouched (fun _ => []) (fun _ _ => []) [] example_hyper 0 []
           world_with_leftover "notes.txt" eq_refl).
  cbn. intros [H|[H|[H|[]]]]; discriminate H.
Defined.

Section PrintableText.

Lemma all_some_Forall2 {A B : Type} (f : A -> option B) (l : list A) (r : list B) :
  Json.all_some (map f l) = Some r -> Forall2 (fun x t => f x = Some t) l r.
Proof.
  revert r. induction l as [|x l IH]; intros r; cbn [map Json.all_some].
  - intros [= <-]. constructor.
  - destruct (f x) as [t|] eqn:E; [|discriminate].
    destruct (Json.all_some (map f l)) as [r'|]; [|discriminate].
    intros [= <-]. constructor; [exact E | apply IH; reflexivity].
Qed.

Lemma forallb_flat_map {A B : Type} (P : B -> bool) (f : A -> list B) (l : list A) :
  Forall (fun x => forallb P (f x) = true) l -> forallb P (flat_map f l) = true.
Proof.
  induction 1 as [|x l Hx _ IH]; [reflexivity|].
  cbn [flat_map]. rewrite forallb_app, Hx, IH. reflexivity.
Qed.

Lemma forallb_join (P : ascii -> bool) (sep : list ascii) (parts : list (list ascii)) :
  forallb P sep = true -> Forall (fun p => forallb P p = true) parts ->
  forallb P (Json.join sep parts) = true.
Proof.
  intros Hs Hp. destruct Hp as [|p ps Hp Hps]; [reflexivity|].
  cbn [Json.join]. rewrite forallb_app, Hp. cbn [andb].
  apply forallb_flat_map. eapply Forall_impl; [|exact Hps].
  intros q Hq. rewrite forallb_app, Hs, Hq. reflexivity.
Qed.

Lemma lower_hex_printable (c : ascii) : is_lower_hex c = true -> printable c = true.
Proof.
  unfold is_lower_hex, printable. cbv zeta.
  rewrite orb_true_iff, !andb_true_iff, !N.leb_le. lia.
Qed.

Lemma hex4_printable (n : Z) : forallb printable (Json.hex4 n) = true.
Proof.
  unfold Json.hex4, Json.hexd. cbn [forallb].
  rewrite !lower_hex_printable by apply hex_digit_lower. reflexivity.
Qed.

Lemma esc_char_printable (c : Z) : forallb printable (Json.esc_char c) = true.
Proof.
  unfold Json.esc_char.
  repeat match goal with
         | |- context [if ?c =? ?k then _ else _] => destruct (c =? k); [reflexivity|]
         end.
  destruct ((32 <=? c) && (c <=? 126)) eqn:R.
  - apply andb_prop in R as [L U].
    apply Z.leb_le in L, U. cbn [forallb]. rewrite andb_true_r.
    unfold printable, Json.ascii_of_Z. cbv zeta.
    rewrite N_ascii_embedding by lia.
    rewrite andb_true_iff, !N.leb_le. lia.
  - destruct (c <? 65536); rewrite !forallb_app, ?hex4_printable; reflexivity.
Qed.

Lemma encode_str_printable (s : pystr) : forallb printable (Json.encode_str s) = true.
Proof.
  unfold Json.encode_str. cbn [forallb]. rewrite forallb_app.
  rewrite forallb_flat_map; [reflexivity|].
  apply Forall_forall. intros c _. apply esc_char_printable.
Qed.

Lemma scientific_printable (c : ascii) : scientific_char c = true -> printable c = true.
Proof.
  unfold scientific_char, positional_char, is_digit, Float.is_digit, printable. cbv zeta.
  rewrite !orb_true_iff, !andb_true_iff, !N.leb_le.
  intros [[[[[H1 H2]|H]|H]|H]|H]; try lia;
    apply Ascii.eqb_eq in H; subst c; cbn; lia.
Qed.

Lemma int_repr_printable (z : Z) : forallb printable (Json.int_repr z) = true.
Proof.
  eapply forallb_weaken; [|apply int_repr_chars].
  intros c H. apply scientific_printable, int_char_scientific, H.
Qed.

Lemma floatstr_printable (f : pyfloat) : forallb printable (Json.floatstr f) = true.
Proof.
  destruct f as [|[]|neg m e]; try reflexivity.
  eapply forallb_weaken; [|apply floatstr_finite_scientific].
  exact scientific_printable.
Qed.

Variable sort_keys : bool.
Variables isep ksep : list ascii.
Hypothesis isep_printable : forallb printable isep = true.
Hypothesis ksep_printable : forallb printable ksep = true.

Lemma encode_printable (v : pyval) (t : list ascii) :
  Json.encode sort_keys isep ksep v = Some t -> forallb printable t = true.
Proof.
  revert t.
  induction v as [|b|z|f|s|l IH|l IH|d IH|n] using pyval_nested_ind;
    intros t; cbn [Json.encode].
  - intros [= <-]. reflexivity.
  - destruct b; intros [= <-]; reflexivity.
  - intros [= <-]. apply int_repr_printable.
  - intros [= <-]. apply floatstr_printable.
  - intros [= <-]. apply encode_str_printable.
  - destruct (Json.all_some _) as [parts|] eqn:E; [|discriminate]. intros [= <-].
    apply all_some_Forall2 in E.
    cbn [forallb]. rewrite forallb_app, forallb_join; [reflexivity|exact isep_printable|].
    clear -E IH. induction E as [|x p l parts Hx _ IHE]; constructor.
    + inversion IH; subst. eauto.
    + inversion IH; subst. eauto.
  - destruct (Json.all_some _) as [parts|] eqn:E; [|discriminate]. intros [= <-].
    apply all_some_Forall2 in E.
    cbn [forallb]. rewrite forallb_app, forallb_join; [reflexivity|exact isep_printable|].
    clear -E IH. induction E as [|x p l parts Hx _ IHE]; constructor.
    + inversion IH; subst. eauto.
    + inversion IH; subst. eauto.
  - destruct (Json.all_some _) as [items|] eqn:E; [|discriminate]. intros [= <-].
    apply all_some_Forall2 in E.
    assert (Hi : Forall (fun it => forallb printable (snd it) = true) items).
    { clear -E IH. induction E as [|x p l parts Hx _ IHE]; constructor.
      - inversion IH; subst.
        destruct (Json.encode sort_keys isep ksep (snd x)) as [t|] eqn:Et; [|discriminate].
        injection Hx as <-. cbn [snd]. eauto.
      - inversion IH; subst. eauto. }
    assert (Hi' : Forall (fun it => forallb printable (snd it) = true)
                    (if sort_keys then Json.sort_items items else items)).
    { destruct sort_keys; [|exact Hi].
      eapply Permutation_Forall; [apply Permutation_sym, sort_items_perm|exact Hi]. }
    cbn [forallb]. rewrite forallb_app, forallb_join; [reflexivity|exact isep_printable|].
    apply Forall_map. eapply Forall_impl; [|exact Hi'].
    intros it Hit. unfold Json.encode_item.
    rewrite !forallb_app, encode_str_printable, ksep_printable, Hit. reflexivity.
  - discriminate.
Qed.

End PrintableText.

(** X8. Every character of the text [json.dumps] returns, with the defaults or
    with sorted keys and compact separators, is printable ASCII: the bytes
    that are signed and the bytes that are sent are one per character. *)
Theorem dumps_text_is_printable_ascii :
  forall (v : pyval) (s : string),
    Json.dumps v = Some s \/ Json.dumps_canonical v = Some s ->
    forallb printable (chars s) = true.
Proof.
  intros v s [H|H]; unfold Json.dumps, Json.dumps_canonical in H.
  - destruct (Json.encode false _ _ v) as [t|] eqn:E; [|discriminate].
    injection H as <-. unfold chars. rewrite list_ascii_of_string_of_list_ascii.
    apply (encode_printable false (chars ", ") (chars ": ")) with (v := v);
      [reflexivity|reflexivity|exact E].
  - destruct (Json.encode true _ _ v) as [t|] eqn:E; [|discriminate].
    injection H as <-. unfold chars. rewrite list_ascii_of_string_of_list_ascii.
    apply (encode_printable true (chars ",") (chars ":")) with (v := v);
      [reflexivity|reflexivity|exact E].
Qed.

Lemma dumps_text_is_printable_ascii_witness :
  Json.dumps (PDict example_hyper) = Some example_hyper_text /\
  forallb printable (chars example_hyper_text) = true.
Proof.
  split; [exact dumps_example_hyper|].
  exact (dumps_text_is_printable_ascii (PDict example_hyper) example_hyper_text
           (or_introl dumps_example_hyper)).
Defined.

(** ** Hex text *)

Section HexText.

Lemma hex_byte_inj (a b : byte) : Sha256.hex_byte a = Sha256.hex_byte b -> a = b.
Proof.
  unfold Sha256.hex_byte. intros [= H1 H2].
  apply (hexd_inj _ _) in H1, H2. rewrite Z.shiftr_div_pow2 in H1 by lia.
  rewrite Z.shiftr_div_pow2 in H1 by lia.
  pose proof (byteZ_range a). pose proof (byteZ_range b).
  apply byteZ_inj. change (2 ^ 4) with 16 in H1.
  revert H1 H2. generalize (Sha256.byteZ a) (Sha256.byteZ b) H H0. clear.
  intros x y Hx Hy H1 H2. Z.div_mod_to_equations. lia.
Qed.

Lemma hex_chars_inj (a b : list byte) :
  flat_map Sha256.hex_byte a = flat_map Sha256.hex_byte b -> a = b.
Proof.
  revert b. induction a as [|x a IH]; intros [|y b] H; try discriminate H; [reflexivity|].
  cbn [flat_map] in H. unfold Sha256.hex_byte at 1 3 in H. cbn [app] in H.
  injection H as H1 H2 H. f_equal; [|exact (IH b H)].
  apply hex_byte_inj. unfold Sha256.hex_byte. congruence.
Qed.

End HexText.

(** X10. [bytes.hex()] loses nothing: byte strings that differ have different
    hex texts, so the signature bytes can be read back from the
    [signature] field of the request. *)
Theorem hex_injective :
  forall a b : list byte, a <> b -> Sha256.hex a <> Sha256.hex b.
Proof.
  intros a b N E. apply N. unfold Sha256.hex in E.
  apply (f_equal list_ascii_of_string) in E.
  rewrite !list_ascii_of_string_of_list_ascii in E.
  exact (hex_chars_inj a b E).
Qed.

Lemma hex_injective_witness :
  [x0a; xff] <> [x0a; xfe] /\ Sha256.hex [x0a; xff] <> Sha256.hex [x0a; xfe].
Proof.
  assert (N : [x0a; xff] <> [x0a; xfe]) by discriminate.
  split; [exact N|]. exact (hex_injective [x0a; xff] [x0a; xfe] N).
Defined.

(** ** Reading back what the encoder wrote *)

Section ScanString.

Lemma codes_app (a b : list ascii) : codes (a ++ b) = codes a ++ codes b.
Proof. apply map_app. Qed.

Lemma hex_val_hexd (k : Z) :
  Decoder.hex_val (Z.of_N (N_of_ascii (Json.hexd k))) = Some (k mod 16).
Proof.
  unfold Json.hexd, Sha256.hex_digit. rewrite land15.
  pose proof (Z.mod_pos_bound k 16 ltac:(lia)) as B.
  assert (E : k mod 16 = Z.of_nat (Z.to_nat (k mod 16))) by lia.
  rewrite E at 2. revert B. generalize (k mod 16). intros j B.
  assert (Hj : (Z.to_nat j < 16)%nat) by lia. clear B.
  revert Hj. generalize (Z.to_nat j). intros n Hn.
  do 16 (destruct n as [|n]; [reflexivity|]). lia.
Qed.

Lemma hex4_val_hex4 (n : Z) (X : pystr) :
  0 <= n < 65536 ->
  exists h1 h2 h3 h4,
    codes (Json.hex4 n) ++ X = h1 :: h2 :: h3 :: h4 :: X /\
    Decoder.hex4_val h1 h2 h3 h4 = Some n.
Proof.
  intros Hn. unfold Json.hex4. cbn [codes map app].
  do 4 eexists. split; [reflexivity|].
  unfold Decoder.hex4_val. rewrite !hex_val_hexd. f_equal.
  rewrite !Z.shiftr_div_pow2 by lia.
  change (2 ^ 12) with 4096. change (2 ^ 8) with 256. change (2 ^ 4) with 16.
  Z.div_mod_to_equations. lia.
Qed.

Lemma scanstring_u (h1 h2 h3 h4 u : Z) (r2 : pystr) :
  Decoder.hex4_val h1 h2 h3 h4 = Some u ->
  Decoder.is_high_surrogate u = false ->
  Decoder.scanstring (92 :: 117 :: h1 :: h2 :: h3 :: h4 :: r2)
  = match Decoder.scanstring r2 with
    | Some (str, rest) => Some (u :: str, rest)
    | None => None
    end.
Proof.
  intros Hh Hs. cbn [Decoder.scanstring].
  change (92 =? 34) with false. change (92 =? 92) with true.
  change (117 =? 117) with true. cbv iota. rewrite Hh, Hs. cbn [andb].
  destruct r2 as [|b [|u' [|g1 [|g2 [|g3 [|g4 r3]]]]]]; reflexivity.
Qed.

Lemma scanstring_pair (h1 h2 h3 h4 g1 g2 g3 g4 u u2 : Z) (r3 : pystr) :
  Decoder.hex4_val h1 h2 h3 h4 = Some u ->
  Decoder.is_high_surrogate u = true ->
  Decoder.hex4_val g1 g2 g3 g4 = Some u2 ->
  Decoder.is_low_surrogate u2 = true ->
  r3 <> [] ->
  Decoder.scanstring (92 :: 117 :: h1 :: h2 :: h3 :: h4
                        :: 92 :: 117 :: g1 :: g2 :: g3 :: g4 :: r3)
  = match Decoder.scanstring r3 with
    | Some (str, rest) => Some (Decoder.join_surrogates u u2 :: str, rest)
    | None => None
    end.
Proof.
  intros Hh Hs Hg Hl Hn. cbn [Decoder.scanstring].
  change (92 =? 34) with false. change (92 =? 92) with true.
  change (117 =? 117) with true. cbv iota. rewrite Hh, Hs. cbn [andb].
  destruct r3 as [|x r3]; [congruence|]. cbn [negb]. cbv iota.
  rewrite Hg, Hl. reflexivity.
Qed.

Lemma scanstring_plain (c : Z) (X : pystr) :
  32 <= c -> c <> 34 -> c <> 92 ->
  Decoder.scanstring (c :: X)
  = match Decoder.scanstring X with
    | Some (str, rest) => Some (c :: str, rest)
    | None => None
    end.
Proof.
  intros H1 H2 H3. cbn [Decoder.scanstring].
  destruct (Z.eqb_spec c 34); [contradiction|].
  destruct (Z.eqb_spec c 92); [contradiction|].
  destruct (Z.ltb_spec c 32); [lia|]. reflexivity.
Qed.

Lemma join_surrogates_spec (s1 s2 : Z) :
  55296 <= s1 < 56320 -> 56320 <= s2 < 57344 ->
  Decoder.join_surrogates s1 s2 = 65536 + (s1 - 55296) * 1024 + (s2 - 56320).
Proof.
  intros H1 H2. unfold Decoder.join_surrogates.
  rewrite lor_high_low; [|  |lia].
  - rewrite Z.shiftl_mul_pow2 by lia. change (2 ^ 10) with 1024. lia.
  - change 1023 with (Z.ones 10). rewrite Z.land_ones by lia.
    rewrite Z.shiftl_mul_pow2 by lia. apply Z.mod_mul. lia.
Qed.

(** One escaped character reads back as the character. *)
Lemma scanstring_esc_char (c : Z) (X str rest : pystr) :
  scalar c ->
  Decoder.scanstring X = Some (str, rest) ->
  Decoder.scanstring (codes (Json.esc_char c) ++ X) = Some (c :: str, rest).
Proof.
  intros Hc HX.
  destruct (esc_char_cases c Hc) as
    [(a & E & N1 & N2 & Ea)|[(a & E & Hin)|[(E & Hr & Hs)|(s1 & s2 & E & H1 & H2 & Ec)]]];
    rewrite E.
  - cbn [codes map app]. rewrite <- Ea.
    assert (B : 32 <= c /\ c <> 34 /\ c <> 92).
    { revert E. unfold Json.esc_char.
      repeat match goal with
             | |- context [if ?x =? ?k then _ else _] =>
                 destruct (Z.eqb_spec x k); [discriminate|]
             end.
      destruct ((32 <=? c) && (c <=? 126)) eqn:R.
      - apply andb_prop in R as [L _]. apply Z.leb_le in L. lia.
      - destruct (c <? 65536); discriminate. }
    rewrite scanstring_plain, HX by lia. reflexivity.
  - cbn in Hin.
    repeat match goal with
           | H : _ \/ _ |- _ => destruct H as [H|H]
           end; try contradiction; injection Hin as <- <-;
      cbn [codes map app Decoder.scanstring]; vm_compute (_ =? _);
      cbv iota; vm_compute (Decoder.unescape _); rewrite HX; reflexivity.
  - change ("\"%char :: "u"%char :: Json.hex4 c) with (chars "\u" ++ Json.hex4 c).
    rewrite codes_app, <- app_assoc.
    destruct (hex4_val_hex4 c X Hr) as (h1 & h2 & h3 & h4 & E4 & Hv).
    rewrite E4. change (codes (chars "\u")) with [92; 117]. cbn [app].
    rewrite (scanstring_u h1 h2 h3 h4 c X Hv), HX; [reflexivity|].
    unfold Decoder.is_high_surrogate. apply andb_false_iff.
    rewrite Z.leb_gt, Z.leb_gt. lia.
  - change ("\"%char :: "u"%char :: Json.hex4 s1 ++ "\"%char :: "u"%char :: Json.hex4 s2)
      with (chars "\u" ++ Json.hex4 s1 ++ chars "\u" ++ Json.hex4 s2).
    rewrite !codes_app, <- !app_assoc.
    destruct (hex4_val_hex4 s2 X ltac:(lia)) as (g1 & g2 & g3 & g4 & E2 & Hv2).
    rewrite E2.
    destruct (hex4_val_hex4 s1 (codes (chars "\u") ++ g1 :: g2 :: g3 :: g4 :: X) ltac:(lia))
      as (h1 & h2 & h3 & h4 & E1 & Hv1).
    rewrite E1. change (codes (chars "\u")) with [92; 117]. cbn [app].
    rewrite (scanstring_pair h1 h2 h3 h4 g1 g2 g3 g4 s1 s2 X Hv1); try exact Hv2.
    + rewrite HX, join_surrogates_spec, Ec by lia. reflexivity.
    + unfold Decoder.is_high_surrogate. apply andb_true_iff.
      rewrite !Z.leb_le. lia.
    + unfold Decoder.is_low_surrogate. apply andb_true_iff.
      rewrite !Z.leb_le. lia.
    + intros ->. discriminate HX.
Qed.

(** A string literal of the encoder reads back as the string. *)
Lemma scanstring_encode_str (s r : pystr) :
  scalar_str s = true ->
  exists body,
    codes (Json.encode_str s) ++ r = 34 :: body /\
    Decoder.scanstring body = Some (s, r).
Proof.
  intros Hs. apply scalar_str_spec in Hs.
  unfold Json.encode_str. cbn [codes map app].
  change (Z.of_N (N_of_ascii Json.quote)) with 34.
  eexists. split; [reflexivity|].
  fold (codes (flat_map Json.esc_char s ++ [Json.quote])).
  rewrite codes_app, <- app_assoc.
  induction Hs as [|c s Hc _ IH].
  - cbn. reflexivity.
  - cbn [flat_map]. rewrite codes_app, <- app_assoc.
    apply scanstring_esc_char; assumption.
Qed.

End ScanString.

Section ScanNumber.

Lemma is_digit_code (c : ascii) :
  Decoder.is_digit (Z.of_N (N_of_ascii c)) = Float.is_digit c.
Proof.
  unfold Decoder.is_digit, Float.is_digit. cbv zeta.
  apply eq_true_iff_eq. rewrite !andb_true_iff, !Z.leb_le, !N.leb_le. lia.
Qed.

Lemma closing_not_digit (r : pystr) :
  closing_codes r ->
  match r with [] => True | c :: _ => Decoder.is_digit c = false end.
Proof. destruct r as [|c r]; [auto|]. intros [->|[->| ->]]; reflexivity. Qed.

Lemma span_digits_codes (ds : list ascii) (r : pystr) :
  forallb Float.is_digit ds = true ->
  match r with [] => True | c :: _ => Decoder.is_digit c = false end ->
  Decoder.span_digits (codes ds ++ r) = (codes ds, r).
Proof.
  intros Hd Hr. induction ds as [|c ds IH]; cbn [codes map app].
  - destruct r as [|c r]; [reflexivity|]. cbn [Decoder.span_digits]. rewrite Hr.
    reflexivity.
  - cbn [forallb] in Hd. apply andb_prop in Hd as [Hc Hd].
    cbn [Decoder.span_digits]. rewrite is_digit_code, Hc.
    fold (codes ds). rewrite (IH Hd). reflexivity.
Qed.

Lemma digits_value_codes (ds : list ascii) :
  Decoder.digits_value (codes ds) = Float.digits_value ds.
Proof.
  unfold Decoder.digits_value, Float.digits_value. generalize 0.
  induction ds as [|c ds IH]; intros acc; [reflexivity|].
  cbn [codes map fold_left]. fold (codes ds). rewrite IH. reflexivity.
Qed.

Lemma codes_length (t : list ascii) : length (codes t) = length t.
Proof. apply length_map. Qed.

(** Digits and leading zeros of the decimal writing of a number. *)
Lemma digits_of_length (n : Z) :
  0 <= n < int_text_limit -> Z.of_nat (length (Float.digits_of n)) <= 4300.
Proof.
  intros Hn. pose proof (digits_value_digits_of n ltac:(lia)) as V.
  pose proof (digits_of_digits n) as D.
  destruct (digits_of_no_leading_zero n) as [E|(d & rest & E & Hz)]; rewrite E in *.
  - cbn [length Z.of_nat]. lia.
  - cbn [forallb] in D. apply andb_prop in D as [Hd Hr].
    pose proof (digits_value_lower d rest Hd Hz Hr) as L.
    cbn [length]. rewrite Nat2Z.inj_succ.
    destruct (Z.le_gt_cases 4300 (Z.of_nat (length rest))) as [G|G]; [|lia].
    assert (P : int_text_limit <= 10 ^ Z.of_nat (length rest))
      by (apply Z.pow_le_mono_r; [reflexivity|exact G]).
    lia.
Qed.

Lemma int_repr_digits (z : Z) :
  Json.int_repr z
  = (if z <? 0 then ["-"%char] else []) ++ Float.digits_of (Z.abs z).
Proof.
  unfold Json.int_repr, Float.digits_of, DecimalString.NilZero.string_of_int.
  destruct z as [|p|p]; cbn [Z.to_int Z.abs Z.to_N Z.ltb Z.compare app]; reflexivity.
Qed.


Lemma closing_not_exponent (r : pystr) :
  closing_codes r -> Decoder.match_exponent r = None.
Proof.
  destruct r as [|c [|c' r]]; try reflexivity;
    intros [->|[->| ->]]; reflexivity.
Qed.

Lemma closing_no_fraction (r : pystr) :
  closing_codes r ->
  match r with
  | p :: d1 :: r' =>
      if (p =? 46) && Decoder.is_digit d1 then
        let '(ds, rest) := Decoder.span_digits r' in (d1 :: ds, rest)
      else ([], r)
  | _ => ([], r)
  end = ([], r).
Proof.
  destruct r as [|c [|c' r]]; try reflexivity;
    intros [->|[->| ->]]; reflexivity.
Qed.

(** The sign and the integer digits. *)
Lemma match_number_int_part (neg : bool) (ip : list ascii) (rest : pystr) :
  forallb Float.is_digit ip = true -> no_leading_zero ip ->
  match rest with [] => True | c :: _ => Decoder.is_digit c = false end ->
  Decoder.match_number (codes (Float.sign_text neg ++ ip) ++ rest)
  = Decoder.number_of neg (codes ip) rest.
Proof.
  intros Hd Hz Hr.
  assert (G : Decoder.match_number (codes ip ++ rest) = Decoder.number_of false (codes ip) rest
              /\ forall s, Decoder.match_number (45 :: codes ip ++ s)
                           = match codes ip ++ s with
                             | [] => None
                             | d :: r1 =>
                                 if (49 <=? d) && (d <=? 57) then
                                   let '(ds, r2) := Decoder.span_digits r1 in
                                   Decoder.number_of true (d :: ds) r2
                                 else if d =? 48 then Decoder.number_of true [d] r1
                                 else None
                             end).
  { split; [|reflexivity].
    destruct Hz as [->|(d & ds & -> & Nz)]; [reflexivity|].
    cbn [forallb] in Hd. apply andb_prop in Hd as [Hd1 Hd2].
    cbn [codes map app]. fold (codes ds).
    unfold Decoder.match_number.
    assert (B : 49 <= Z.of_N (N_of_ascii d) <= 57).
    { destruct d as [[] [] [] [] [] [] [] []]; try discriminate Hd1; try congruence;
        cbn; lia. }
    destruct (Z.eqb_spec (Z.of_N (N_of_ascii d)) 45); [lia|].
    replace ((49 <=? Z.of_N (N_of_ascii d)) && (Z.of_N (N_of_ascii d) <=? 57)) with true
      by (symmetry; apply andb_true_iff; rewrite !Z.leb_le; lia).
    rewrite (span_digits_codes ds rest Hd2 Hr). reflexivity. }
  destruct neg; cbn [Float.sign_text app]; [|exact (proj1 G)].
  cbn [codes map app]. fold (codes ip). change (Z.of_N (N_of_ascii "-")) with 45.
  rewrite (proj2 G).
  destruct Hz as [->|(d & ds & -> & Nz)]; [reflexivity|].
  cbn [forallb] in Hd. apply andb_prop in Hd as [Hd1 Hd2].
  cbn [codes map app]. fold (codes ds).
  assert (B : 49 <= Z.of_N (N_of_ascii d) <= 57).
  { destruct d as [[] [] [] [] [] [] [] []]; try discriminate Hd1; try congruence;
      cbn; lia. }
  replace ((49 <=? Z.of_N (N_of_ascii d)) && (Z.of_N (N_of_ascii d) <=? 57)) with true
    by (symmetry; apply andb_true_iff; rewrite !Z.leb_le; lia).
  rewrite (span_digits_codes ds rest Hd2 Hr). reflexivity.
Qed.

(** An [int] of the encoder reads back as the number. *)
Lemma match_number_int (z : Z) (r : pystr) :
  Z.abs z < int_text_limit -> closing_codes r ->
  Decoder.match_number (codes (Json.int_repr z) ++ r) = Some (PInt z, r).
Proof.
  intros Hz Hr. rewrite int_repr_digits.
  change (if z <? 0 then ["-"%char] else []) with (Float.sign_text (z <? 0)).
  rewrite match_number_int_part;
    [|apply digits_of_digits|apply digits_of_no_leading_zero|apply closing_not_digit, Hr].
  unfold Decoder.number_of.
  rewrite (closing_no_fraction r Hr), (closing_not_exponent r Hr).
  rewrite codes_length.
  pose proof (digits_of_length (Z.abs z) ltac:(lia)) as L.
  unfold Decoder.int_max_str_digits.
  destruct (Z.ltb_spec 4300 (Z.of_nat (length (Float.digits_of (Z.abs z))))); [lia|].
  rewrite digits_value_codes, digits_value_digits_of by lia.
  replace (if z <? 0 then - Z.abs z else Z.abs z) with z; [reflexivity|].
  destruct (Z.ltb_spec z 0); lia.
Qed.

(** The exponent field of [repr] reads back as the exponent. *)
Lemma match_exponent_text (x : Z) (r : pystr) :
  closing_codes r ->
  Decoder.match_exponent (codes ("e"%char :: Float.exponent_text x) ++ r) = Some (x, r).
Proof.
  intros Hr. unfold Float.exponent_text.
  set (body := (if Z.abs x <? 10 then ["0"%char] else []) ++ Float.digits_of (Z.abs x)).
  assert (Hd : forallb Float.is_digit body = true).
  { unfold body. rewrite forallb_app. change Float.is_digit with is_digit.
    rewrite digits_of_digits. destruct (Z.abs x <? 10); reflexivity. }
  assert (Hv : Float.digits_value body = Z.abs x).
  { unfold body. rewrite digits_value_app, digits_value_digits_of by lia.
    destruct (Z.abs x <? 10); cbn; lia. }
  assert (Hn : body <> []).
  { unfold body. intros E. apply app_eq_nil in E as [_ E].
    exact (digits_of_nonempty _ E). }
  cbn [codes map app]. fold (codes body).
  change (Z.of_N (N_of_ascii "e")) with 101.
  unfold Decoder.match_exponent.
  change ((101 =? 101) || (101 =? 69)) with true. cbv iota.
  pose proof (span_digits_codes body r Hd (closing_not_digit r Hr)) as S.
  pose proof (digits_value_codes body) as V.
  destruct body as [|d ds]; [congruence|]. cbn [codes map app] in *.
  destruct (Z.ltb_spec x 0).
  - change (Z.of_N (N_of_ascii "-")) with 45. change (45 =? 45) with true. cbv iota.
    rewrite S, V, Hv. replace (- Z.abs x) with x by lia. reflexivity.
  - change (Z.of_N (N_of_ascii "+")) with 43. change (43 =? 45) with false.
    change (43 =? 43) with true. cbv iota.
    rewrite S, V, Hv. replace (Z.abs x) with x by lia. reflexivity.
Qed.

Lemma number_of_fraction (neg : bool) (ip fp : list ascii) (r : pystr) :
  forallb Float.is_digit fp = true -> fp <> [] -> closing_codes r ->
  Decoder.number_of neg (codes ip) (codes ("."%char :: fp) ++ r)
  = Some (PFloat (Float.of_decimal neg (Float.digits_value (ip ++ fp))
                    (- Z.of_nat (length fp))), r).
Proof.
  intros Hf Hn Hr. destruct fp as [|d fp]; [congruence|].
  cbn [forallb] in Hf. apply andb_prop in Hf as [Hd Hf].
  unfold Decoder.number_of. cbn [codes map app]. fold (codes fp).
  change (Z.of_N (N_of_ascii ".")) with 46. change (46 =? 46) with true.
  rewrite is_digit_code, Hd. cbn [andb].
  rewrite (span_digits_codes fp r Hf (closing_not_digit r Hr)).
  rewrite (closing_not_exponent r Hr).
  change (Z.of_N (N_of_ascii d) :: codes fp) with (codes (d :: fp)).
  rewrite <- codes_app, digits_value_codes, codes_length. reflexivity.
Qed.

Lemma number_of_fraction_exponent (neg : bool) (ip fp : list ascii) (x : Z) (r : pystr) :
  forallb Float.is_digit fp = true -> fp <> [] -> closing_codes r ->
  Decoder.number_of neg (codes ip)
    (codes ("."%char :: fp ++ "e"%char :: Float.exponent_text x) ++ r)
  = Some (PFloat (Float.of_decimal neg (Float.digits_value (ip ++ fp))
                    (x - Z.of_nat (length fp))), r).
Proof.
  intros Hf Hn Hr. destruct fp as [|d fp]; [congruence|].
  cbn [forallb] in Hf. apply andb_prop in Hf as [Hd Hf].
  unfold Decoder.number_of. cbn [codes map app]. fold (codes (fp ++ "e"%char :: Float.exponent_text x)).
  change (Z.of_N (N_of_ascii ".")) with 46. change (46 =? 46) with true.
  rewrite is_digit_code, Hd. cbn [andb].
  rewrite codes_app, <- app_assoc.
  rewrite (span_digits_codes fp _ Hf); [|reflexivity].
  rewrite (match_exponent_text x r Hr).
  change (Z.of_N (N_of_ascii d) :: codes fp) with (codes (d :: fp)).
  rewrite <- codes_app, digits_value_codes, codes_length. reflexivity.
Qed.

Lemma number_of_exponent (neg : bool) (ip : list ascii) (x : Z) (r : pystr) :
  closing_codes r ->
  Decoder.number_of neg (codes ip) (codes ("e"%char :: Float.exponent_text x) ++ r)
  = Some (PFloat (Float.of_decimal neg (Float.digits_value ip) x), r).
Proof.
  intros Hr. unfold Decoder.number_of.
  remember (codes ("e"%char :: Float.exponent_text x) ++ r) as R eqn:ER.
  assert (S : exists c R', R = 101 :: c :: R').
  { subst R. unfold Float.exponent_text. cbn [codes map app]. eauto. }
  destruct S as (c & R' & E). rewrite E.
  change (101 =? 46) with false. cbn [andb]. cbv iota.
  rewrite <- E, ER, (match_exponent_text x r Hr).
  rewrite app_nil_r, digits_value_codes. cbn [length Z.of_nat].
  rewrite Z.sub_0_r. reflexivity.
Qed.


(** The shortest digits start with a digit other than 0, zero apart. *)
Lemma shortest_digits_leading (m e : Z) :
  valid_fin m e ->
  let '(ds, decpt) := Float.shortest_digits m e in
  (exists d rest, ds = d :: rest /\ d <> "0"%char) \/ (ds = ["0"%char] /\ decpt = 1).
Proof.
  intros Hv. pose proof (shortest_digits_value false m e Hv) as S.
  unfold Float.shortest_digits in *.
  destruct (m <=? 0); [right; split; reflexivity|].
  destruct (Float.scale2 m 1 (- e)) as [p q].
  destruct (Float.shortest_from _ _ _ _ _ _ _) as [c k].
  destruct S as (_ & N & _). left.
  destruct (strip_trailing_zeros_spec (Float.digits_of c)) as [z Z0].
  destruct (digits_of_no_leading_zero c) as [E|(d & rest & E & Hz)].
  - exfalso. apply N. rewrite E. reflexivity.
  - rewrite E in *.
    destruct (Float.strip_trailing_zeros (d :: rest)) as [|d' rest'] eqn:Es.
    + congruence.
    + injection Z0 as <- _. eauto.
Qed.

(** The text [repr] gives for the digits [ds], as the decoder reads it. *)
Lemma match_number_format_repr (neg : bool) (ds : list ascii) (decpt : Z) (r : pystr) :
  forallb is_digit ds = true ->
  (exists d rest, ds = d :: rest /\ d <> "0"%char) \/ (ds = ["0"%char] /\ decpt = 1) ->
  closing_codes r ->
  Decoder.match_number (codes (Float.sign_text neg ++ Float.format_repr ds decpt) ++ r)
  = Some (PFloat (Float.of_decimal neg (Float.digits_value ds)
                    (decpt - Z.of_nat (length ds))), r).
Proof.
  intros Hd Hl Hr.
  assert (Hn : ds <> []) by (destruct Hl as [(d & rest & -> & _)|[-> _]]; discriminate).
  pose proof (of_text_format_repr neg ds decpt Hd Hn) as T.
  assert (G : forall ip tail X,
             Float.format_repr ds decpt = ip ++ tail ->
             forallb Float.is_digit ip = true -> no_leading_zero ip ->
             match codes tail ++ r with [] => True | c :: _ => Decoder.is_digit c = false end ->
             Decoder.number_of neg (codes ip) (codes tail ++ r) = Some (PFloat X, r) ->
             Float.of_text (Float.sign_text neg ++ ip ++ tail) = Some X ->
             Decoder.match_number
               (codes (Float.sign_text neg ++ Float.format_repr ds decpt) ++ r)
             = Some (PFloat (Float.of_decimal neg (Float.digits_value ds)
                               (decpt - Z.of_nat (length ds))), r)).
  { intros ip tail X E Hi Hz Ht HN HT. rewrite E in T |- *.
    rewrite app_assoc, codes_app, <- app_assoc.
    rewrite (match_number_int_part neg ip _ Hi Hz Ht), HN. congruence. }
  unfold Float.format_repr in G |- *.
  destruct ((decpt <=? -4) || (16 <? decpt)) eqn:Ex.
  { destruct ds as [|d [|d' rest]]; [congruence|..].
    - eapply (G [d] ("e"%char :: Float.exponent_text (decpt - 1))).
      + reflexivity.
      + exact Hd.
      + destruct Hl as [(d0 & rest0 & [= <- <-] & Hz)|[[= ->] _]];
          [right; eauto|left; reflexivity].
      + reflexivity.
      + apply number_of_exponent, Hr.
      + apply (of_text_exp_int neg [d] (decpt - 1) Hd). discriminate.
    - cbn [forallb] in Hd. apply andb_prop in Hd as [Hd1 Hd2].
      eapply (G [d] ("."%char :: (d' :: rest) ++ "e"%char :: Float.exponent_text (decpt - 1))).
      + reflexivity.
      + cbn [forallb]. change Float.is_digit with is_digit. rewrite Hd1. reflexivity.
      + destruct Hl as [(d0 & rest0 & [= <- <-] & Hz)|[[=] _]]. right. eauto.
      + reflexivity.
      + apply number_of_fraction_exponent; [exact Hd2|discriminate|exact Hr].
      + apply (of_text_exp neg [d] (d' :: rest) (decpt - 1));
          [cbn [forallb]; rewrite Hd1; reflexivity|exact Hd2|discriminate]. }
  destruct (Z.leb_spec decpt 0) as [L|L].
  { eapply (G ["0"%char] ("."%char :: repeat "0"%char (Z.to_nat (- decpt)) ++ ds)).
    - reflexivity.
    - reflexivity.
    - left. reflexivity.
    - reflexivity.
    - apply number_of_fraction; [|destruct (repeat _ _); [exact Hn|discriminate]|exact Hr].
      change Float.is_digit with is_digit. rewrite forallb_app, repeat_zero_digits. exact Hd.
    - apply of_text_fixed;
        [reflexivity|rewrite forallb_app, repeat_zero_digits; exact Hd|discriminate]. }
  destruct (Z.leb_spec (Z.of_nat (length ds)) decpt) as [L'|L'].
  { eapply (G (ds ++ repeat "0"%char (Z.to_nat decpt - length ds)) ("."%char :: ["0"%char])).
    - rewrite <- app_assoc. reflexivity.
    - change Float.is_digit with is_digit. rewrite forallb_app, repeat_zero_digits, Hd.
      reflexivity.
    - destruct Hl as [(d0 & rest0 & -> & Hz)|[-> ->]]; [right; cbn [app]; eauto|].
      left. reflexivity.
    - reflexivity.
    - apply number_of_fraction; [reflexivity|discriminate|exact Hr].
    - apply of_text_fixed;
        [rewrite forallb_app, repeat_zero_digits, Hd; reflexivity|reflexivity|].
      destruct ds; [congruence|discriminate]. }
  destruct (forallb_firstn_skipn_digits (Z.to_nat decpt) ds Hd) as [H1 H2].
  assert (Hs : skipn (Z.to_nat decpt) ds <> []).
  { intros E. apply (f_equal (@length ascii)) in E. rewrite length_skipn in E.
    cbn [length] in E. lia. }
  eapply (G (firstn (Z.to_nat decpt) ds) ("."%char :: skipn (Z.to_nat decpt) ds)).
  - reflexivity.
  - exact H1.
  - destruct Hl as [(d0 & rest0 & -> & Hz)|[-> ->]].
    + right. destruct (Z.to_nat decpt) eqn:E; [lia|]. cbn [firstn]. eauto.
    + cbn [length] in L'. lia.
  - reflexivity.
  - apply number_of_fraction; [exact H2|exact Hs|exact Hr].
  - apply of_text_fixed; [exact H1|exact H2|].
    destruct ds as [|d ds]; [congruence|].
    destruct (Z.to_nat decpt) eqn:E; [lia|discriminate].
Qed.

(** A finite [float] of the encoder reads back as the float. *)
Lemma match_number_float (neg : bool) (m e : Z) (r : pystr) :
  valid_fin m e -> closing_codes r ->
  Decoder.match_number (codes (Json.floatstr (FFin neg m e)) ++ r)
  = Some (PFloat (FFin neg m e), r).
Proof.
  intros Hv Hr. cbn [Json.floatstr]. unfold Float.repr.
  pose proof (shortest_digits_value neg m e Hv) as S.
  pose proof (shortest_digits_leading m e Hv) as L.
  destruct (Float.shortest_digits m e) as [ds decpt].
  destruct S as (D & N & V).
  rewrite (match_number_format_repr neg ds decpt r D L Hr), V. reflexivity.
Qed.

End ScanNumber.

Section ScanValue.

Lemma skip_ws_blank (ws : list ascii) (X : pystr) :
  blank ws = true ->
  match X with [] => True | c :: _ => Decoder.is_ws c = false end ->
  Decoder.skip_ws (codes ws ++ X) = X.
Proof.
  intros Hw HX. induction ws as [|c ws IH]; cbn [codes map app].
  - destruct X as [|c X]; [reflexivity|]. cbn [Decoder.skip_ws]. rewrite HX. reflexivity.
  - cbn [blank forallb] in Hw. apply andb_prop in Hw as [Hc Hw].
    cbn [Decoder.skip_ws]. rewrite Hc. exact (IH Hw).
Qed.

Lemma skip_ws_stop (c : Z) (X : pystr) :
  Decoder.is_ws c = false -> Decoder.skip_ws (c :: X) = c :: X.
Proof. intros H. cbn [Decoder.skip_ws]. rewrite H. reflexivity. Qed.

Lemma lead_opens (v : pyval) (c : ascii) : lead v c -> opens (Z.of_N (N_of_ascii c)).
Proof.
  assert (D : forall a, int_char a = true -> opens (Z.of_N (N_of_ascii a))).
  { intros a Ha. unfold int_char in Ha. apply orb_prop in Ha as [Ha|Ha].
    - unfold is_digit, Float.is_digit in Ha. cbv zeta in Ha.
      apply andb_prop in Ha as [H1 H2]. apply N.leb_le in H1, H2.
      unfold opens, Decoder.is_ws.
      repeat match goal with
             | |- context [?x =? ?k] => destruct (Z.eqb_spec x k); [lia|]
             end.
      repeat split; try reflexivity; lia.
    - apply Ascii.eqb_eq in Ha. subst a. repeat split; try reflexivity; discriminate. }
  destruct v as [|[]|z|f|s|l|l|d|n]; cbn [lead]; try contradiction;
    try (intros ->; repeat split; try reflexivity; discriminate);
    try exact (D c).
  intros [H|[->| ->]]; [exact (D c H)|..]; repeat split; try reflexivity; discriminate.
Qed.


Lemma scan_once_number (f : nat) (c : Z) (r : pystr) :
  Decoder.is_digit c = true
  \/ (c = 45 /\ exists d r', r = d :: r' /\ Decoder.is_digit d = true) ->
  Decoder.scan_once (S f) (c :: r) = Decoder.match_number (c :: r).
Proof.
  intros H. cbn [Decoder.scan_once]. cbv zeta.
  destruct H as [H|(-> & d & r' & -> & Hd)].
  - unfold Decoder.is_digit in H. apply andb_prop in H as [H1 H2].
    apply Z.leb_le in H1, H2.
    repeat match goal with
           | |- context [c =? ?k] => destruct (Z.eqb_spec c k); [lia|]
           end.
    reflexivity.
  - change (45 =? 34) with false. change (45 =? 123) with false.
    change (45 =? 91) with false. change (45 =? 110) with false.
    change (45 =? 116) with false. change (45 =? 102) with false.
    change (45 =? 78) with false. change (45 =? 73) with false.
    change (45 =? 45) with true. cbv iota.
    cbn [Decoder.starts_with].
    unfold Decoder.is_digit in Hd. apply andb_prop in Hd as [H1 H2].
    apply Z.leb_le in H1, H2.
    destruct (Z.eqb_spec d 73); [lia|]. reflexivity.
Qed.

Lemma dict_set_new (k : pystr) (v : pyval) (acc : list (pystr * pyval)) :
  ~ In k (map fst acc) -> Decoder.dict_set k v acc = acc ++ [(k, v)].
Proof.
  induction acc as [|[k' v'] acc IH]; intros H; [reflexivity|].
  cbn [Decoder.dict_set app]. cbn [map fst In] in H.
  destruct (str_eqb k' k) eqn:E.
  - apply str_eqb_eq in E. tauto.
  - rewrite IH by tauto. reflexivity.
Qed.

Lemma insert_item_map {A B : Type} (g : A -> B) (kv : pystr * A) (l : list (pystr * A)) :
  Json.insert_item (fst kv, g (snd kv)) (map (fun x => (fst x, g (snd x))) l)
  = map (fun x => (fst x, g (snd x))) (Json.insert_item kv l).
Proof.
  induction l as [|x l IH]; [reflexivity|].
  cbn [map Json.insert_item fst]. destruct (Json.str_leb (fst kv) (fst x)).
  - reflexivity.
  - cbn [map]. rewrite <- IH. reflexivity.
Qed.

Lemma sort_items_map {A B : Type} (g : A -> B) (l : list (pystr * A)) :
  Json.sort_items (map (fun x => (fst x, g (snd x))) l)
  = map (fun x => (fst x, g (snd x))) (Json.sort_items l).
Proof.
  induction l as [|x l IH]; [reflexivity|].
  cbn [map Json.sort_items fold_right]. fold (Json.sort_items l).
  fold (Json.sort_items (map (fun x => (fst x, g (snd x))) l)).
  rewrite IH. apply insert_item_map.
Qed.

Lemma order_perm {A : Type} (sk : bool) (d : list (pystr * A)) :
  Permutation (if sk then Json.sort_items d else d) d.
Proof. destruct sk; [apply sort_items_perm|apply Permutation_refl]. Qed.

Lemma decoded_dict (sk : bool) (d : list (pystr * pyval)) :
  decoded sk (PDict d)
  = PDict (map (fun kv => (fst kv, decoded sk (snd kv)))
             (if sk then Json.sort_items d else d)).
Proof.
  cbn [decoded]. destruct sk; [|reflexivity].
  rewrite (sort_items_map (decoded true)). reflexivity.
Qed.

Lemma encoded_items_in_order (sk : bool) (isep ksep : list ascii)
      (d : list (pystr * pyval)) (items : list (pystr * list ascii)) :
  Json.all_some (map (fun kv => match Json.encode sk isep ksep (snd kv) with
                                | Some t => Some (fst kv, t)
                                | None => None
                                end) d) = Some items ->
  Forall2 (fun kv it => match Json.encode sk isep ksep (snd kv) with
                        | Some t => Some (fst kv, t)
                        | None => None
                        end = Some it)
          (if sk then Json.sort_items d else d)
          (if sk then Json.sort_items items else items).
Proof.
  intros H. destruct sk.
  - apply all_some_Forall2. apply (encode_sort_items isep ksep). exact H.
  - apply all_some_Forall2. exact H.
Qed.

Section Encoded.

Variable sort_keys : bool.
Variables ws_i ws_k : list ascii.
Hypothesis ws_i_blank : blank ws_i = true.
Hypothesis ws_k_blank : blank ws_k = true.

Let isep : list ascii := ","%char :: ws_i.
Let ksep : list ascii := ":"%char :: ws_k.
Let enc := Json.encode sort_keys isep ksep.
Let enc_kv (kv : pystr * pyval) : option (pystr * list ascii) :=
  match enc (snd kv) with
  | Some t => Some (fst kv, t)
  | None => None
  end.

Lemma encode_lead (v : pyval) (t : list ascii) :
  plain v = true -> enc v = Some t -> exists c t0, t = c :: t0 /\ lead v c.
Proof.
  destruct v as [|b|z|f|s|l|l|d|n]; cbn [plain]; intros Hp He;
    try discriminate Hp; unfold enc in He; cbn [Json.encode] in He.
  - injection He as <-. eexists _, _. split; reflexivity.
  - destruct b; injection He as <-; eexists _, _; split; reflexivity.
  - injection He as <-.
    pose proof (int_repr_chars z) as Hc. pose proof (int_repr_nonempty z) as Hn.
    destruct (Json.int_repr z) as [|c t0]; [congruence|].
    exists c, t0. split; [reflexivity | exact (forallb_head _ _ _ Hc)].
  - injection He as <-.
    destruct f as [|[]|neg m e]; try (eexists _, _; split; [reflexivity|]; cbn; auto).
    pose proof (repr_body_nonempty neg m e (valid_reads_back _ Hp)) as Hn.
    pose proof (format_repr_head (fst (Float.shortest_digits m e))
                  (snd (Float.shortest_digits m e)) (shortest_digits_digits m e)) as Hh.
    cbn [Json.floatstr]. unfold Float.repr.
    destruct (Float.shortest_digits m e) as [ds decpt]. cbn [fst snd] in *.
    destruct neg; cbn [Float.sign_text app].
    + eexists _, _. split; [reflexivity|]. left. reflexivity.
    + destruct (Float.format_repr ds decpt) as [|c t0]; [congruence|].
      exists c, t0. split; [reflexivity|]. left.
      unfold int_char. rewrite Hh. reflexivity.
  - injection He as <-. eexists _, _. split; reflexivity.
  - destruct (Json.all_some _); [|discriminate]. injection He as <-.
    eexists _, _. split; reflexivity.
  - destruct (Json.all_some _); [|discriminate]. injection He as <-.
    eexists _, _. split; reflexivity.
Qed.

Lemma encode_opens (v : pyval) (t : list ascii) (X : pystr) :
  plain v = true -> enc v = Some t ->
  exists c Y, codes t ++ X = c :: Y /\ opens c.
Proof.
  intros Hp He. destruct (encode_lead v t Hp He) as (c & t0 & -> & Hc).
  cbn [codes map app]. eexists _, _. split; [reflexivity|].
  exact (lead_opens v c Hc).
Qed.


Lemma number_text_start (neg : bool) (body : list ascii) (X : pystr) :
  match body with [] => False | c :: _ => Float.is_digit c = true end ->
  exists c Y,
    codes (Float.sign_text neg ++ body) ++ X = c :: Y /\
    (Decoder.is_digit c = true
     \/ (c = 45 /\ exists d r', Y = d :: r' /\ Decoder.is_digit d = true)).
Proof.
  destruct body as [|b body]; [contradiction|]. intros Hb.
  destruct neg; cbn [Float.sign_text codes map app]; eexists _, _;
    (split; [reflexivity|]).
  - right. split; [reflexivity|]. eexists _, _. split; [reflexivity|].
    rewrite is_digit_code. exact Hb.
  - left. rewrite is_digit_code. exact Hb.
Qed.

(** The values without parts. *)
Lemma scan_scalar (v : pyval) (t : list ascii) (r : pystr) (f : nat) :
  match v with PList _ | PTuple _ | PDict _ | PObject _ => False | _ => True end ->
  plain v = true -> ints_convertible v = true ->
  enc v = Some t -> closing_codes r ->
  Decoder.scan_once (S f) (codes t ++ r) = Some (v, r).
Proof.
  intros Hk Hp Hi He Hr. unfold enc in He.
  destruct v as [|b|z|fl|s|l|l|d|n]; try contradiction; cbn [Json.encode] in He.
  - injection He as <-. reflexivity.
  - destruct b; injection He as <-; reflexivity.
  - injection He as <-. cbn [ints_convertible] in Hi. apply Z.ltb_lt in Hi.
    pose proof (match_number_int z r Hi Hr) as M.
    rewrite int_repr_digits in M |- *.
    destruct (number_text_start (z <? 0) (Float.digits_of (Z.abs z)) r) as (c & Y & E & Hc).
    { pose proof (digits_of_digits (Z.abs z)) as D.
      pose proof (digits_of_nonempty (Z.abs z)) as N.
      destruct (Float.digits_of (Z.abs z)); [congruence|].
      cbn [forallb] in D. apply andb_prop in D as [D _]. exact D. }
    change (if z <? 0 then ["-"%char] else []) with (Float.sign_text (z <? 0)) in *.
    rewrite E in M |- *. rewrite (scan_once_number f c Y Hc). exact M.
  - injection He as <-. cbn [plain] in Hp.
    destruct fl as [|[]|neg m e]; try reflexivity.
    pose proof (match_number_float neg m e r (valid_valid_fin neg m e Hp) Hr) as M.
    cbn [Json.floatstr] in M |- *. unfold Float.repr in M |- *.
    pose proof (repr_body_nonempty neg m e (valid_reads_back _ Hp)) as Hn.
    pose proof (format_repr_head (fst (Float.shortest_digits m e))
                  (snd (Float.shortest_digits m e)) (shortest_digits_digits m e)) as Hh.
    destruct (Float.shortest_digits m e) as [ds decpt]. cbn [fst snd] in *.
    destruct (number_text_start neg (Float.format_repr ds decpt) r) as (c & Y & E & Hc).
    { destruct (Float.format_repr ds decpt); [congruence|exact Hh]. }
    rewrite E in M |- *. rewrite (scan_once_number f c Y Hc). exact M.
  - injection He as <-. cbn [plain] in Hp.
    destruct (scanstring_encode_str s r Hp) as (body & E & Hs).
    rewrite E. cbn [Decoder.scan_once]. change (34 =? 34) with true. cbv iota.
    rewrite Hs. reflexivity.
Qed.


(** The text of [v], whatever follows it, reads back as [v]. *)
Let reads (v : pyval) : Prop :=
  plain v = true -> ints_convertible v = true ->
  forall (t : list ascii) (r : pystr) (fuel : nat),
    enc v = Some t -> closing_codes r ->
    (2 * length (codes t ++ r) + 1 <= fuel)%nat ->
    Decoder.scan_once fuel (codes t ++ r) = Some (decoded sort_keys v, r).

Lemma join_two (p q : list ascii) (qs : list (list ascii)) :
  Json.join isep (p :: q :: qs) = p ++ isep ++ Json.join isep (q :: qs).
Proof. cbn [Json.join flat_map]. rewrite <- app_assoc. reflexivity. Qed.

Lemma join_one (p : list ascii) : Json.join isep [p] = p.
Proof. cbn [Json.join flat_map]. apply app_nil_r. Qed.

Lemma parse_array_loop (l : list pyval) (parts : list (list ascii)) :
  Forall reads l -> forallb plain l = true -> forallb ints_convertible l = true ->
  Forall2 (fun v p => enc v = Some p) l parts -> l <> [] ->
  forall (acc : list pyval) (r : pystr) (fuel : nat),
    (2 * length (codes (Json.join isep parts) ++ 93%Z :: r) + 2 <= fuel)%nat ->
    Decoder.parse_array fuel (codes (Json.join isep parts) ++ 93 :: r) acc
    = Some (PList (rev acc ++ map (decoded sort_keys) l), r).
Proof.
  intros HF Hp Hi H2. induction H2 as [|v p l parts Hv H2 IH]; intros Hn acc r fuel Hf;
    [congruence|].
  inversion HF as [|? ? Rv HF']; subst.
  cbn [forallb] in Hp, Hi.
  apply andb_prop in Hp as [Hpv Hp]. apply andb_prop in Hi as [Hiv Hi].
  destruct fuel as [|f]; [lia|]. cbn [Decoder.parse_array].
  destruct H2 as [|v2 q l2 qs Hv2 H2].
  - rewrite join_one in *.
    rewrite (Rv Hpv Hiv p (93 :: r) f Hv); [|right; left; reflexivity|lia].
    rewrite (skip_ws_stop 93) by reflexivity.
    change (93 =? 93) with true. cbv iota.
    cbn [rev map]. reflexivity.
  - set (X := codes (Json.join isep (q :: qs)) ++ 93 :: r).
    assert (EJ : codes (Json.join isep (p :: q :: qs)) ++ 93 :: r
                 = codes p ++ 44 :: codes ws_i ++ X).
    { rewrite join_two. unfold isep at 1. rewrite !codes_app, <- !app_assoc.
      reflexivity. }
    rewrite EJ in Hf |- *.
    rewrite (Rv Hpv Hiv p (44 :: codes ws_i ++ X) f Hv);
      [|left; reflexivity|rewrite !length_app in *; cbn [length] in *; lia].
    rewrite (skip_ws_stop 44) by reflexivity.
    change (44 =? 93) with false. change (44 =? 44) with true. cbv iota.
    cbn [forallb] in Hp. apply andb_prop in Hp as [Hp2 Hp].
    destruct (encode_opens v2 q (codes (Json.join isep qs) ++ 93 :: r) Hp2 Hv2)
      as (c & Y & E & Hc & _).
    assert (EX : exists c' Y', X = c' :: Y' /\ Decoder.is_ws c' = false).
    { unfold X. destruct qs as [|q' qs'].
      - rewrite join_one. cbn [Json.join codes map app] in E. rewrite E. eauto.
      - rewrite join_two, codes_app, <- app_assoc.
        destruct (encode_opens v2 q (codes (isep ++ Json.join isep (q' :: qs')) ++ 93 :: r)
                    Hp2 Hv2) as (c' & Y' & E' & Hc' & _).
        rewrite E'. eauto. }
    destruct EX as (c' & Y' & EX & Hc').
    rewrite skip_ws_blank; [|exact ws_i_blank|rewrite EX; exact Hc'].
    unfold X in *.
    rewrite IH.
    + cbn [rev map]. rewrite <- app_assoc. reflexivity.
    + exact HF'.
    + cbn [forallb]. rewrite Hp2, Hp. reflexivity.
    + exact Hi.
    + discriminate.
    + rewrite !length_app in Hf. cbn [length] in Hf. rewrite !length_app in Hf.
      rewrite length_app. lia.
Qed.


Let decoded_item (kv : pystr * pyval) : pystr * pyval :=
  (fst kv, decoded sort_keys (snd kv)).

Lemma parse_object_loop (D : list (pystr * pyval)) (items : list (pystr * list ascii)) :
  Forall (fun kv => reads (snd kv)) D ->
  forallb item_ok D = true ->
  forallb (fun kv => ints_convertible (snd kv)) D = true ->
  NoDup (map fst D) ->
  Forall2 (fun kv it => enc_kv kv = Some it) D items -> D <> [] ->
  forall (acc : list (pystr * pyval)) (r : pystr) (fuel : nat),
    (forall k, In k (map fst D) -> ~ In k (map fst acc)) ->
    (2 * length (codes (Json.join isep (map (Json.encode_item ksep) items)) ++ 125%Z :: r)
     + 2 <= fuel)%nat ->
    Decoder.parse_object fuel
      (codes (Json.join isep (map (Json.encode_item ksep) items)) ++ 125 :: r) acc
    = Some (PDict (acc ++ map decoded_item D), r).
Proof.
  intros HF Hp Hi Hnd H2.
  induction H2 as [|kv it D items Hkv H2 IH]; intros Hn acc r fuel Hacc Hf; [congruence|].
  inversion HF as [|? ? Rv HF']; subst.
  inversion Hnd as [|? ? Hk Hnd']; subst.
  cbn [forallb] in Hp, Hi.
  apply andb_prop in Hp as [Hpv Hp]. apply andb_prop in Hi as [Hiv Hi].
  unfold item_ok in Hpv. apply andb_prop in Hpv as [Hks Hpv].
  unfold enc_kv in Hkv. destruct (enc (snd kv)) as [t|] eqn:Et; [|discriminate].
  injection Hkv as <-.
  destruct fuel as [|f]; [lia|].
  (* the text of this item and what follows it *)
  assert (step : forall rest1 : pystr,
             closing_codes rest1 ->
             (2 * length (codes (Json.encode_item ksep (fst kv, t)) ++ rest1) + 2 <= S f)%nat ->
             Decoder.parse_object (S f)
               (codes (Json.encode_item ksep (fst kv, t)) ++ rest1) acc
             = match Decoder.skip_ws rest1 with
               | c :: r4 =>
                   if c =? 125 then Some (PDict (acc ++ [decoded_item kv]), r4)
                   else if c =? 44
                        then Decoder.parse_object f (Decoder.skip_ws r4)
                               (acc ++ [decoded_item kv])
                        else None
               | [] => None
               end).
  { intros rest1 Hc1 Hf1.
    assert (EI : codes (Json.encode_item ksep (fst kv, t)) ++ rest1
                 = codes (Json.encode_str (fst kv))
                   ++ 58 :: codes ws_k ++ codes t ++ rest1).
    { unfold Json.encode_item. cbn [fst snd]. unfold ksep.
      rewrite !codes_app, <- !app_assoc. reflexivity. }
    rewrite EI in Hf1 |- *.
    destruct (scanstring_encode_str (fst kv) (58 :: codes ws_k ++ codes t ++ rest1) Hks)
      as (body & E & Hs).
    rewrite E in Hf1 |- *. cbn [Decoder.parse_object].
    change (34 =? 34) with true. cbv iota. rewrite Hs.
    rewrite (skip_ws_stop 58) by reflexivity.
    change (58 =? 58) with true. cbv iota.
    destruct (encode_opens (snd kv) t rest1 Hpv Et) as (c & Y & Eo & Ho & _).
    rewrite skip_ws_blank; [|exact ws_k_blank|rewrite Eo; exact Ho].
    rewrite (Rv Hpv Hiv t rest1 f Et Hc1).
    - rewrite dict_set_new; [reflexivity|].
      apply Hacc. left. reflexivity.
    - apply (f_equal (@length Z)) in E. rewrite !length_app in E. cbn [length] in *.
      rewrite !length_app in E. rewrite length_app. lia. }
  destruct H2 as [|kv2 it2 D2 items2 Hkv2 H2].
  - cbn [map] in *. rewrite join_one in *.
    rewrite step; [|right; right; reflexivity|exact Hf].
    rewrite (skip_ws_stop 125) by reflexivity.
    change (125 =? 125) with true. cbv iota. reflexivity.
  - cbn [map] in *. set (its := Json.encode_item ksep it2 :: map (Json.encode_item ksep) items2) in *.
    set (X := codes (Json.join isep its) ++ 125 :: r).
    assert (EJ : codes (Json.join isep (Json.encode_item ksep (fst kv, t) :: its)) ++ 125 :: r
                 = codes (Json.encode_item ksep (fst kv, t)) ++ 44 :: codes ws_i ++ X).
    { unfold its. rewrite join_two. unfold isep at 1. rewrite !codes_app, <- !app_assoc.
      reflexivity. }
    rewrite EJ in Hf |- *.
    rewrite step; [|left; reflexivity|exact Hf].
    rewrite (skip_ws_stop 44) by reflexivity.
    change (44 =? 125) with false. change (44 =? 44) with true. cbv iota.
    assert (EX : exists c' Y', X = c' :: Y' /\ Decoder.is_ws c' = false).
    { unfold X, its. exists 34.
      destruct items2 as [|it3 items3]; cbn [map]; [rewrite join_one|rewrite join_two];
        unfold Json.encode_item at 1, Json.encode_str; cbn [codes map app];
        eexists; (split; [reflexivity|reflexivity]). }
    destruct EX as (c' & Y' & EX & Hc').
    rewrite skip_ws_blank; [|exact ws_i_blank|rewrite EX; exact Hc'].
    unfold X, its in *.
    rewrite IH.
    + rewrite <- app_assoc. reflexivity.
    + exact HF'.
    + exact Hp.
    + exact Hi.
    + exact Hnd'.
    + discriminate.
    + intros k Hin Hin'. rewrite map_app, in_app_iff in Hin'. cbn [map fst In] in Hin'.
      destruct Hin' as [Hin'|[<-|[]]].
      * apply (Hacc k); [right; exact Hin|exact Hin'].
      * apply Hk. exact Hin.
    + rewrite !length_app in Hf. cbn [length] in Hf. rewrite !length_app in Hf.
      rewrite length_app. lia.
Qed.


(** The text of a value reads back as the value. *)
Lemma scan_value (v : pyval) : reads v.
Proof.
  induction v as [|b|z|f|s|l IH|l IH|d IH|n] using pyval_nested_ind;
    intros Hp Hi t r fuel He Hr Hf;
    try discriminate Hp;
    try (destruct fuel as [|fuel]; [lia|];
         match goal with
         | |- _ = Some (decoded _ ?v, _) =>
             exact (scan_scalar v t r fuel I Hp Hi He Hr)
         end).
  - (* list *)
    unfold enc in He. cbn [Json.encode] in He. fold enc in He.
    destruct (Json.all_some (map enc l)) as [parts|] eqn:El; [|discriminate].
    injection He as <-. apply all_some_Forall2 in El.
    cbn [plain ints_convertible] in Hp, Hi.
    assert (ET : codes ("["%char :: Json.join isep parts ++ ["]"%char]) ++ r
                 = 91 :: codes (Json.join isep parts) ++ 93 :: r).
    { cbn [codes map app]. fold (codes (Json.join isep parts ++ ["]"%char])).
      rewrite codes_app, <- app_assoc. reflexivity. }
    rewrite ET in Hf |- *. destruct fuel as [|fuel]; [lia|].
    cbn [Decoder.scan_once]. change (91 =? 34) with false.
    change (91 =? 123) with false. change (91 =? 91) with true. cbv iota.
    destruct El as [|v p l parts Hv El].
    + cbn [Json.join codes map app]. rewrite (skip_ws_stop 93) by reflexivity.
      change (93 =? 93) with true. cbv iota. reflexivity.
    + cbn [forallb] in Hp. apply andb_prop in Hp as [Hpv Hp].
      assert (EX : exists c Y, codes (Json.join isep (p :: parts)) ++ 93 :: r = c :: Y
                               /\ opens c).
      { destruct parts as [|q qs]; [rewrite join_one|rewrite join_two, codes_app, <- app_assoc];
          apply (encode_opens v p _ Hpv Hv). }
      destruct EX as (c & Y & EX & Ho & N93 & _).
      rewrite EX, (skip_ws_stop c Y Ho).
      destruct (Z.eqb_spec c 93) as [|_]; [contradiction|].
      rewrite <- EX.
      rewrite (parse_array_loop (v :: l) (p :: parts) IH);
        [reflexivity|cbn [forallb]; rewrite Hpv, Hp; reflexivity|exact Hi
        |constructor; assumption|discriminate|].
      cbn [length] in Hf. lia.
  - (* dict *)
    unfold enc in He. cbn [Json.encode] in He. fold enc in He. fold enc_kv in He.
    destruct (Json.all_some (map enc_kv d)) as [items|] eqn:El; [|discriminate].
    injection He as <-.
    apply (encoded_items_in_order sort_keys isep ksep) in El.
    fold enc in El. fold enc_kv in El.
    rewrite decoded_dict. fold decoded_item.
    cbn [plain ints_convertible] in Hp, Hi.
    apply andb_prop in Hp as [Hnd Hp].
    set (D := if sort_keys then Json.sort_items d else d) in *.
    set (items' := if sort_keys then Json.sort_items items else items) in *.
    assert (PD : Permutation D d) by apply order_perm.
    assert (HF : Forall (fun kv => reads (snd kv)) D)
      by (eapply Permutation_Forall; [apply Permutation_sym, PD|exact IH]).
    assert (Hp' : forallb item_ok D = true)
      by (apply (item_ok_perm d D (Permutation_sym PD)); exact Hp).
    assert (Hi' : forallb (fun kv => ints_convertible (snd kv)) D = true).
    { rewrite forallb_forall in Hi |- *. intros x Hx. apply Hi.
      eapply Permutation_in; [exact PD|exact Hx]. }
    assert (Hnd' : NoDup (map fst D)).
    { eapply Permutation_NoDup; [apply Permutation_map, Permutation_sym, PD|].
      apply distinct_NoDup, Hnd. }
    assert (ET : codes ("{"%char :: Json.join isep (map (Json.encode_item ksep) items')
                          ++ ["}"%char]) ++ r
                 = 123 :: codes (Json.join isep (map (Json.encode_item ksep) items'))
                     ++ 125 :: r).
    { cbn [codes map app].
      fold (codes (Json.join isep (map (Json.encode_item ksep) items') ++ ["}"%char])).
      rewrite codes_app, <- app_assoc. reflexivity. }
    rewrite ET in Hf |- *. destruct fuel as [|fuel]; [lia|].
    cbn [Decoder.scan_once]. change (123 =? 34) with false.
    change (123 =? 123) with true. cbv iota.
    clearbody D items'. clear PD IH Hp Hi Hnd.
    destruct El as [|kv it D items2 Hkv El].
    + cbn [Json.join codes map app]. rewrite (skip_ws_stop 125) by reflexivity.
      change (125 =? 125) with true. cbv iota. reflexivity.
    + assert (EX : exists Y, codes (Json.join isep (map (Json.encode_item ksep) (it :: items2)))
                             ++ 125 :: r = 34 :: Y).
      { cbn [map]. destruct items2 as [|it3 items3]; cbn [map];
          [rewrite join_one|rewrite join_two];
          unfold Json.encode_item at 1, Json.encode_str; cbn [codes map app];
          eexists; reflexivity. }
      destruct EX as (Y & EX).
      rewrite EX, (skip_ws_stop 34 Y eq_refl).
      change (34 =? 125) with false. cbv iota. rewrite <- EX.
      rewrite (parse_object_loop (kv :: D) (it :: items2) HF Hp' Hi' Hnd');
        [reflexivity|constructor; assumption|discriminate|intros k _ []|].
      cbn [length] in Hf. lia.
Qed.

End Encoded.

End ScanValue.

Section LoadsOfDumps.

Lemma str_of_text (t : list ascii) : str_of (string_of_list_ascii t) = codes t.
Proof. unfold str_of, codes. rewrite list_ascii_of_string_of_list_ascii. reflexivity. Qed.

(** Without [sort_keys] a plain value is decoded as it was. *)
Lemma decoded_plain (v : pyval) : plain v = true -> decoded false v = v.
Proof.
  induction v as [|b|z|f|s|l IH|l IH|d IH|n] using pyval_nested_ind;
    intros Hp; try reflexivity; try discriminate Hp; cbn [decoded plain] in *.
  - f_equal. induction IH as [|x l Hx _ IHl]; [reflexivity|].
    cbn [forallb] in Hp. apply andb_prop in Hp as [H1 H2].
    cbn [map]. rewrite (Hx H1), (IHl H2). reflexivity.
  - apply andb_prop in Hp as [_ Hp]. f_equal.
    induction IH as [|[k x] d Hx _ IHd]; [reflexivity|].
    cbn [forallb] in Hp. apply andb_prop in Hp as [H1 H2].
    apply andb_prop in H1 as [_ H1]. cbn [fst snd] in *.
    cbn [map fst snd]. rewrite (Hx H1), (IHd H2). reflexivity.
Qed.

(** With [sort_keys] it is decoded with the items of its dicts in key
    order. *)
Lemma decoded_reordered (v : pyval) : plain v = true -> reordered v (decoded true v).
Proof.
  induction v as [|b|z|f|s|l IH|l IH|d IH|n] using pyval_nested_ind;
    intros Hp; try apply reordered_same; try discriminate Hp;
    cbn [decoded plain] in *.
  - apply reordered_list.
    induction IH as [|x l Hx _ IHl]; [constructor|].
    cbn [forallb] in Hp. apply andb_prop in Hp as [H1 H2].
    cbn [map]. constructor; [exact (Hx H1)|exact (IHl H2)].
  - apply andb_prop in Hp as [Hnd Hp].
    apply (reordered_dict d (map (fun kv => (fst kv, decoded true (snd kv))) d)).
    + apply distinct_NoDup, Hnd.
    + clear Hnd. induction IH as [|[k x] d Hx _ IHd]; [constructor|].
      cbn [forallb] in Hp. apply andb_prop in Hp as [H1 H2].
      apply andb_prop in H1 as [_ H1]. cbn [fst snd] in *.
      cbn [map]. constructor; [split; [reflexivity|exact (Hx H1)]|exact (IHd H2)].
    + apply Permutation_sym, sort_items_perm.
Qed.

(** [loads] on the whole text of a value. *)
Lemma loads_encoded (sort_keys : bool) (ws_i ws_k : list ascii) (v : pyval)
      (t : list ascii) :
  blank ws_i = true -> blank ws_k = true ->
  plain v = true -> ints_convertible v = true ->
  Json.encode sort_keys (","%char :: ws_i) (":"%char :: ws_k) v = Some t ->
  Decoder.loads (codes t) = Some (decoded sort_keys v).
Proof.
  intros Hi Hk Hp Hc He.
  destruct (encode_opens sort_keys ws_i ws_k v t [] Hp He) as (c & Y & E & Hw & _).
  rewrite app_nil_r in E.
  pose proof (scan_value sort_keys ws_i ws_k Hi Hk v Hp Hc t []
                (2 * length (codes t) + 2) He I) as S.
  rewrite app_nil_r in S. specialize (S ltac:(lia)).
  unfold Decoder.loads. rewrite E.
  assert (B : c <> 65279).
  { destruct t as [|a t]; [discriminate E|]. cbn [codes map] in E.
    injection E as <- _. pose proof (N_ascii_bounded a). lia. }
  destruct (Z.eqb_spec c 65279); [contradiction|].
  rewrite (skip_ws_stop c Y Hw), <- E, S. reflexivity.
Qed.

End LoadsOfDumps.

(** X11. What [json.dump] writes, [json.load] reads back: for a value of the
    JSON data model whose ints have at most 4300 digits, decoding the text
    of [json.dumps] gives the value itself, keys in their order. *)
Theorem loads_dumps_round_trip :
  forall (v : pyval) (text : string),
    plain v = true -> ints_convertible v = true ->
    Json.dumps v = Some text ->
    Decoder.loads (str_of text) = Some v.
Proof.
  intros v text Hp Hc Hd. unfold Json.dumps in Hd.
  destruct (Json.encode false (chars ", ") (chars ": ") v) as [t|] eqn:E; [|discriminate].
  injection Hd as <-. rewrite str_of_text.
  rewrite (loads_encoded false [" "%char] [" "%char] v t eq_refl eq_refl Hp Hc E).
  rewrite (decoded_plain v Hp). reflexivity.
Qed.

Lemma loads_dumps_round_trip_witness :
  Json.dumps (PDict example_hyper) = Some example_hyper_text /\
  Decoder.loads (str_of example_hyper_text) = Some (PDict example_hyper).
Proof.
  split; [exact dumps_example_hyper|].
  apply (loads_dumps_round_trip (PDict example_hyper) example_hyper_text).
  - vm_compute. reflexivity.
  - vm_compute. reflexivity.
  - exact dumps_example_hyper.
Defined.

(** X12. The text that is signed decodes to the Claim it was made from: for a
    payload of the JSON data model whose ints have at most 4300 digits,
    decoding the canonical text gives the payload with the items of
    every dict in key order. *)
Theorem canonical_text_decodes :
  forall (v : pyval) (text : string),
    plain v = true -> ints_convertible v = true ->
    Json.dumps_canonical v = Some text ->
    Decoder.loads (str_of text) = Some (decoded true v)
    /\ reordered v (decoded true v).
Proof.
  intros v text Hp Hc Hd. unfold Json.dumps_canonical in Hd.
  destruct (Json.encode true (chars ",") (chars ":") v) as [t|] eqn:E; [|discriminate].
  injection Hd as <-. rewrite str_of_text. split.
  - exact (loads_encoded true [] [] v t eq_refl eq_refl Hp Hc E).
  - exact (decoded_reordered v Hp).
Qed.

Lemma canonical_text_decodes_witness :
  exists text,
    Json.dumps_canonical (payload_of example_claim) = Some text /\
    Decoder.loads (str_of text) = Some (decoded true (payload_of example_claim)).
Proof.
  destruct (Json.dumps_canonical (payload_of example_claim)) as [text|] eqn:E;
    [|vm_compute in E; discriminate].
  exists text. split; [reflexivity|].
  apply (canonical_text_decodes (payload_of example_claim) text).
  - vm_compute. reflexivity.
  - vm_compute. reflexivity.
  - exact E.
Defined.

(** ** The training template *)

Section ScoreText.

Lemma ten_is_10 : FloatArith.of_int 10 = Some Train.ten.
Proof. vm_compute. reflexivity. Qed.

Lemma dict_get_absent (key : pystr) (d : list (pystr * pyval)) (default : pyval) :
  ~ In key (map fst d) -> Train.dict_get key d default = default.
Proof.
  induction d as [|[k v] d IH]; intros Hk; [reflexivity|].
  cbn [Train.dict_get].
  destruct (str_eqb k key) eqn:E.
  - apply str_eqb_eq in E. exfalso. apply Hk. left. exact E.
  - apply IH. intros Hin. apply Hk. right. exact Hin.
Qed.

Lemma dumped_text (v : pyval) (text : string) :
  plain v = true -> ints_convertible v = true ->
  Json.dumps v = Some text ->
  forallb printable (chars text) = true /\ Decoder.loads (str_of text) = Some v.
Proof.
  intros Hp Hc Hd. unfold Json.dumps in Hd.
  destruct (Json.encode false (chars ", ") (chars ": ") v) as [t|] eqn:E; [|discriminate].
  injection Hd as <-. split.
  - unfold chars at 1. rewrite list_ascii_of_string_of_list_ascii.
    apply (encode_printable false (chars ", ") (chars ": ")) with (v := v);
      [reflexivity|reflexivity|exact E].
  - rewrite str_of_text.
    rewrite (loads_encoded false [" "%char] [" "%char] v t eq_refl eq_refl Hp Hc E).
    rewrite (decoded_plain v Hp). reflexivity.
Qed.

End ScoreText.

(** X13. The score that [train] prints is in positional notation with exactly
    five decimals, whatever the size of the value: an optional minus sign,
    at least one digit, the point, five digits. *)
Theorem score_text_shape :
  forall (neg : bool) (m e : Z),
  exists ip fp : list ascii,
    FloatArith.format_5f (FFin neg m e)
    = Float.sign_text neg ++ ip ++ "."%char :: fp /\
    ip <> [] /\ forallb is_digit ip = true /\
    forallb is_digit fp = true /\ length fp = 5%nat.
Proof.
  intros neg m e. unfold FloatArith.format_5f.
  destruct (Float.scale2 m 1 (- e)) as [p q].
  set (n := Float.round_half_even (p * 100000) q).
  set (frac := Float.digits_of (n mod 100000)).
  exists (Float.digits_of (n / 100000)), (repeat "0"%char (5 - length frac) ++ frac).
  split; [reflexivity|]. split; [apply digits_of_nonempty|].
  split; [apply digits_of_digits|]. split.
  - rewrite forallb_app, repeat_zero_digits. apply digits_of_digits.
  - assert (L : (length frac <= 5)%nat).
    { apply digits_of_at_most; [lia|].
      pose proof (Z.mod_pos_bound n 100000 ltac:(lia)).
      change (10 ^ Z.of_nat 5) with 100000. lia. }
    rewrite length_app, repeat_length. lia.
Qed.

Section TrainingScript.

Variable read_text : list byte -> option pystr.
Variable show : pyval -> option string.

(** Bytes that are printable ASCII are text in the encoding of the
    locale, and read as themselves. *)
Hypothesis read_text_ascii :
  forall s : string,
    forallb printable (chars s) = true ->
    read_text (encode_utf8 s) = Some (str_of s).

(** X14. [train] computes the score from the hyperparameters that the client
    packaged: run on the [hyperparameters.json] that [json.dump] wrote for
    [hyper], it loads [hyper] itself and prints the score of its [lr], or
    raises what the arithmetic on that [lr] raises. *)
Theorem train_reads_packaged_hyperparameters :
  forall (hyper : list (pystr * pyval)) (text shown : string) (fs : Os.fs),
    plain (PDict hyper) = true -> ints_convertible (PDict hyper) = true ->
    Json.dumps (PDict hyper) = Some text ->
    Os.fs_read "hyperparameters.json" fs = Some (encode_utf8 text) ->
    show (PDict hyper) = Some shown ->
    Train.train read_text show fs
    = match Train.performance_of
              (Train.dict_get (str_of "lr") hyper (PFloat (FFin false 0 (-1074)))) with
      | inr performance =>
          (None,
           [ "[TRAIN_TEMPLATE] Starting training..."%string;
             ("[TRAIN_TEMPLATE] Loaded hyperparameters: " ++ shown)%string;
             "[TRAIN_TEMPLATE] Training finished."%string;
             Train.score_begin;
             string_of_list_ascii (FloatArith.format_5f performance);
             Train.score_end ])
      | inl e =>
          (Some e,
           [ "[TRAIN_TEMPLATE] Starting training..."%string;
             ("[TRAIN_TEMPLATE] Loaded hyperparameters: " ++ shown)%string ])
      end.
Proof.
  intros hyper text shown fs Hp Hi Hd Hr Hs.
  destruct (dumped_text (PDict hyper) text Hp Hi Hd) as [Ha Hl].
  unfold Train.train. rewrite Hr, (read_text_ascii text Ha), Hl, Hs.
  destruct (Train.performance_of _); reflexivity.
Qed.

(** X15. A dict without the key [lr] is trained with the default 0.0, and the
    score is 0.89000. *)
Theorem train_default_lr :
  forall (d : list (pystr * pyval)) (content : list byte) (text : pystr)
         (shown : string) (fs : Os.fs),
    Os.fs_read "hyperparameters.json" fs = Some content ->
    read_text content = Some text ->
    Decoder.loads text = Some (PDict d) ->
    show (PDict d) = Some shown ->
    ~ In (str_of "lr") (map fst d) ->
    Train.train read_text show fs
    = (None,
       [ "[TRAIN_TEMPLATE] Starting training..."%string;
         ("[TRAIN_TEMPLATE] Loaded hyperparameters: " ++ shown)%string;
         "[TRAIN_TEMPLATE] Training finished."%string;
         Train.score_begin; "0.89000"%string; Train.score_end ]).
Proof.
  intros d content text shown fs Hr Ht Hl Hs Hk.
  unfold Train.train. rewrite Hr, Ht, Hl, Hs.
  assert (G := dict_get_absent (str_of "lr") d (PFloat (FFin false 0 (-1074))) Hk).
  rewrite G.
  assert (P : Train.performance_of (PFloat (FFin false 0 (-1074)))
              = inr (FFin false 8016407336719483 (-53)))
    by (vm_compute; reflexivity).
  rewrite P.
  assert (F : FloatArith.format_5f (FFin false 8016407336719483 (-53)) = chars "0.89000")
    by (vm_compute; reflexivity).
  rewrite F. reflexivity.
Qed.

(** X16. The score block is printed whole or not at all: either [train]
    returns normally and its last three lines are the opening mark, a
    score and the closing mark, with no mark before them, or no mark is
    printed. *)
Theorem score_block_whole_or_absent :
  forall fs : Os.fs,
    (exists (performance : pyfloat) (before : list string),
        Train.train read_text show fs
        = (None,
           before ++ [ Train.score_begin;
                       string_of_list_ascii (FloatArith.format_5f performance);
                       Train.score_end ]) /\
        ~ In Train.score_begin before /\ ~ In Train.score_end before)
    \/ (~ In Train.score_begin (snd (Train.train read_text show fs)) /\
        ~ In Train.score_end (snd (Train.train read_text show fs))).
Proof.
  intros fs. unfold Train.train.
  assert (N : forall mark shown,
             mark = Train.score_begin \/ mark = Train.score_end ->
             ~ In mark [ "[TRAIN_TEMPLATE] Starting training..."%string;
                         ("[TRAIN_TEMPLATE] Loaded hyperparameters: " ++ shown)%string;
                         "[TRAIN_TEMPLATE] Training finished."%string ]).
  { intros mark shown [-> | ->] [H|[H|[H|[]]]]; discriminate H. }
  assert (N2 : forall mark shown,
             mark = Train.score_begin \/ mark = Train.score_end ->
             ~ In mark [ "[TRAIN_TEMPLATE] Starting training..."%string;
                         ("[TRAIN_TEMPLATE] Loaded hyperparameters: " ++ shown)%string ]).
  { intros mark shown Hm Hin. apply (N mark shown Hm).
    destruct Hin as [H|[H|[]]]; [left|right; left]; exact H. }
  assert (N1 : forall mark,
             mark = Train.score_begin \/ mark = Train.score_end ->
             ~ In mark [ "[TRAIN_TEMPLATE] Starting training..."%string ]).
  { intros mark [-> | ->] [H|[]]; discriminate H. }
  destruct (Os.fs_read "hyperparameters.json" fs) as [content|].
  2: { right. cbn [snd app]. split; intros [H|[H|[]]]; discriminate H. }
  destruct (read_text content) as [text|]; [|right; cbn [snd]; split; apply N1; auto].
  destruct (Decoder.loads text) as [hyperparams|]; [|right; cbn [snd]; split; apply N1; auto].
  destruct (show hyperparams) as [shown|]; [|right; cbn [snd]; split; apply N1; auto].
  cbv zeta. cbn [app].
  destruct hyperparams as [|b|z|f|s|l|l|d|n];
    try (right; cbn [snd]; split; apply N2; auto).
  destruct (Train.performance_of _) as [e|performance];
    [right; cbn [snd]; split; apply N2; auto|].
  left. exists performance.
  exists [ "[TRAIN_TEMPLATE] Starting training..."%string;
           ("[TRAIN_TEMPLATE] Loaded hyperparameters: " ++ shown)%string;
           "[TRAIN_TEMPLATE] Training finished."%string ].
  split; [reflexivity|]. split; apply N; auto.
Qed.

End TrainingScript.

Section ClaimedAndReproduced.

Variable zip_archive : list (string * list byte) -> list byte.
Variable ed25519_sign : list byte -> list byte -> list byte.
Variable sk : list byte.
Variable read_text : list byte -> option pystr.
Variable show : pyval -> option string.

Hypothesis read_text_ascii :
  forall s : string,
    forallb printable (chars s) = true ->
    read_text (encode_utf8 s) = Some (str_of s).

(** X17. The example submission claims a performance that its own package does
    not reproduce: the payload posted by [submit_example] says 0.92, and
    [train] run on the [hyperparameters.json] of the archive posted with it
    prints the score 0.90000. *)
Theorem example_claim_is_not_reproduced :
  forall (now : Z) (random8 : list byte) (w : world),
    layout_ok w = true ->
    exists (members : list (string * list byte)) (text sig : string) (w' : world),
      submit_example zip_archive ed25519_sign sk now random8 w = (inr tt, w') /\
      posts w' = posts w ++ [Request "http://localhost:8080/submit" text sig "repro.zip"
                               (zip_archive members)] /\
      (let c := Claim (str_of "task-prod-001") 1 (Float.of_decimal false 92 (-2))
                  (str_of (Sha256.hex (Sha256.sha256 (zip_archive members))))
                  example_hyper now (int_from_bytes_big random8) in
       Json.dumps (payload_of c) = Some text /\
       FloatArith.format_5f (performance c) = chars "0.92000") /\
      exists content : list byte,
        In ("hyperparameters.json"%string, content) members /\
        forall (fs : Os.fs) (shown : string),
          Os.fs_read "hyperparameters.json" fs = Some content ->
          show (PDict example_hyper) = Some shown ->
          Train.train read_text show fs
          = (None,
             [ "[TRAIN_TEMPLATE] Starting training..."%string;
               ("[TRAIN_TEMPLATE] Loaded hyperparameters: " ++ shown)%string;
               "[TRAIN_TEMPLATE] Training finished."%string;
               Train.score_begin; "0.90000"%string; Train.score_end ]).
Proof.
  intros now random8 w _.
  assert (Hs : serializable (PDict example_hyper) = true) by (vm_compute; reflexivity).
  assert (Hp : plain (PDict example_hyper) = true) by (vm_compute; reflexivity).
  assert (Hi : ints_convertible (PDict example_hyper) = true) by (vm_compute; reflexivity).
  destruct (build_repro_package_run zip_archive (PDict example_hyper) "repro.zip"
              example_hyper_text w dumps_example_hyper)
    as (members & fs2 & Hb & Hf & Hin).
  set (w1 := World (Os.fs_write "repro.zip" (zip_archive members) fs2) (posts w)) in Hb.
  assert (Ha : Os.fs_read "repro.zip" (files w1) = Some (zip_archive members))
    by apply fs_read_write_same.
  destruct (submit_after_build zip_archive ed25519_sign sk example_hyper now random8
              w w1 Hb Hs _ Ha) as (t & sig & Ht & _ & Hr).
  exists members, t, sig,
    (World (files w1)
       (posts w1 ++ [Request "http://localhost:8080/submit" t sig "repro.zip"
                       (zip_archive members)])).
  split; [exact Hr|]. split; [reflexivity|]. split.
  { cbv zeta. split; [exact Ht|]. vm_compute. reflexivity. }
  exists (encode_utf8 example_hyper_text). split.
  - apply Hin. split; [reflexivity|]. rewrite Hf. cbv zeta.
    change (Os.path_join tmpdir "hyperparameters.json") with "pkgtmp/hyperparameters.json"%string.
    destruct (Os.fs_read "python-client/train.py" _).
    + rewrite fs_read_write_other by discriminate. apply fs_read_write_same.
    + apply fs_read_write_same.
  - intros fs shown Hfs Hsh.
    destruct (dumped_text (PDict example_hyper) example_hyper_text Hp Hi dumps_example_hyper)
      as [Hpr Hl].
    unfold Train.train. rewrite Hfs, (read_text_ascii _ Hpr), Hl, Hsh.
    vm_compute. reflexivity.
Qed.

End ClaimedAndReproduced.

Section LatinText.

Lemma byteZ_of_ascii (c : ascii) :
  Sha256.byteZ (byte_of_ascii c) = Z.of_N (N_of_ascii c).
Proof.
  unfold Sha256.byteZ. f_equal. apply Byte.to_of_N.
  symmetry. apply byte_of_ascii_via_N.
Qed.

Lemma read_latin1_ascii (s : string) :
  forallb printable (chars s) = true ->
  read_latin1 (encode_utf8 s) = Some (str_of s).
Proof.
  intros _. unfold read_latin1, encode_utf8, str_of, list_byte_of_string.
  rewrite map_map. apply f_equal, map_ext. exact byteZ_of_ascii.
Qed.

End LatinText.

Lemma train_reads_packaged_hyperparameters_witness :
  (forall s : string,
      forallb printable (chars s) = true ->
      read_latin1 (encode_utf8 s) = Some (str_of s)) /\
  Train.train read_latin1 (fun _ => Some "{...}"%string) unpacked_example
  = (None,
     [ "[TRAIN_TEMPLATE] Starting training..."%string;
       "[TRAIN_TEMPLATE] Loaded hyperparameters: {...}"%string;
       "[TRAIN_TEMPLATE] Training finished."%string;
       Train.score_begin; "0.90000"%string; Train.score_end ]).
Proof.
  split; [exact read_latin1_ascii|].
  assert (Hp : plain (PDict example_hyper) = true) by (vm_compute; reflexivity).
  assert (Hi : ints_convertible (PDict example_hyper) = true) by (vm_compute; reflexivity).
  rewrite (train_reads_packaged_hyperparameters read_latin1 (fun _ => Some "{...}"%string)
             read_latin1_ascii example_hyper example_hyper_text "{...}" unpacked_example
             Hp Hi dumps_example_hyper eq_refl eq_refl).
  vm_compute. reflexivity.
Defined.

Lemma train_default_lr_witness :
  Train.train read_latin1 (fun _ => Some "{}"%string)
    [ ("hyperparameters.json"%string, bytes_of_string "{}") ]
  = (None,
     [ "[TRAIN_TEMPLATE] Starting training..."%string;
       "[TRAIN_TEMPLATE] Loaded hyperparameters: {}"%string;
       "[TRAIN_TEMPLATE] Training finished."%string;
       Train.score_begin; "0.89000"%string; Train.score_end ]).
Proof.
  apply (train_default_lr read_latin1 (fun _ => Some "{}"%string) []
           (bytes_of_string "{}") (str_of "{}") "{}").
  - reflexivity.
  - reflexivity.
  - vm_compute. reflexivity.
  - reflexivity.
  - intros [].
Defined.

Lemma example_claim_is_not_reproduced_witness :
  layout_ok world_with_leftover = true /\
  exists (text sig : string) (w' : world),
    submit_example (fun _ => []) (fun _ _ => []) [] 0 [] world_with_leftover = (inr tt, w') /\
    posts w' = [Request "http://localhost:8080/submit" text sig "repro.zip" []].
Proof.
  split; [reflexivity|].
  destruct (example_claim_is_not_reproduced (fun _ => []) (fun _ _ => []) []
              read_latin1 (fun _ => Some "{...}"%string) read_latin1_ascii
              0 [] world_with_leftover eq_refl)
    as (members & text & sig & w' & Hr & Hp & _).
  exists text, sig, w'. split; [exact Hr|exact Hp].
Defined.
